(** * Graph matching networks: the propagation engine of [src/utils/gmn.py]

    A shallow embedding of the graph embedding / graph matching model:
    the feature encoder, the message-passing layer, the cross-graph
    attention, the propagation stack and the graph aggregator, together
    with the similarity and loss functions.

    Conventions.
    - A float tensor is a list of rows over the real numbers [R]: the
      embedding idealises float32 arithmetic, so rounding is not modelled.
    - An int tensor of node or graph indices is a [list nat].
    - A Python function that may [raise] returns a [result].
    - The trainable networks (Sonnet MLP, GRU and LayerNorm modules) live
      in the TensorFlow variable store, keyed by module name; here they
      are the fields of a [variable_store], each acting on one row, and
      every function that runs a network takes the store first.
    - TensorFlow keeps the static column count of a tensor; lists of rows
      do not, so the few primitives that need it (a reduction over an
      empty segment, a transposition) take it as their first argument. *)

From Stdlib Require Import String Ascii DecimalString DecimalNat.
From Stdlib Require Import Reals Lra Lia ZArith Bool PeanoNat.
From Stdlib Require Import List Permutation Sorted FinFun.
Import ListNotations.

Local Open Scope R_scope.

(** ** Python results *)

Inductive exn : Type :=
| ValueError (msg : string)
| KeyError (key : string)
| IndexError (msg : string).

Inductive result (A : Type) : Type :=
| Ok (a : A)
| Raise (e : exn).

Arguments Ok {A} a.
Arguments Raise {A} e.

Definition bind {A B : Type} (r : result A) (k : A -> result B) : result B :=
  match r with
  | Ok a => k a
  | Raise e => Raise e
  end.

Notation "x <- r ;; k" := (bind r (fun x => k))
  (at level 61, r at next level, right associativity).

(** ['...%d...' % n], and the double quote of a message. *)
Definition str (n : nat) : string := NilEmpty.string_of_uint (Nat.to_uint n).

Definition dquote : string := String (ascii_of_nat 34) EmptyString.

(** [name in d] and [d[name]] for a dict with string keys. *)
Fixpoint lookup {A : Type} (d : list (string * A)) (name : string) : option A :=
  match d with
  | [] => None
  | (k, v) :: d' => if String.eqb k name then Some v else lookup d' name
  end.

(** ** Tensors and the TensorFlow primitives the model uses *)

Abbreviation vec := (list R) (only parsing).
Abbreviation tensor := (list (list R)) (only parsing).

Fixpoint map2 {A B C : Type} (f : A -> B -> C) (u : list A) (v : list B) : list C :=
  match u, v with
  | a :: u', b :: v' => f a b :: map2 f u' v'
  | _, _ => []
  end.

Definition Rsum (v : vec) : R := fold_right Rplus 0 v.

Definition zeros (d : nat) : vec := repeat 0 d.

(** The lowest finite float32, what [numeric_limits<float>::lowest()] is. *)
Definition float32_lowest : R := - IZR 340282346638528859811704183484516925440.

Module tf.

(** Elementwise binary operators on tensors of one shape. *)
Definition vadd : vec -> vec -> vec := map2 Rplus.
Definition vsub : vec -> vec -> vec := map2 Rminus.
Definition vmul : vec -> vec -> vec := map2 Rmult.
Definition vmax : vec -> vec -> vec := map2 Rmax.
Definition add : tensor -> tensor -> tensor := map2 vadd.
Definition sub : tensor -> tensor -> tensor := map2 vsub.
Definition mul : tensor -> tensor -> tensor := map2 vmul.

(** Broadcasting of a binary operator over rank 2: an axis of size one is
    stretched along the other operand. *)
Definition broadcast_row (op : R -> R -> R) (u v : vec) : vec :=
  match u, v with
  | [a], _ => map (op a) v
  | _, [b] => map (fun a => op a b) u
  | _, _ => map2 op u v
  end.

Definition broadcast (op : R -> R -> R) (a b : tensor) : tensor :=
  match a, b with
  | [r], _ => map (broadcast_row op r) b
  | _, [r] => map (fun u => broadcast_row op u r) a
  | _, _ => map2 (broadcast_row op) a b
  end.

(** The static column count of a tensor that has a row. *)
Definition ncols (t : tensor) : nat :=
  match t with
  | [] => 0%nat
  | r :: _ => length r
  end.

(** [tf.gather(params, indices)] *)
Definition gather (params : tensor) (indices : list nat) : tensor :=
  map (fun i => nth i params []) indices.

(** [tf.concat(values, axis=-1)] and [tf.concat(values, axis=0)] *)
Definition concat_last (values : list tensor) : tensor :=
  match values with
  | [] => []
  | t :: rest => fold_left (map2 (@app R)) rest t
  end.

Definition concat0 (values : list tensor) : tensor := List.concat values.

(** [tf.reduce_sum(t, axis=-1)] and [tf.reduce_mean(t, axis=1)] *)
Definition reduce_sum (t : tensor) : vec := map Rsum t.

Definition reduce_mean (t : tensor) : vec :=
  map (fun r => Rsum r / INR (length r)) t.

(** The transpose of a matrix with [ncols] columns. *)
Definition transpose (ncols : nat) (m : tensor) : tensor :=
  map (fun j => map (fun r => nth j r 0) m) (seq 0 ncols).

Definition dot (u v : vec) : R := Rsum (vmul u v).

(** [tf.matmul(a, b, transpose_b=True)], [tf.matmul(a, b)] with [b] of
    [ncols] columns, and [tf.matmul(a, b, transpose_a=True)] with [a] of
    [acols] columns. *)
Definition matmul_nt (a b : tensor) : tensor :=
  map (fun u => map (fun v => dot u v) b) a.

Definition matmul (ncols : nat) (a b : tensor) : tensor :=
  matmul_nt a (transpose ncols b).

Definition matmul_tn (acols ncols : nat) (a b : tensor) : tensor :=
  matmul ncols (transpose acols a) b.

(** [tf.nn.softmax(a, axis=1)] and [tf.nn.softmax(a, axis=0)] of a matrix
    with [ncols] columns. *)
Definition softmax_row (r : vec) : vec :=
  map (fun v => exp v / Rsum (map exp r)) r.

Definition softmax1 (a : tensor) : tensor := map softmax_row a.

Definition softmax0 (ncols : nat) (a : tensor) : tensor :=
  transpose (length a) (softmax1 (transpose ncols a)).

Definition sigmoid (x : R) : R := 1 / (1 + exp (- x)).
Definition relu (x : R) : R := Rmax x 0.

(** [tf.nn.l2_normalize(x, axis=-1)], with its default epsilon. *)
Definition l2_normalize (x : tensor) : tensor :=
  map (fun r => map (fun v => v / sqrt (Rmax (Rsum (vmul r r)) 1e-12)) r) x.

(** The rows of [data] whose segment id is [g], in their order. *)
Definition segment_rows (data : tensor) (segment_ids : list nat) (g : nat) : tensor :=
  map fst (filter (fun p => Nat.eqb (snd p) g) (combine data segment_ids)).

(** [tf.dynamic_partition(data, partitions, num_partitions)] *)
Definition dynamic_partition (data : tensor) (partitions : list nat)
    (num_partitions : nat) : list tensor :=
  map (segment_rows data partitions) (seq 0 num_partitions).

(** The unsorted segment reductions, for data of [ncols] columns.  An empty
    segment sums to zero and has the lowest float as its maximum; the mean
    and the sqrt_n variant divide by the segment size, at least one. *)
Definition unsorted_segment_sum (ncols : nat) (data : tensor)
    (segment_ids : list nat) (num_segments : nat) : tensor :=
  map (fun g => fold_right vadd (zeros ncols) (segment_rows data segment_ids g))
      (seq 0 num_segments).

Definition segment_n (data : tensor) (segment_ids : list nat) (g : nat) : R :=
  Rmax (INR (length (segment_rows data segment_ids g))) 1.

Definition unsorted_segment_mean (ncols : nat) (data : tensor)
    (segment_ids : list nat) (num_segments : nat) : tensor :=
  map (fun g =>
         map (fun s => s / segment_n data segment_ids g)
             (fold_right vadd (zeros ncols) (segment_rows data segment_ids g)))
      (seq 0 num_segments).

Definition unsorted_segment_sqrt_n (ncols : nat) (data : tensor)
    (segment_ids : list nat) (num_segments : nat) : tensor :=
  map (fun g =>
         map (fun s => s / sqrt (segment_n data segment_ids g))
             (fold_right vadd (zeros ncols) (segment_rows data segment_ids g)))
      (seq 0 num_segments).

Definition unsorted_segment_max (ncols : nat) (data : tensor)
    (segment_ids : list nat) (num_segments : nat) : tensor :=
  map (fun g => fold_right vmax (repeat float32_lowest ncols)
                           (segment_rows data segment_ids g))
      (seq 0 num_segments).

End tf.

(** ** Similarity functions of the cross-graph attention *)

Definition pairwise_euclidean_similarity (x y : tensor) : tensor :=
  let s := map (map (Rmult 2)) (tf.matmul_nt x y) in
  let diag_x := map (fun v => [v]) (tf.reduce_sum (tf.mul x x)) in
  let diag_y := [tf.reduce_sum (tf.mul y y)] in
  tf.broadcast Rminus (tf.broadcast Rminus s diag_x) diag_y.

Definition pairwise_dot_product_similarity (x y : tensor) : tensor :=
  tf.matmul_nt x y.

Definition pairwise_cosine_similarity (x y : tensor) : tensor :=
  let x := tf.l2_normalize x in
  let y := tf.l2_normalize y in
  tf.matmul_nt x y.

Definition PAIRWISE_SIMILARITY_FUNCTION : list (string * (tensor -> tensor -> tensor)) :=
  [ ("euclidean"%string, pairwise_euclidean_similarity);
    ("dotproduct"%string, pairwise_dot_product_similarity);
    ("cosine"%string, pairwise_cosine_similarity) ].

Definition get_pairwise_similarity (name : string)
  : result (tensor -> tensor -> tensor) :=
  match lookup PAIRWISE_SIMILARITY_FUNCTION name with
  | None =>
      Raise (ValueError ("Similarity metric name " ++ dquote ++ name ++ dquote
                         ++ " not supported."))
  | Some f => Ok f
  end.

(** ** The cross-graph attention *)

(** The column count of the node states is read off the first row of the
    pair; [a] has a row per row of [x] and a column per row of [y]. *)
Definition compute_cross_attention (x y : tensor)
    (sim : tensor -> tensor -> tensor) : tensor * tensor :=
  let ncols := tf.ncols (x ++ y) in
  let a := sim x y in
  let a_x := tf.softmax1 a in
  let a_y := tf.softmax0 (length y) a in
  let attention_x := tf.matmul ncols a_x y in
  let attention_y := tf.matmul_tn (length y) ncols a_y x in
  (attention_x, attention_y).

(** [range(0, n, 2)] *)
Definition range2 (n : nat) : list nat :=
  map (fun k => (2 * k)%nat) (seq 0 ((n + 1) / 2)).

(** [n_blocks] is a [nat], so the [isinstance(n_blocks, int)] test of the
    source always passes; [results.set_shape] only records a static shape. *)
Definition batch_block_pair_attention (data : tensor) (block_idx : list nat)
    (n_blocks : nat) (similarity : string) : result tensor :=
  if negb (n_blocks mod 2 =? 0)%nat then
    Raise (ValueError ("n_blocks (" ++ str n_blocks ++ ") must be a multiple of 2."))
  else
    sim <- get_pairwise_similarity similarity ;;
    let partitions := tf.dynamic_partition data block_idx n_blocks in
    let results :=
      flat_map (fun i =>
                  let x := nth i partitions [] in
                  let y := nth (i + 1) partitions [] in
                  let '(attention_x, attention_y) := compute_cross_attention x y sim in
                  [attention_x; attention_y])
               (range2 n_blocks) in
    Ok (tf.concat0 results).

(** ** Losses *)

Definition euclidean_distance (x y : tensor) : vec :=
  tf.reduce_sum (map (map (fun d => d ^ 2)) (tf.sub x y)).

Definition approximate_hamming_similarity (x y : tensor) : vec :=
  tf.reduce_mean (tf.mul (map (map tanh) x) (map (map tanh) y)).

Definition pairwise_loss (x y : tensor) (labels : list Z) (loss_type : string)
    (margin : R) : result vec :=
  let labels := map IZR labels in
  if String.eqb loss_type "margin" then
    Ok (map tf.relu
            (map (fun v => margin - v)
                 (tf.vmul labels (map (fun d => 1 - d) (euclidean_distance x y)))))
  else if String.eqb loss_type "hamming" then
    Ok (map (fun v => 0.25 * v ^ 2)
            (tf.vsub labels (approximate_hamming_similarity x y)))
  else Raise (ValueError ("Unknown loss_type " ++ loss_type)).

Definition triplet_loss (x_1 y x_2 z : tensor) (loss_type : string)
    (margin : R) : result vec :=
  if String.eqb loss_type "margin" then
    Ok (map tf.relu
            (tf.vsub (map (fun d => margin + d) (euclidean_distance x_1 y))
                     (euclidean_distance x_2 z)))
  else if String.eqb loss_type "hamming" then
    Ok (map (fun v => 0.125 * v)
            (tf.vadd (map (fun s => (s - 1) ^ 2) (approximate_hamming_similarity x_1 y))
                     (map (fun s => (s + 1) ^ 2) (approximate_hamming_similarity x_2 z))))
  else Raise (ValueError ("Unknown loss_type " ++ loss_type)).

(** ** The model *)

(** The trainable networks of the variable store, by the name of the
    module that owns them.  An MLP and a LayerNorm map a row to a row; a
    GRU core maps an input row and the previous state row to the next
    state row. *)
Record variable_store : Type := mkStore {
  node_feature_mlp : vec -> vec;
  edge_feature_mlp : vec -> vec;
  message_mlp : string -> vec -> vec;
  reverse_message_mlp : string -> vec -> vec;
  node_mlp : string -> vec -> vec;
  gru : string -> vec -> vec -> vec;
  message_layer_norm : string -> vec -> vec;
  node_layer_norm : string -> vec -> vec;
  node_state_g_mlp : vec -> vec;
  graph_transform_mlp : vec -> vec
}.

Section Model.

Variable vs : variable_store.

(** *** The graph encoder *)

Record GraphEncoder : Type := mkGraphEncoder {
  enc_node_hidden_sizes : option (list nat);
  enc_edge_hidden_sizes : option (list nat)
}.

Definition GraphEncoder_init (node_hidden_sizes edge_hidden_sizes : option (list nat))
  : GraphEncoder :=
  {| enc_node_hidden_sizes :=
       match node_hidden_sizes with
       | Some (_ :: _) => node_hidden_sizes
       | _ => None
       end;
     enc_edge_hidden_sizes := edge_hidden_sizes |}.

Definition GraphEncoder_build (self : GraphEncoder) (node_features : tensor)
    (edge_features : option tensor) : tensor * option tensor :=
  let node_outputs :=
    match enc_node_hidden_sizes self with
    | None => node_features
    | Some _ => map (node_feature_mlp vs) node_features
    end in
  let edge_outputs :=
    match edge_features, enc_edge_hidden_sizes self with
    | Some ef, Some _ => Some (map (edge_feature_mlp vs) ef)
    | _, _ => edge_features
    end in
  (node_outputs, edge_outputs).

(** *** The message passing layer *)

Definition graph_prop_once (node_states : tensor) (from_idx to_idx : list nat)
    (message_net : tensor -> tensor)
    (aggregation_module : tensor -> list nat -> nat -> tensor)
    (edge_features : option tensor) : tensor :=
  let from_states := tf.gather node_states from_idx in
  let to_states := tf.gather node_states to_idx in
  let edge_inputs := [from_states; to_states] in
  let edge_inputs :=
    match edge_features with
    | Some ef => edge_inputs ++ [ef]
    | None => edge_inputs
    end in
  let edge_inputs := tf.concat_last edge_inputs in
  let messages := message_net edge_inputs in
  aggregation_module messages to_idx (length node_states).

Record GraphPropLayer : Type := mkGraphPropLayer {
  _node_state_dim : nat;
  _edge_hidden_sizes : list nat;
  _node_hidden_sizes : list nat;
  _edge_net_init_scale : R;
  _node_update_type : string;
  _use_reverse_direction : bool;
  _reverse_dir_param_different : bool;
  _layer_norm : bool;
  _name : string
}.

Definition GraphPropLayer_init (node_state_dim : nat)
    (edge_hidden_sizes node_hidden_sizes : list nat) (edge_net_init_scale : R)
    (node_update_type : string)
    (use_reverse_direction reverse_dir_param_different layer_norm : bool)
    (name : string) : GraphPropLayer :=
  {| _node_state_dim := node_state_dim;
     _edge_hidden_sizes := edge_hidden_sizes;
     _node_hidden_sizes := node_hidden_sizes ++ [node_state_dim];
     _edge_net_init_scale := edge_net_init_scale;
     _node_update_type := node_update_type;
     _use_reverse_direction := use_reverse_direction;
     _reverse_dir_param_different := reverse_dir_param_different;
     _layer_norm := layer_norm;
     _name := name |}.

(** The size of a message vector: the last hidden size of the message net. *)
Definition message_dim (self : GraphPropLayer) : nat :=
  last (_edge_hidden_sizes self) 0%nat.

Definition _compute_aggregated_messages (self : GraphPropLayer)
    (node_states : tensor) (from_idx to_idx : list nat)
    (edge_features : option tensor) : tensor :=
  let _message_net := message_mlp vs (_name self) in
  let aggregated_messages :=
    graph_prop_once node_states from_idx to_idx (map _message_net)
      (tf.unsorted_segment_sum (message_dim self)) edge_features in
  let aggregated_messages :=
    if _use_reverse_direction self then
      let _reverse_message_net :=
        if _reverse_dir_param_different self
        then reverse_message_mlp vs (_name self)
        else _message_net in
      let reverse_aggregated_messages :=
        graph_prop_once node_states to_idx from_idx (map _reverse_message_net)
          (tf.unsorted_segment_sum (message_dim self)) edge_features in
      tf.add aggregated_messages reverse_aggregated_messages
    else aggregated_messages in
  if _layer_norm self
  then map (message_layer_norm vs (_name self)) aggregated_messages
  else aggregated_messages.

Definition _compute_node_update (self : GraphPropLayer) (node_states : tensor)
    (node_state_inputs : list tensor) (node_features : option tensor)
  : result tensor :=
  let node_state_inputs :=
    if String.eqb (_node_update_type self) "mlp"
       || String.eqb (_node_update_type self) "residual"
    then node_state_inputs ++ [node_states]
    else node_state_inputs in
  let node_state_inputs :=
    match node_features with
    | Some nf => node_state_inputs ++ [nf]
    | None => node_state_inputs
    end in
  let node_state_inputs :=
    match node_state_inputs with
    | [t] => t
    | _ => tf.concat_last node_state_inputs
    end in
  if String.eqb (_node_update_type self) "gru" then
    Ok (map2 (gru vs (_name self)) node_state_inputs node_states)
  else
    let mlp_output := map (node_mlp vs (_name self)) node_state_inputs in
    let mlp_output :=
      if _layer_norm self
      then map (node_layer_norm vs (_name self)) mlp_output
      else mlp_output in
    if String.eqb (_node_update_type self) "mlp" then Ok mlp_output
    else if String.eqb (_node_update_type self) "residual"
    then Ok (tf.add node_states mlp_output)
    else Raise (ValueError ("Unknown node update type " ++ _node_update_type self)).

Definition GraphPropLayer_build (self : GraphPropLayer) (node_states : tensor)
    (from_idx to_idx : list nat) (edge_features node_features : option tensor)
  : result tensor :=
  let aggregated_messages :=
    _compute_aggregated_messages self node_states from_idx to_idx edge_features in
  _compute_node_update self node_states [aggregated_messages] node_features.

(** The matching layer: the same layer with the cross-graph attention. *)
Definition GraphPropMatchingLayer_build (self : GraphPropLayer)
    (node_states : tensor) (from_idx to_idx graph_idx : list nat) (n_graphs : nat)
    (similarity : string) (edge_features node_features : option tensor)
  : result tensor :=
  let aggregated_messages :=
    _compute_aggregated_messages self node_states from_idx to_idx edge_features in
  cross_graph_attention <-
    batch_block_pair_attention node_states graph_idx n_graphs similarity ;;
  let attention_input := tf.sub node_states cross_graph_attention in
  _compute_node_update self node_states [aggregated_messages; attention_input]
    node_features.

(** *** The graph aggregator *)

Definition segment_op : Type := nat -> tensor -> list nat -> nat -> tensor.

Definition AGGREGATION_TYPE : list (string * segment_op) :=
  [ ("sum"%string, tf.unsorted_segment_sum);
    ("mean"%string, tf.unsorted_segment_mean);
    ("sqrt_n"%string, tf.unsorted_segment_sqrt_n);
    ("max"%string, tf.unsorted_segment_max) ].

Record GraphAggregator : Type := mkGraphAggregator {
  agg_node_hidden_sizes : list nat;
  _graph_transform_sizes : option (list nat);
  _graph_state_dim : nat;
  _gated : bool;
  _aggregation_type : string;
  _aggregation_op : segment_op
}.

Definition GraphAggregator_init (node_hidden_sizes : list nat)
    (graph_transform_sizes : option (list nat)) (gated : bool)
    (aggregation_type : string) : result GraphAggregator :=
  match rev node_hidden_sizes with
  | [] => Raise (IndexError "list index out of range")
  | graph_state_dim :: _ =>
      match lookup AGGREGATION_TYPE aggregation_type with
      | None => Raise (KeyError aggregation_type)
      | Some op =>
          Ok {| agg_node_hidden_sizes := node_hidden_sizes;
                _graph_transform_sizes := graph_transform_sizes;
                _graph_state_dim := graph_state_dim;
                _gated := gated;
                _aggregation_type := aggregation_type;
                _aggregation_op := op |}
      end
  end.

(** [tf.cast(v > -1e5, tf.float32)] *)
Definition above_threshold (v : R) : R :=
  if Rgt_dec v (-1e5) then 1 else 0.

(** The transformed and, when gated, gated node states.  The node
    transformation net is built with its last size doubled when the
    aggregation is gated; that size only shapes the net, which is
    [node_state_g_mlp] of the store.  Then the graph states before the
    final transform, and the final transform. *)
Definition GraphAggregator_node_states_g (self : GraphAggregator)
    (node_states : tensor) : tensor :=
  let node_states_g := map (node_state_g_mlp vs) node_states in
  if _gated self then
    map (fun r =>
           let gates := map tf.sigmoid (firstn (_graph_state_dim self) r) in
           tf.vmul (skipn (_graph_state_dim self) r) gates)
        node_states_g
  else node_states_g.

Definition GraphAggregator_reduce (self : GraphAggregator) (node_states : tensor)
    (graph_idx : list nat) (n_graphs : nat) : tensor :=
  let node_states_g := GraphAggregator_node_states_g self node_states in
  let graph_states :=
    _aggregation_op self (_graph_state_dim self) node_states_g graph_idx n_graphs in
  if String.eqb (_aggregation_type self) "max"
  then map (map (fun v => v * above_threshold v)) graph_states
  else graph_states.

Definition GraphAggregator_transform (self : GraphAggregator)
    (graph_states : tensor) : tensor :=
  match _graph_transform_sizes self with
  | Some (_ :: _) => map (graph_transform_mlp vs) graph_states
  | _ => graph_states
  end.

Definition GraphAggregator_build (self : GraphAggregator) (node_states : tensor)
    (graph_idx : list nat) (n_graphs : nat) : tensor :=
  GraphAggregator_transform self
    (GraphAggregator_reduce self node_states graph_idx n_graphs).

(** *** The embedding net and the matching net *)

Inductive layer_class : Type :=
| GraphPropLayer_class
| GraphPropMatchingLayer_class.

Record GraphEmbeddingNet : Type := mkGraphEmbeddingNet {
  _encoder : GraphEncoder;
  _aggregator : GraphAggregator;
  net_node_state_dim : nat;
  net_edge_hidden_sizes : list nat;
  net_node_hidden_sizes : list nat;
  _n_prop_layers : Z;
  _share_prop_params : bool;
  net_edge_net_init_scale : R;
  net_node_update_type : string;
  net_use_reverse_direction : bool;
  net_reverse_dir_param_different : bool;
  net_layer_norm : bool;
  _prop_layers : list GraphPropLayer;
  _layer_class : layer_class;
  _similarity : string;
  _layer_outputs : option (list tensor)
}.

Definition GraphEmbeddingNet_init (encoder : GraphEncoder)
    (aggregator : GraphAggregator) (node_state_dim : nat)
    (edge_hidden_sizes node_hidden_sizes : list nat) (n_prop_layers : Z)
    (share_prop_params : bool) (edge_net_init_scale : R)
    (node_update_type : string)
    (use_reverse_direction reverse_dir_param_different layer_norm : bool)
  : GraphEmbeddingNet :=
  {| _encoder := encoder;
     _aggregator := aggregator;
     net_node_state_dim := node_state_dim;
     net_edge_hidden_sizes := edge_hidden_sizes;
     net_node_hidden_sizes := node_hidden_sizes;
     _n_prop_layers := n_prop_layers;
     _share_prop_params := share_prop_params;
     net_edge_net_init_scale := edge_net_init_scale;
     net_node_update_type := node_update_type;
     net_use_reverse_direction := use_reverse_direction;
     net_reverse_dir_param_different := reverse_dir_param_different;
     net_layer_norm := layer_norm;
     _prop_layers := [];
     _layer_class := GraphPropLayer_class;
     _similarity := "";
     _layer_outputs := None |}.

Definition with_layer_class (self : GraphEmbeddingNet) (similarity : string)
    (c : layer_class) : GraphEmbeddingNet :=
  {| _encoder := _encoder self;
     _aggregator := _aggregator self;
     net_node_state_dim := net_node_state_dim self;
     net_edge_hidden_sizes := net_edge_hidden_sizes self;
     net_node_hidden_sizes := net_node_hidden_sizes self;
     _n_prop_layers := _n_prop_layers self;
     _share_prop_params := _share_prop_params self;
     net_edge_net_init_scale := net_edge_net_init_scale self;
     net_node_update_type := net_node_update_type self;
     net_use_reverse_direction := net_use_reverse_direction self;
     net_reverse_dir_param_different := net_reverse_dir_param_different self;
     net_layer_norm := net_layer_norm self;
     _prop_layers := _prop_layers self;
     _layer_class := c;
     _similarity := similarity;
     _layer_outputs := _layer_outputs self |}.

Definition GraphMatchingNet_init (encoder : GraphEncoder)
    (aggregator : GraphAggregator) (node_state_dim : nat)
    (edge_hidden_sizes node_hidden_sizes : list nat) (n_prop_layers : Z)
    (share_prop_params : bool) (edge_net_init_scale : R)
    (node_update_type : string)
    (use_reverse_direction reverse_dir_param_different layer_norm : bool)
    (similarity : string) : GraphEmbeddingNet :=
  with_layer_class
    (GraphEmbeddingNet_init encoder aggregator node_state_dim edge_hidden_sizes
       node_hidden_sizes n_prop_layers share_prop_params edge_net_init_scale
       node_update_type use_reverse_direction reverse_dir_param_different
       layer_norm)
    similarity GraphPropMatchingLayer_class.

Definition _build_layer (self : GraphEmbeddingNet) (layer_id : nat) : GraphPropLayer :=
  GraphPropLayer_init (net_node_state_dim self) (net_edge_hidden_sizes self)
    (net_node_hidden_sizes self) (net_edge_net_init_scale self)
    (net_node_update_type self) (net_use_reverse_direction self)
    (net_reverse_dir_param_different self) (net_layer_norm self)
    ("graph-prop-" ++ str layer_id).

Definition _apply_layer (self : GraphEmbeddingNet) (layer : GraphPropLayer)
    (node_states : tensor) (from_idx to_idx graph_idx : list nat) (n_graphs : nat)
    (edge_features : option tensor) : result tensor :=
  match _layer_class self with
  | GraphPropLayer_class =>
      GraphPropLayer_build layer node_states from_idx to_idx edge_features None
  | GraphPropMatchingLayer_class =>
      GraphPropMatchingLayer_build layer node_states from_idx to_idx graph_idx
        n_graphs (_similarity self) edge_features None
  end.

(** The loop that builds the layers: [ids] is what is left of
    [range(self._n_prop_layers)], [layers] is [self._prop_layers] so far.
    [layers] is not empty when [self._prop_layers[0]] is read. *)
Fixpoint build_layers (self : GraphEmbeddingNet) (ids : list nat)
    (layers : list GraphPropLayer) : list GraphPropLayer :=
  match ids with
  | [] => layers
  | i :: ids' =>
      let layer :=
        if (i =? 0)%nat || negb (_share_prop_params self)
        then _build_layer self i
        else hd (_build_layer self i) layers in
      build_layers self ids' (layers ++ [layer])
  end.

(** The loop over [self._prop_layers]. *)
Fixpoint apply_layers (self : GraphEmbeddingNet) (layers : list GraphPropLayer)
    (node_states : tensor) (from_idx to_idx graph_idx : list nat) (n_graphs : nat)
    (edge_features : option tensor) (layer_outputs : list tensor)
  : result (tensor * list tensor) :=
  match layers with
  | [] => Ok (node_states, layer_outputs)
  | layer :: layers' =>
      node_states <- _apply_layer self layer node_states from_idx to_idx
                       graph_idx n_graphs edge_features ;;
      apply_layers self layers' node_states from_idx to_idx graph_idx n_graphs
        edge_features (layer_outputs ++ [node_states])
  end.

Definition set_layers (self : GraphEmbeddingNet) (layers : list GraphPropLayer)
    (outputs : option (list tensor)) : GraphEmbeddingNet :=
  {| _encoder := _encoder self;
     _aggregator := _aggregator self;
     net_node_state_dim := net_node_state_dim self;
     net_edge_hidden_sizes := net_edge_hidden_sizes self;
     net_node_hidden_sizes := net_node_hidden_sizes self;
     _n_prop_layers := _n_prop_layers self;
     _share_prop_params := _share_prop_params self;
     net_edge_net_init_scale := net_edge_net_init_scale self;
     net_node_update_type := net_node_update_type self;
     net_use_reverse_direction := net_use_reverse_direction self;
     net_reverse_dir_param_different := net_reverse_dir_param_different self;
     net_layer_norm := net_layer_norm self;
     _prop_layers := layers;
     _layer_class := _layer_class self;
     _similarity := _similarity self;
     _layer_outputs := outputs |}.

(** A forward pass: the object after it, and the graph representations. *)
Definition GraphEmbeddingNet_build (self : GraphEmbeddingNet)
    (node_features : tensor) (edge_features : option tensor)
    (from_idx to_idx graph_idx : list nat) (n_graphs : nat)
  : result (GraphEmbeddingNet * tensor) :=
  let layers :=
    if (Z.of_nat (length (_prop_layers self)) <? _n_prop_layers self)%Z
    then build_layers self (seq 0 (Z.to_nat (_n_prop_layers self)))
                      (_prop_layers self)
    else _prop_layers self in
  let '(node_features, edge_features) :=
    GraphEncoder_build (_encoder self) node_features edge_features in
  let node_states := node_features in
  let layer_outputs := [node_states] in
  r <- apply_layers self layers node_states from_idx to_idx graph_idx n_graphs
         edge_features layer_outputs ;;
  let '(node_states, layer_outputs) := r in
  Ok (set_layers self layers (Some layer_outputs),
      GraphAggregator_build (_aggregator self) node_states graph_idx n_graphs).

Definition reset_n_prop_layers (self : GraphEmbeddingNet) (n_prop_layers : Z)
  : result GraphEmbeddingNet :=
  Ok {| _encoder := _encoder self;
        _aggregator := _aggregator self;
        net_node_state_dim := net_node_state_dim self;
        net_edge_hidden_sizes := net_edge_hidden_sizes self;
        net_node_hidden_sizes := net_node_hidden_sizes self;
        _n_prop_layers := n_prop_layers;
        _share_prop_params := _share_prop_params self;
        net_edge_net_init_scale := net_edge_net_init_scale self;
        net_node_update_type := net_node_update_type self;
        net_use_reverse_direction := net_use_reverse_direction self;
        net_reverse_dir_param_different := net_reverse_dir_param_different self;
        net_layer_norm := net_layer_norm self;
        _prop_layers := _prop_layers self;
        _layer_class := _layer_class self;
        _similarity := _similarity self;
        _layer_outputs := _layer_outputs self |}.

Definition get_layer_outputs (self : GraphEmbeddingNet) : result (list tensor) :=
  match _layer_outputs self with
  | Some outputs => Ok outputs
  | None => Raise (ValueError "No layer outputs available.")
  end.

(** *** Configuration and model construction *)

Record encoder_config : Type := mkEncoderConfig {
  cfg_enc_node_hidden_sizes : option (list nat);
  cfg_enc_edge_hidden_sizes : option (list nat)
}.

Record aggregator_config : Type := mkAggregatorConfig {
  cfg_agg_node_hidden_sizes : list nat;
  cfg_graph_transform_sizes : option (list nat);
  cfg_gated : bool;
  cfg_aggregation_type : string
}.

Record net_config : Type := mkNetConfig {
  cfg_node_state_dim : nat;
  cfg_edge_hidden_sizes : list nat;
  cfg_node_hidden_sizes : list nat;
  cfg_n_prop_layers : Z;
  cfg_share_prop_params : bool;
  cfg_edge_net_init_scale : R;
  cfg_node_update_type : string;
  cfg_use_reverse_direction : bool;
  cfg_reverse_dir_param_different : bool;
  cfg_layer_norm : bool;
  cfg_similarity : string
}.

Record training_config : Type := mkTrainingConfig {
  cfg_batch_size : nat;
  cfg_mode : string;
  cfg_loss : string;
  cfg_margin : R
}.

Record config : Type := mkConfig {
  cfg_encoder : encoder_config;
  cfg_aggregator : aggregator_config;
  cfg_graph_embedding_net : net_config;
  cfg_graph_matching_net : net_config;
  cfg_model_type : string;
  cfg_training : training_config
}.

Definition get_default_config : config :=
  let node_state_dim := 32%nat in
  let graph_rep_dim := 128%nat in
  let graph_embedding_net_config :=
    {| cfg_node_state_dim := node_state_dim;
       cfg_edge_hidden_sizes := [(node_state_dim * 2)%nat; (node_state_dim * 2)%nat];
       cfg_node_hidden_sizes := [(node_state_dim * 2)%nat];
       cfg_n_prop_layers := 5;
       cfg_share_prop_params := true;
       cfg_edge_net_init_scale := 0.1;
       cfg_node_update_type := "gru";
       cfg_use_reverse_direction := true;
       cfg_reverse_dir_param_different := false;
       cfg_layer_norm := false;
       cfg_similarity := "dotproduct" |} in
  {| cfg_encoder :=
       {| cfg_enc_node_hidden_sizes := Some [node_state_dim];
          cfg_enc_edge_hidden_sizes := None |};
     cfg_aggregator :=
       {| cfg_agg_node_hidden_sizes := [graph_rep_dim];
          cfg_graph_transform_sizes := Some [graph_rep_dim];
          cfg_gated := true;
          cfg_aggregation_type := "sum" |};
     cfg_graph_embedding_net := graph_embedding_net_config;
     cfg_graph_matching_net := graph_embedding_net_config;
     cfg_model_type := "matching";
     cfg_training :=
       {| cfg_batch_size := 20; cfg_mode := "pair"; cfg_loss := "margin";
          cfg_margin := 1.0 |} |}.

(** The head of [build_model]: the encoder, the aggregator and the model
    are constructed and the number of graphs in a training batch is fixed;
    the rest of the function wires placeholders, loss and optimizer. *)
Definition build_model (config : config) : result (GraphEmbeddingNet * nat) :=
  let encoder :=
    GraphEncoder_init (cfg_enc_node_hidden_sizes (cfg_encoder config))
                      (cfg_enc_edge_hidden_sizes (cfg_encoder config)) in
  aggregator <-
    GraphAggregator_init (cfg_agg_node_hidden_sizes (cfg_aggregator config))
      (cfg_graph_transform_sizes (cfg_aggregator config))
      (cfg_gated (cfg_aggregator config))
      (cfg_aggregation_type (cfg_aggregator config)) ;;
  model <-
    (if String.eqb (cfg_model_type config) "embedding" then
       let c := cfg_graph_embedding_net config in
       Ok (GraphEmbeddingNet_init encoder aggregator (cfg_node_state_dim c)
             (cfg_edge_hidden_sizes c) (cfg_node_hidden_sizes c)
             (cfg_n_prop_layers c) (cfg_share_prop_params c)
             (cfg_edge_net_init_scale c) (cfg_node_update_type c)
             (cfg_use_reverse_direction c) (cfg_reverse_dir_param_different c)
             (cfg_layer_norm c))
     else if String.eqb (cfg_model_type config) "matching" then
       let c := cfg_graph_matching_net config in
       Ok (GraphMatchingNet_init encoder aggregator (cfg_node_state_dim c)
             (cfg_edge_hidden_sizes c) (cfg_node_hidden_sizes c)
             (cfg_n_prop_layers c) (cfg_share_prop_params c)
             (cfg_edge_net_init_scale c) (cfg_node_update_type c)
             (cfg_use_reverse_direction c) (cfg_reverse_dir_param_different c)
             (cfg_layer_norm c) (cfg_similarity c))
     else Raise (ValueError ("Unknown model type: " ++ cfg_model_type config))) ;;
  let training_n_graphs_in_batch := cfg_batch_size (cfg_training config) in
  if String.eqb (cfg_mode (cfg_training config)) "pair" then
    Ok (model, (training_n_graphs_in_batch * 2)%nat)
  else if String.eqb (cfg_mode (cfg_training config)) "triplet" then
    Ok (model, (training_n_graphs_in_batch * 4)%nat)
  else Raise (ValueError ("Unknown training mode: " ++ cfg_mode (cfg_training config))).

End Model.

(** ** Evaluation and visualisation helpers *)

(** [v > 0], as the boolean tensor entry of [x > 0]. *)
Definition is_positive (v : R) : bool :=
  if Rgt_dec v 0 then true else false.

Definition exact_hamming_similarity (x y : tensor) : vec :=
  let match_ :=
    map2 (map2 (fun a b =>
                  if Bool.eqb (is_positive a) (is_positive b) then 1 else 0))
         x y in
  tf.reduce_mean match_.

Definition compute_similarity (config : config) (x y : tensor) : result vec :=
  if String.eqb (cfg_loss (cfg_training config)) "margin" then
    Ok (map Ropp (euclidean_distance x y))
  else if String.eqb (cfg_loss (cfg_training config)) "hamming" then
    Ok (exact_hamming_similarity x y)
  else Raise (ValueError ("Unknown loss type " ++ cfg_loss (cfg_training config))).

(** [tf.reshape(t, [-1, width])]: the entries of [t] in row-major order, cut
    into rows of [width] entries; TensorFlow rejects the reshape when the
    entries do not fill whole rows. *)
Fixpoint rows_of (n width : nat) (entries : vec) : tensor :=
  match n with
  | O => []
  | S n' => firstn width entries :: rows_of n' width (skipn width entries)
  end.

Definition reshape (width : nat) (t : tensor) : option tensor :=
  let entries := concat t in
  if (width =? 0)%nat then None
  else if (length entries mod width =? 0)%nat
       then Some (rows_of (length entries / width) width entries)
       else None.

(** [tf.split(t, n_splits, axis=-1)] of a tensor with [n_splits * size]
    columns. *)
Definition split_last (size n_splits : nat) (t : tensor) : list tensor :=
  map (fun j => map (fun r => firstn size (skipn (j * size) r)) t)
      (seq 0 n_splits).

(** [feature_dim] is the static last dimension of the tensor [t]. *)
Definition reshape_and_split_tensor (feature_dim : nat) (t : tensor)
    (n_splits : nat) : option (list tensor) :=
  match reshape (feature_dim * n_splits) t with
  | Some reshaped => Some (split_last feature_dim n_splits reshaped)
  | None => None
  end.

(** The outcome of a function guarded by an [assert]. *)
Inductive asserted (A : Type) : Type :=
| Passed (a : A)
| AssertionError.

Arguments Passed {A} a.
Arguments AssertionError {A}.

Definition build_matchings (layer_outputs : list tensor) (graph_idx : list nat)
    (n_graphs : nat) (sim : tensor -> tensor -> tensor)
  : asserted (list (list (tensor * tensor))) :=
  if negb (n_graphs mod 2 =? 0)%nat then AssertionError
  else
    Passed
      (map (fun h =>
              let partitions := tf.dynamic_partition h graph_idx n_graphs in
              map (fun i =>
                     let x := nth i partitions [] in
                     let y := nth (i + 1) partitions [] in
                     let a := sim x y in
                     let a_x := tf.softmax1 a in
                     let a_y := tf.softmax0 (length y) a in
                     (a_x, a_y))
                  (range2 n_graphs))
           layer_outputs).

(** ** Datasets *)

(** A networkx graph as [_pack_batch] reads it: the nodes are
    [0 .. number_of_nodes - 1] and [edges] lists every edge once, as
    [g.edges()] does.  Node counts stay far below [2^31], so the [int32]
    index arithmetic is exact. *)
Record nx_graph : Type := mk_nx_graph {
  number_of_nodes : nat;
  edges : list (nat * nat)
}.

Definition number_of_edges (g : nx_graph) : nat := length (edges g).

Record GraphData : Type := mkGraphData {
  from_idx : list nat;
  to_idx : list nat;
  node_features : tensor;
  edge_features : tensor;
  graph_idx : list nat;
  n_graphs : nat
}.

(** [np.concatenate(arrays, axis=0)] of a list of arrays *)
Definition np_concatenate {A : Type} (arrays : list (list A))
  : result (list A) :=
  match arrays with
  | [] => Raise (ValueError "need at least one array to concatenate")
  | _ => Ok (concat arrays)
  end.

(** [np.ones((n, m))] *)
Definition np_ones (n m : nat) : tensor := repeat (repeat 1 m) n.

(** The loop of [_pack_batch] over [enumerate(graphs)], from index [i] on.
    [np.array(g.edges())] of a graph without edges has one dimension, and
    [edges[:, 0]] raises an [IndexError] on it. *)
Fixpoint _pack_batch_loop (graphs : list nx_graph) (i : nat)
    (from_idx to_idx graph_idx : list (list nat))
    (n_total_nodes n_total_edges : nat)
  : result (list (list nat) * list (list nat) * list (list nat) * nat * nat) :=
  match graphs with
  | [] => Ok (from_idx, to_idx, graph_idx, n_total_nodes, n_total_edges)
  | g :: graphs' =>
      let n_nodes := number_of_nodes g in
      let n_edges := number_of_edges g in
      match edges g with
      | [] => Raise (IndexError "too many indices for array")
      | _ =>
          _pack_batch_loop graphs' (S i)
            (from_idx ++ [map (fun e => (fst e + n_total_nodes)%nat) (edges g)])
            (to_idx ++ [map (fun e => (snd e + n_total_nodes)%nat) (edges g)])
            (graph_idx ++ [repeat i n_nodes])
            (n_total_nodes + n_nodes)%nat (n_total_edges + n_edges)%nat
      end
  end.

(** [graphs] is the list of pairs or of 4-tuples of a batch, each tuple as
    the list of its graphs; [tf.nest.flatten] concatenates them. *)
Definition _pack_batch (graphs : list (list nx_graph)) : result GraphData :=
  let graphs := concat graphs in
  st <- _pack_batch_loop graphs 0 [] [] [] 0 0 ;;
  let '(from_idx, to_idx, graph_idx, n_total_nodes, n_total_edges) := st in
  from_idx' <- np_concatenate from_idx ;;
  to_idx' <- np_concatenate to_idx ;;
  graph_idx' <- np_concatenate graph_idx ;;
  Ok {| from_idx := from_idx';
        to_idx := to_idx';
        node_features :=
          map2 (@app R) (np_ones n_total_nodes 1) (np_ones n_total_nodes 1);
        edge_features :=
          map2 (@app R) (np_ones n_total_edges 1) (np_ones n_total_edges 1);
        graph_idx := graph_idx';
        n_graphs := length graphs |}.

(** What the loop appends for the graphs [gs], the first of which has the
    index [i] and the node offset [off]. *)
Fixpoint shifted_endpoints (sel : nat * nat -> nat) (gs : list nx_graph)
    (off : nat) : list (list nat) :=
  match gs with
  | [] => []
  | g :: gs' =>
      map (fun e => (sel e + off)%nat) (edges g)
      :: shifted_endpoints sel gs' (off + number_of_nodes g)
  end.

Fixpoint graph_ids (gs : list nx_graph) (i : nat) : list (list nat) :=
  match gs with
  | [] => []
  | g :: gs' => repeat i (number_of_nodes g) :: graph_ids gs' (S i)
  end.

(** A generator run to its end: the values it yields, closed by the end of
    the iteration or by the exception that escapes it; [OutOfFuel] marks a
    run cut short by the bound on the number of loop iterations. *)
Inductive generated (A : Type) : Type :=
| StopIteration
| Yield (a : A) (rest : generated A)
| Raised (e : exn)
| OutOfFuel.

Arguments StopIteration {A}.
Arguments Yield {A} a rest.
Arguments Raised {A} e.
Arguments OutOfFuel {A}.

(** [l[start:stop]] for [0 <= start <= stop] *)
Definition slice {A : Type} (l : list A) (start stop : nat) : list A :=
  firstn (stop - start) (skipn start l).

(** The batching loop of [FixedGraphEditDistanceDataset.pairs], from the
    position [ptr] on; [_pairs] and [_labels] are the fixed pairs and labels
    of the dataset. *)
Fixpoint pairs_loop (fuel : nat) (_pairs : list (nx_graph * nx_graph))
    (_labels : list Z) (batch_size ptr : nat)
  : generated (GraphData * list Z) :=
  match fuel with
  | O => OutOfFuel
  | S fuel' =>
      if (ptr + batch_size <=? length _pairs)%nat then
        let batch_graphs := slice _pairs ptr (ptr + batch_size) in
        match _pack_batch (map (fun p => [fst p; snd p]) batch_graphs) with
        | Raise e => Raised e
        | Ok packed_batch =>
            Yield (packed_batch, slice _labels ptr (ptr + batch_size))
                  (pairs_loop fuel' _pairs _labels batch_size
                     (ptr + batch_size))
        end
      else StopIteration
  end.

Definition FixedGraphEditDistanceDataset_pairs (fuel : nat)
    (_pairs : list (nx_graph * nx_graph)) (_labels : list Z)
    (batch_size : nat) : generated (GraphData * list Z) :=
  pairs_loop fuel _pairs _labels batch_size 0.

(** The test dataset walks through its graphs in order.  [kg] is the type
    of the stored graphs, [convert_to_nx] the conversion of [GraphGen], and
    the position [self.index] is threaded through the calls. *)
Module TestKnoweldgeGraphEditDistanceDataset.
Section Dataset.

Variables kg G : Type.
Variable convert_to_nx : kg -> G.

Definition _get_graph (graphs : list kg) (index : nat) : result (G * nat) :=
  match nth_error graphs index with
  | None => Raise (IndexError "list index out of range")
  | Some g_random =>
      let index := (index + 1)%nat in
      let index := if (index =? length graphs)%nat then 0%nat else index in
      Ok (convert_to_nx g_random, index)
  end.

Definition _get_pair (graphs : list kg) (positive : bool) (index : nat)
  : result ((G * G) * nat) :=
  r <- _get_graph graphs index ;;
  let '(g1, index) := r in
  r <- _get_graph graphs index ;;
  let '(g2, index) := r in
  Ok ((g1, g2), index).

(** The loop of [pairs] that fills [pairs] and [labels], with [n]
    iterations left. *)
Fixpoint generate_pairs (graphs : list kg) (n : nat) (positive : bool)
    (index : nat) (pairs : list (G * G)) (labels : list Z)
  : result (list (G * G) * list Z * nat) :=
  match n with
  | O => Ok (pairs, labels, index)
  | S n' =>
      r <- _get_pair graphs positive index ;;
      let '(p, index) := r in
      generate_pairs graphs n' (negb positive) index (pairs ++ [p])
        (labels ++ [if positive then 1%Z else (-1)%Z])
  end.

(** The attributes of a test dataset object. *)
Record t : Type := mk {
  graphs : list kg;
  _k_pos : nat;
  _k_neg : nat;
  _permute : bool;
  _dataset_size : nat;
  _seed : nat;
  index : nat
}.

Definition __init__ (graphs : list kg) (dataset_size : nat) (permute : bool)
    (seed : nat) : t :=
  {| graphs := graphs;
     _k_pos := 0;
     _k_neg := 0;
     _permute := permute;
     _dataset_size := dataset_size;
     _seed := seed;
     index := 0 |}.


End Dataset.
End TestKnoweldgeGraphEditDistanceDataset.

Module KnowledgeGraphEditDistanceDataset.

Record t (kg : Type) : Type := mk {
  graphs : list kg;
  _k_pos : nat;
  _k_neg : nat;
  _permute : bool
}.

Arguments mk {kg}.
Arguments graphs {kg}.
Arguments _k_pos {kg}.
Arguments _k_neg {kg}.
Arguments _permute {kg}.

Definition __init__ {kg : Type} (graphs : list kg)
    (n_changes_positive n_changes_negative : nat) (permute : bool) : t kg :=
  {| graphs := graphs;
     _k_pos := n_changes_positive;
     _k_neg := n_changes_negative;
     _permute := permute |}.

End KnowledgeGraphEditDistanceDataset.

Module FixedKnoweldgeGraphEditDistanceDataset.

Record t (kg : Type) : Type := mk {
  graphs : list kg;
  _k_pos : nat;
  _k_neg : nat;
  _permute : bool;
  _dataset_size : nat;
  _seed : nat
}.

Arguments mk {kg}.
Arguments graphs {kg}.
Arguments _k_pos {kg}.
Arguments _k_neg {kg}.
Arguments _permute {kg}.
Arguments _dataset_size {kg}.
Arguments _seed {kg}.

Definition __init__ {kg : Type} (graphs : list kg)
    (n_changes_positive n_changes_negative dataset_size : nat)
    (permute : bool) (seed : nat) : t kg :=
  {| graphs := graphs;
     _k_pos := n_changes_positive;
     _k_neg := n_changes_negative;
     _permute := permute;
     _dataset_size := dataset_size;
     _seed := seed |}.

End FixedKnoweldgeGraphEditDistanceDataset.

(** The entry [data] of the configuration.  [train] adds the keys
    [n_changes_positive] and [n_changes_negative] next to [problem]. *)
Record dataset_params : Type := mk_dataset_params {
  n_nodes_range : nat * nat;
  p_edge_range : R * R;
  params_n_changes_positive : nat;
  params_n_changes_negative : nat;
  validation_dataset_size : nat
}.

Record data_config : Type := mk_data_config {
  problem : string;
  cfg_dataset_params : dataset_params;
  data_n_changes_positive : option nat;
  data_n_changes_negative : option nat
}.

(** [get_default_config()['data']] *)
Definition default_data_config : data_config :=
  {| problem := "graph_edit_distance";
     cfg_dataset_params :=
       {| n_nodes_range := (20, 20)%nat;
          p_edge_range := (0.2, 0.2);
          params_n_changes_positive := 1;
          params_n_changes_negative := 10;
          validation_dataset_size := 1000 |};
     data_n_changes_positive := None;
     data_n_changes_negative := None |}.

(** The embedder is only handed on to the datasets, which pass it to the
    graph conversion and to the packing of the node features.  Defaults of
    the constructors: no permutation, seed 1234. *)
Definition build_datasets {kg : Type} (data : data_config)
    (graphs test_graph_pairs : list kg)
  : result (KnowledgeGraphEditDistanceDataset.t kg
            * FixedKnoweldgeGraphEditDistanceDataset.t kg
            * TestKnoweldgeGraphEditDistanceDataset.t kg) :=
  if String.eqb (problem data) "graph_edit_distance" then
    let n_changes_positive := 1%nat in
    let n_changes_negative := 2%nat in
    let dataset_params := cfg_dataset_params data in
    let validation_dataset_size := validation_dataset_size dataset_params in
    let training_set :=
      KnowledgeGraphEditDistanceDataset.__init__ graphs n_changes_positive
        n_changes_negative true in
    let validation_set :=
      FixedKnoweldgeGraphEditDistanceDataset.__init__ graphs
        n_changes_positive n_changes_negative validation_dataset_size false
        1234 in
    let test_set :=
      TestKnoweldgeGraphEditDistanceDataset.__init__ kg test_graph_pairs
        (length test_graph_pairs / 2) false 1234 in
    Ok (training_set, validation_set, test_set)
  else Raise (ValueError ("Unknown problem type: " ++ problem data)).

(** The head of [train]: the configuration is set up from the arguments and
    the datasets are built from it. *)
Definition train_datasets {kg : Type} (graphs test_graph_pairs : list kg)
    (iterations min_changes max_changes : nat) :=
  let data := default_data_config in
  let data :=
    {| problem := problem data;
       cfg_dataset_params := cfg_dataset_params data;
       data_n_changes_positive := Some min_changes;
       data_n_changes_negative := data_n_changes_negative data |} in
  let data :=
    {| problem := problem data;
       cfg_dataset_params := cfg_dataset_params data;
       data_n_changes_positive := data_n_changes_positive data;
       data_n_changes_negative := Some max_changes |} in
  build_datasets data graphs test_graph_pairs.

(** ** Example stores and networks *)

(** Every network is the identity on rows (a linear layer with the unit
    matrix and no bias); the GRU core keeps the state. *)
Definition identity_store : variable_store :=
  {| node_feature_mlp := fun v => v;
     edge_feature_mlp := fun v => v;
     message_mlp := fun _ v => v;
     reverse_message_mlp := fun _ v => v;
     node_mlp := fun _ v => v;
     gru := fun _ _ h => h;
     message_layer_norm := fun _ v => v;
     node_layer_norm := fun _ v => v;
     node_state_g_mlp := fun v => v;
     graph_transform_mlp := fun v => v |}.

(** [snt.LayerNorm] on one row, with scale [gamma] and offset [beta]: the
    row is centred, divided by its standard deviation, scaled and shifted. *)
Definition LayerNorm (gamma beta : vec) (x : vec) : vec :=
  let n := INR (length x) in
  let mean := Rsum x / n in
  let var := Rsum (map (fun v => (v - mean) ^ 2) x) / n in
  tf.vadd (tf.vmul (map (fun v => (v - mean) / sqrt (var + 1e-5)) x) gamma) beta.

(** The identity networks, with layer normalisations of scale and offset 1
    on rows of one entry. *)
Definition layer_norm_store : variable_store :=
  {| node_feature_mlp := fun v => v;
     edge_feature_mlp := fun v => v;
     message_mlp := fun _ v => v;
     reverse_message_mlp := fun _ v => v;
     node_mlp := fun _ v => v;
     gru := fun _ _ h => h;
     message_layer_norm := fun _ => LayerNorm [1] [1];
     node_layer_norm := fun _ => LayerNorm [1] [1];
     node_state_g_mlp := fun v => v;
     graph_transform_mlp := fun v => v |}.

(** Networks with outputs of the sizes of the default configuration and
    constant values (zero weights, constant biases): node encodings and
    node states of 32 entries, messages of 64, gated aggregator inputs of
    2 * 128 and graph vectors of 128; the GRU core keeps the state. *)
Definition sized_store : variable_store :=
  {| node_feature_mlp := fun _ => repeat 1 32;
     edge_feature_mlp := fun v => v;
     message_mlp := fun _ _ => repeat 0 64;
     reverse_message_mlp := fun _ _ => repeat 0 64;
     node_mlp := fun _ _ => repeat 0 32;
     gru := fun _ _ h => h;
     message_layer_norm := fun _ v => v;
     node_layer_norm := fun _ v => v;
     node_state_g_mlp := fun _ => repeat 1 256;
     graph_transform_mlp := fun _ => repeat 1 128 |}.

(** An embedding net of five propagation layers with parameters of their
    own, residual updates and a plain sum aggregator, before any forward
    pass. *)
Definition five_layer_net : GraphEmbeddingNet :=
  GraphEmbeddingNet_init (GraphEncoder_init None None)
    (mkGraphAggregator [1%nat] None 1 false "sum" tf.unsorted_segment_sum)
    1 [1%nat] [1%nat] 5 false 0.1 "residual" true true false.

(** ** The specification's formulas *)

(** The squared Euclidean distance of two rows, [|u - v|^2]. *)
Definition squared_distance (u v : vec) : R :=
  Rsum (map2 (fun a b => (a - b) ^ 2) u v).

(** The smooth Hamming similarity of two rows: the mean over the
    dimensions of [tanh(u_i) * tanh(v_i)]. *)
Definition hamming_similarity (u v : vec) : R :=
  Rsum (map2 (fun a b => tanh a * tanh b) u v)
  / INR (length (map2 (fun a b => tanh a * tanh b) u v)).

(** The share of dimensions on which two rows have the same sign. *)
Definition sign_agreement (u v : vec) : R :=
  Rsum (map2 (fun a b => if Bool.eqb (is_positive a) (is_positive b)
                         then 1 else 0) u v)
  / INR (length (map2 (fun a b => if Bool.eqb (is_positive a) (is_positive b)
                                  then 1 else 0) u v)).

(** The edge features of the edge list [es]: none, or one row per edge. *)
Definition features_of {E : Type} (f : option (E -> vec)) (es : list E)
  : option tensor :=
  option_map (fun f => map f es) f.

(** The losses of one example, as the specification writes them. *)
Definition margin_pair_loss (margin label d : R) : R :=
  Rmax 0 (margin - label * (1 - d)).

Definition hamming_pair_loss (label s : R) : R := (label - s) ^ 2 / 4.

Definition margin_triplet_loss (margin d_xy d_xz : R) : R :=
  Rmax 0 (margin + d_xy - d_xz).

Definition hamming_triplet_loss (s_xy s_xz : R) : R :=
  ((s_xy - 1) ^ 2 + (s_xz + 1) ^ 2) / 8.

(** The cross-graph attention of a pair, entry by entry.  [s] is the
    similarity matrix of the pair, [s[p,q] = sim(x_p, y_q)]. *)
Definition entry (s : tensor) (p q : nat) : R := nth q (nth p s []) 0.

(** [a_{p->q}]: the softmax of [s] over [q], among the [m] nodes of [y];
    [a_{q->p}]: the softmax of [s] over [p], among the [n] nodes of [x]. *)
Definition weight_x_to_y (s : tensor) (m p q : nat) : R :=
  exp (entry s p q) / Rsum (map (fun q' => exp (entry s p q')) (seq 0 m)).

Definition weight_y_to_x (s : tensor) (n p q : nat) : R :=
  exp (entry s p q) / Rsum (map (fun p' => exp (entry s p' q)) (seq 0 n)).

(** [attention_x_p = sum_q a_{p->q} y_q] and [attention_y_q = sum_p a_{q->p} x_p],
    as rows of [d] entries. *)
Definition attention_x_spec (d : nat) (s y : tensor) (p : nat) : vec :=
  map (fun j =>
         Rsum (map (fun q => weight_x_to_y s (length y) p q * entry y q j)
                   (seq 0 (length y))))
      (seq 0 d).

Definition attention_y_spec (d : nat) (s x : tensor) (q : nat) : vec :=
  map (fun j =>
         Rsum (map (fun p => weight_y_to_x s (length x) p q * entry x p j)
                   (seq 0 (length x))))
      (seq 0 d).

(** The number of rows of the graphs before graph [b] in a packed batch. *)
Definition rows_before (data : tensor) (block_idx : list nat) (b : nat) : nat :=
  length (tf.concat0 (map (tf.segment_rows data block_idx) (seq 0 b))).

(** ** Properties *)

(** *** Elementwise operators and sums *)

Lemma map2_length {A B C : Type} (f : A -> B -> C) (u : list A) (v : list B) :
  length (map2 f u v) = Nat.min (length u) (length v).
Proof.
  revert v; induction u as [|a u IH]; intros [|b v]; simpl; auto.
Qed.

Lemma map2_map_l {A A' B C : Type} (f : A' -> B -> C) (g : A -> A')
    (u : list A) (v : list B) :
  map2 f (map g u) v = map2 (fun a b => f (g a) b) u v.
Proof.
  revert v; induction u as [|a u IH]; intros [|b v]; simpl; auto.
  now rewrite IH.
Qed.

Lemma map2_map_r {A B B' C : Type} (f : A -> B' -> C) (g : B -> B')
    (u : list A) (v : list B) :
  map2 f u (map g v) = map2 (fun a b => f a (g b)) u v.
Proof.
  revert v; induction u as [|a u IH]; intros [|b v]; simpl; auto.
  now rewrite IH.
Qed.

Lemma map_map2 {A B C D : Type} (g : C -> D) (f : A -> B -> C)
    (u : list A) (v : list B) :
  map g (map2 f u v) = map2 (fun a b => g (f a b)) u v.
Proof.
  revert v; induction u as [|a u IH]; intros [|b v]; simpl; auto.
  now rewrite IH.
Qed.

Lemma map2_ext {A B C : Type} (f g : A -> B -> C) (u : list A) (v : list B) :
  (forall a b, f a b = g a b) -> map2 f u v = map2 g u v.
Proof.
  intros E; revert v; induction u as [|a u IH]; intros [|b v]; simpl; auto.
  now rewrite E, IH.
Qed.

Lemma map2_diag {A C : Type} (f : A -> A -> C) (u : list A) :
  map2 f u u = map (fun a => f a a) u.
Proof.
  induction u as [|a u IH]; simpl; auto. now rewrite IH.
Qed.

Lemma broadcast_row_same_length (op : R -> R -> R) (u v : vec) :
  length u = length v -> tf.broadcast_row op u v = map2 op u v.
Proof.
  destruct u as [|a [|a' u]], v as [|b [|b' v]]; simpl; try discriminate; auto.
Qed.

Lemma broadcast_row_scalar (op : R -> R -> R) (u : vec) (b : R) :
  tf.broadcast_row op u [b] = map (fun a => op a b) u.
Proof.
  destruct u as [|a [|a' u]]; simpl; auto.
Qed.

(** A matrix against a column: every row meets its own scalar. *)
Lemma broadcast_column (op : R -> R -> R) (a : tensor) (c : vec) :
  length a = length c ->
  tf.broadcast op a (map (fun v => [v]) c)
  = map2 (fun u v => map (fun e => op e v) u) a c.
Proof.
  intros L.
  assert (G : forall (a : tensor) (c : vec),
             map2 (tf.broadcast_row op) a (map (fun v => [v]) c)
             = map2 (fun u v => map (fun e => op e v) u) a c).
  { clear; induction a as [|u a IH]; intros [|v c]; simpl; auto.
    now rewrite broadcast_row_scalar, IH. }
  destruct a as [|u [|u' a]], c as [|v [|v' c]]; try discriminate; auto.
  - simpl. now rewrite broadcast_row_scalar.
  - unfold tf.broadcast. exact (G (u :: u' :: a) (v :: v' :: c)).
Qed.

(** A matrix against a row of the width of its rows. *)
Lemma broadcast_line (op : R -> R -> R) (a : tensor) (r : vec) :
  Forall (fun u => length u = length r) a ->
  tf.broadcast op a [r] = map (fun u => map2 op u r) a.
Proof.
  intros F.
  assert (G : map (fun u => tf.broadcast_row op u r) a
              = map (fun u => map2 op u r) a).
  { apply map_ext_in. intros u Hu. apply broadcast_row_same_length.
    rewrite Forall_forall in F. now apply F. }
  destruct a as [|u [|u' a]]; auto.
Qed.

(** The expansion of the square, on two rows of one length. *)
Lemma euclidean_expansion (u v : vec) :
  length u = length v ->
  2 * tf.dot u v - Rsum (tf.vmul u u) - Rsum (tf.vmul v v)
  = - squared_distance u v.
Proof.
  unfold tf.dot, tf.vmul, squared_distance.
  revert v; induction u as [|a u IH]; intros [|b v] L; simpl in *;
    try discriminate.
  - lra.
  - injection L as L. specialize (IH v L). lra.
Qed.

(** *** The Euclidean similarity *)

Lemma euclidean_similarity_entries (d : nat) (x y : tensor) :
  Forall (fun u => length u = d) x ->
  Forall (fun v => length v = d) y ->
  pairwise_euclidean_similarity x y
  = map (fun x_p => map (fun y_q => - squared_distance x_p y_q) y) x.
Proof.
  intros Fx Fy.
  unfold pairwise_euclidean_similarity, tf.matmul_nt, tf.reduce_sum, tf.mul.
  rewrite map2_diag, map2_diag, !map_map.
  rewrite <- (map_map (fun u => Rsum (tf.vmul u u)) (fun v => [v]) x).
  rewrite broadcast_column by now rewrite !length_map.
  rewrite map2_map_l, map2_map_r, map2_diag.
  rewrite broadcast_line.
  2:{ rewrite Forall_forall. intros u Hu.
      apply in_map_iff in Hu. destruct Hu as [x_p [<- _]].
      now rewrite !length_map. }
  rewrite map_map. apply map_ext_in. intros x_p Hx.
  rewrite !map_map, map2_map_l, map2_map_r, map2_diag.
  apply map_ext_in. intros y_q Hy.
  rewrite Forall_forall in Fx, Fy.
  apply euclidean_expansion. now rewrite (Fx _ Hx), (Fy _ Hy).
Qed.

(** C7: for matrices [x] and [y] whose rows all have [d] entries,
    [pairwise_euclidean_similarity] is the matrix of the negated squared
    Euclidean distances, [S[p,q] = - |x_p - y_q|^2]. *)
Theorem pairwise_euclidean_similarity_is_neg_sq_distance :
  forall (d : nat) (x y : tensor),
    Forall (fun u => length u = d) x ->
    Forall (fun v => length v = d) y ->
    pairwise_euclidean_similarity x y
    = map (fun x_p => map (fun y_q => - squared_distance x_p y_q) y) x.
Proof.
  intros d x y Fx Fy. now apply (euclidean_similarity_entries d).
Qed.

Lemma pairwise_euclidean_similarity_witness :
  Forall (fun u => length u = 2%nat) [[1; 2]] /\
  Forall (fun v => length v = 2%nat) [[0; 0]; [1; 1]] /\
  pairwise_euclidean_similarity [[1; 2]] [[0; 0]; [1; 1]]
  = map (fun x_p => map (fun y_q => - squared_distance x_p y_q) [[0; 0]; [1; 1]])
        [[1; 2]].
Proof.
  split; [repeat constructor | split; [repeat constructor |]].
  apply (pairwise_euclidean_similarity_is_neg_sq_distance 2);
    repeat constructor.
Defined.

(** *** The losses *)

Lemma euclidean_distance_rows (x y : tensor) :
  euclidean_distance x y = map2 squared_distance x y.
Proof.
  unfold euclidean_distance, tf.reduce_sum, tf.sub.
  rewrite !map_map2. apply map2_ext. intros u v.
  unfold squared_distance, tf.vsub. now rewrite map_map2.
Qed.

Lemma approximate_hamming_similarity_rows (x y : tensor) :
  approximate_hamming_similarity x y = map2 hamming_similarity x y.
Proof.
  unfold approximate_hamming_similarity, tf.reduce_mean, tf.mul.
  rewrite map2_map_l, map2_map_r, map_map2. apply map2_ext. intros u v.
  unfold hamming_similarity, tf.vmul. now rewrite map2_map_l, map2_map_r.
Qed.

(** C8: the margin loss of a pair is [max(0, margin - label * (1 - d))] with
    [d] the squared Euclidean distance; the Hamming loss of a pair is
    [(label - s)^2 / 4] and that of a triplet [((s1 - 1)^2 + (s2 + 1)^2) / 8]
    with [s] the smooth Hamming similarity; the margin loss of a triplet is
    [max(0, margin + d(x1, y) - d(x2, z))]. *)
Theorem losses_numeric_semantics :
  forall (x y x_1 x_2 z : tensor) (labels : list Z) (margin : R),
    pairwise_loss x y labels "margin" margin
    = Ok (map2 (fun l d => margin_pair_loss margin (IZR l) d)
               labels (map2 squared_distance x y))
    /\ pairwise_loss x y labels "hamming" margin
       = Ok (map2 (fun l s => hamming_pair_loss (IZR l) s)
                  labels (map2 hamming_similarity x y))
    /\ triplet_loss x_1 y x_2 z "margin" margin
       = Ok (map2 (margin_triplet_loss margin)
                  (map2 squared_distance x_1 y) (map2 squared_distance x_2 z))
    /\ triplet_loss x_1 y x_2 z "hamming" margin
       = Ok (map2 hamming_triplet_loss
                  (map2 hamming_similarity x_1 y) (map2 hamming_similarity x_2 z)).
Proof.
  intros. unfold pairwise_loss, triplet_loss. simpl.
  rewrite !euclidean_distance_rows, !approximate_hamming_similarity_rows.
  unfold tf.vmul, tf.vsub, tf.vadd.
  repeat split; f_equal.
  - rewrite map2_map_l, map2_map_r, !map_map2. apply map2_ext. intros l d.
    unfold margin_pair_loss, tf.relu. now rewrite Rmax_comm.
  - rewrite map2_map_l, map_map2. apply map2_ext. intros l s.
    unfold hamming_pair_loss. lra.
  - rewrite map2_map_l, map_map2. apply map2_ext. intros d1 d2.
    unfold margin_triplet_loss, tf.relu. now rewrite Rmax_comm.
  - rewrite map2_map_l, map2_map_r, map_map2. apply map2_ext. intros s1 s2.
    unfold hamming_triplet_loss. lra.
Qed.

(** *** The graph aggregator *)

Lemma segment_rows_absent (data : tensor) (ids : list nat) (g : nat) :
  ~ In g ids -> tf.segment_rows data ids g = [].
Proof.
  unfold tf.segment_rows.
  revert ids; induction data as [|r data IH]; intros [|i ids] H; simpl; auto.
  destruct (Nat.eqb_spec i g) as [->|Hne].
  - exfalso. apply H. now left.
  - apply IH. intros Hin. apply H. now right.
Qed.

Lemma nth_map_seq {A : Type} (f : nat -> A) (n g : nat) (d : A) :
  (g < n)%nat -> nth g (map f (seq 0 n)) d = f g.
Proof.
  intros H. rewrite (nth_indep _ d (f 0%nat)) by now rewrite length_map, length_seq.
  rewrite map_nth, seq_nth by assumption. reflexivity.
Qed.

Lemma float32_lowest_below_threshold : above_threshold float32_lowest = 0.
Proof.
  unfold above_threshold, float32_lowest.
  destruct (Rgt_dec _ _) as [H|H]; [lra | reflexivity].
Qed.

Lemma init_max_fields (hs : list nat) (ts : option (list nat)) (gated : bool)
    (self : GraphAggregator) :
  GraphAggregator_init hs ts gated "max" = Ok self ->
  _aggregation_type self = "max"%string
  /\ _aggregation_op self = tf.unsorted_segment_max.
Proof.
  unfold GraphAggregator_init. destruct (rev hs) as [|d l]; [discriminate|].
  simpl. intros E. injection E as <-. now split.
Qed.

(** C9: under the [max] aggregation, a graph index below [n_graphs] that
    tags no node gets the all-zeros vector of the graph state dimension as
    its graph state before the final transform. *)
Theorem max_aggregation_empty_graph_is_zero :
  forall (vs : variable_store) (hs : list nat) (ts : option (list nat))
         (gated : bool) (self : GraphAggregator)
         (node_states : tensor) (graph_idx : list nat) (n_graphs g : nat),
    GraphAggregator_init hs ts gated "max" = Ok self ->
    (g < n_graphs)%nat ->
    ~ In g graph_idx ->
    nth g (GraphAggregator_reduce vs self node_states graph_idx n_graphs) []
    = zeros (_graph_state_dim self).
Proof.
  intros vs hs ts gated self node_states graph_idx n_graphs g Hinit Hg Hno.
  destruct (init_max_fields _ _ _ _ Hinit) as [Ht Hop].
  unfold GraphAggregator_reduce. rewrite Ht, Hop. simpl.
  change (@nil R) with (map (fun v => v * above_threshold v) []) at 1.
  rewrite map_nth. unfold tf.unsorted_segment_max.
  rewrite nth_map_seq by assumption.
  rewrite segment_rows_absent by assumption. simpl.
  rewrite map_repeat, float32_lowest_below_threshold, Rmult_0_r.
  reflexivity.
Qed.

Lemma max_aggregation_empty_graph_witness :
  GraphAggregator_init [2%nat] None false "max"
  = Ok (mkGraphAggregator [2%nat] None 2 false "max" tf.unsorted_segment_max)
  /\ (1 < 2)%nat
  /\ ~ In 1%nat [0%nat; 0%nat]
  /\ nth 1 (GraphAggregator_reduce identity_store
              (mkGraphAggregator [2%nat] None 2 false "max" tf.unsorted_segment_max)
              [[1; 2]; [3; 4]] [0%nat; 0%nat] 2) []
     = zeros 2.
Proof.
  assert (Hno : ~ In 1%nat [0%nat; 0%nat]).
  { simpl. intros [H|[H|H]]; try discriminate; assumption. }
  split; [reflexivity | split; [lia | split; [exact Hno |]]].
  apply (max_aggregation_empty_graph_is_zero identity_store [2%nat] None false
           (mkGraphAggregator [2%nat] None 2 false "max" tf.unsorted_segment_max)
           [[1; 2]; [3; 4]] [0%nat; 0%nat] 2 1);
    [reflexivity | lia | exact Hno].
Defined.

Lemma above_threshold_zero (v : R) : ~ v > -1e5 -> v * above_threshold v = 0.
Proof.
  intros H. unfold above_threshold.
  destruct (Rgt_dec v (-1e5)); [contradiction | apply Rmult_0_r].
Qed.

Lemma nth_map_zero (f : R -> R) (l : vec) (j : nat) :
  f 0 = 0 -> nth j (map f l) 0 = f (nth j l 0).
Proof.
  intros H. rewrite <- (map_nth f l 0 j). now rewrite H.
Qed.

Lemma max_correction_entry (vs : variable_store) (hs : list nat)
    (ts : option (list nat)) (gated : bool) (self : GraphAggregator)
    (node_states : tensor) (graph_idx : list nat) (n_graphs g j : nat) :
  GraphAggregator_init hs ts gated "max" = Ok self ->
  ~ nth j (nth g (tf.unsorted_segment_max (_graph_state_dim self)
                    (GraphAggregator_node_states_g vs self node_states)
                    graph_idx n_graphs) []) 0 > -1e5 ->
  nth j (nth g (GraphAggregator_reduce vs self node_states graph_idx n_graphs) [])
      0 = 0.
Proof.
  intros Hinit Hv.
  destruct (init_max_fields _ _ _ _ Hinit) as [Ht Hop].
  unfold GraphAggregator_reduce. rewrite Ht, Hop. simpl.
  change (@nil R) with (map (fun v => v * above_threshold v) []) at 1.
  rewrite map_nth, nth_map_zero.
  - now apply above_threshold_zero.
  - apply Rmult_0_l.
Qed.

Lemma sigmoid_0 : tf.sigmoid 0 = / 2.
Proof.
  unfold tf.sigmoid. rewrite Ropp_0, exp_0. lra.
Qed.

(** A graph of one node whose gated value is [-200000]. *)
Lemma gated_max_example :
  tf.unsorted_segment_max 1
    (GraphAggregator_node_states_g identity_store
       (mkGraphAggregator [1%nat] None 1 true "max" tf.unsorted_segment_max)
       [[0; -400000]])
    [0%nat] 1
  = [[-200000]].
Proof.
  cbv [tf.unsorted_segment_max GraphAggregator_node_states_g identity_store
       node_state_g_mlp _gated _graph_state_dim map seq firstn skipn
       tf.segment_rows combine filter snd fst Nat.eqb fold_right tf.vmax tf.vmul
       map2 repeat].
  rewrite sigmoid_0. unfold float32_lowest. f_equal. f_equal.
  rewrite Rmax_left; lra.
Qed.

(** C10: under the [max] aggregation every component whose aggregated
    value is not strictly greater than [-1e5] is reported as [0], whatever
    the graph; and there is a graph with a node, of gated value [-200000],
    whose reported maximum is [0] and not that value. *)
Theorem max_correction_zeroes_legitimate_values :
  (forall (vs : variable_store) (hs : list nat) (ts : option (list nat))
          (gated : bool) (self : GraphAggregator)
          (node_states : tensor) (graph_idx : list nat) (n_graphs g j : nat),
      GraphAggregator_init hs ts gated "max" = Ok self ->
      ~ nth j (nth g (tf.unsorted_segment_max (_graph_state_dim self)
                        (GraphAggregator_node_states_g vs self node_states)
                        graph_idx n_graphs) []) 0 > -1e5 ->
      nth j (nth g (GraphAggregator_reduce vs self node_states graph_idx n_graphs) [])
          0 = 0)
  /\ (exists self : GraphAggregator,
        GraphAggregator_init [1%nat] None true "max" = Ok self
        /\ In 0%nat [0%nat]
        /\ tf.unsorted_segment_max (_graph_state_dim self)
             (GraphAggregator_node_states_g identity_store self [[0; -400000]])
             [0%nat] 1
           = [[-200000]]
        /\ GraphAggregator_reduce identity_store self [[0; -400000]] [0%nat] 1
           = [[0]]).
Proof.
  split.
  - intros. eapply max_correction_entry; eassumption.
  - exists (mkGraphAggregator [1%nat] None 1 true "max" tf.unsorted_segment_max).
    split; [reflexivity | split; [now left | split; [apply gated_max_example |]]].
    unfold GraphAggregator_reduce.
    cbv [_aggregation_op _aggregation_type _graph_state_dim].
    rewrite gated_max_example. simpl.
    rewrite above_threshold_zero by lra. reflexivity.
Qed.

Lemma max_correction_witness :
  GraphAggregator_init [1%nat] None true "max"
  = Ok (mkGraphAggregator [1%nat] None 1 true "max" tf.unsorted_segment_max)
  /\ ~ nth 0 (nth 0 (tf.unsorted_segment_max 1
                       (GraphAggregator_node_states_g identity_store
                          (mkGraphAggregator [1%nat] None 1 true "max"
                             tf.unsorted_segment_max)
                          [[0; -400000]])
                       [0%nat] 1) []) 0 > -1e5
  /\ nth 0 (nth 0 (GraphAggregator_reduce identity_store
                     (mkGraphAggregator [1%nat] None 1 true "max"
                        tf.unsorted_segment_max)
                     [[0; -400000]] [0%nat] 1) []) 0 = 0.
Proof.
  assert (H : ~ nth 0 (nth 0 (tf.unsorted_segment_max 1
                       (GraphAggregator_node_states_g identity_store
                          (mkGraphAggregator [1%nat] None 1 true "max"
                             tf.unsorted_segment_max)
                          [[0; -400000]])
                       [0%nat] 1) []) 0 > -1e5).
  { rewrite gated_max_example. simpl. lra. }
  split; [reflexivity | split; [exact H |]].
  apply (proj1 max_correction_zeroes_legitimate_values identity_store
           [1%nat] None true _ [[0; -400000]] [0%nat] 1%nat 0%nat 0%nat);
    [reflexivity | exact H].
Defined.

(** **** Invariance under the order of the nodes *)

Lemma filter_Permutation {A : Type} (f : A -> bool) (l l' : list A) :
  Permutation l l' -> Permutation (filter f l) (filter f l').
Proof.
  induction 1 as [|a l l' _ IH|a b l|l l' l'' _ IH1 _ IH2]; simpl.
  - constructor.
  - destruct (f a); [now constructor | assumption].
  - destruct (f a), (f b); try reflexivity. apply perm_swap.
  - now transitivity (filter f l').
Qed.

Lemma fold_right_Permutation {A B : Type} (f : A -> B -> B) (z : B)
    (l l' : list A) :
  (forall a b c, f a (f b c) = f b (f a c)) ->
  Permutation l l' -> fold_right f z l = fold_right f z l'.
Proof.
  intros Hswap. induction 1 as [|a l l' _ IH|a b l|l l' l'' _ IH1 _ IH2]; simpl.
  - reflexivity.
  - now rewrite IH.
  - apply Hswap.
  - now rewrite IH1.
Qed.

Lemma map2_swap (op : R -> R -> R) :
  (forall a b c, op a (op b c) = op b (op a c)) ->
  forall u v w : vec, map2 op u (map2 op v w) = map2 op v (map2 op u w).
Proof.
  intros Hswap.
  induction u as [|a u IH]; intros [|b v] [|c w]; simpl; auto.
  now rewrite Hswap, IH.
Qed.

Lemma vadd_swap (u v w : vec) :
  tf.vadd u (tf.vadd v w) = tf.vadd v (tf.vadd u w).
Proof. apply map2_swap. intros; lra. Qed.

Lemma vmax_swap (u v w : vec) :
  tf.vmax u (tf.vmax v w) = tf.vmax v (tf.vmax u w).
Proof.
  apply map2_swap. intros a b c.
  now rewrite !Rmax_assoc, (Rmax_comm a b).
Qed.

(** The rows of one segment, for nodes listed with their graph tag. *)
Lemma segment_rows_tagged (h : vec -> vec) (nodes : list (vec * nat)) (g : nat) :
  tf.segment_rows (map h (map fst nodes)) (map snd nodes) g
  = map h (map fst (filter (fun p => Nat.eqb (snd p) g) nodes)).
Proof.
  unfold tf.segment_rows.
  induction nodes as [|[r i] nodes IH]; simpl; auto.
  destruct (Nat.eqb i g); simpl; now rewrite IH.
Qed.

Lemma segment_rows_Permutation (h : vec -> vec) (nodes nodes' : list (vec * nat))
    (g : nat) :
  Permutation nodes nodes' ->
  Permutation (tf.segment_rows (map h (map fst nodes)) (map snd nodes) g)
              (tf.segment_rows (map h (map fst nodes')) (map snd nodes') g).
Proof.
  intros P. rewrite !segment_rows_tagged.
  now apply Permutation_map, Permutation_map, filter_Permutation.
Qed.

Lemma node_states_g_rowwise (vs : variable_store) (self : GraphAggregator) :
  exists h : vec -> vec,
    forall node_states, GraphAggregator_node_states_g vs self node_states
                        = map h node_states.
Proof.
  unfold GraphAggregator_node_states_g. destruct (_gated self).
  - eexists. intros. rewrite map_map. reflexivity.
  - eexists. intros. reflexivity.
Qed.

Lemma init_op_cases (hs : list nat) (ts : option (list nat)) (gated : bool)
    (aggregation_type : string) (self : GraphAggregator) :
  GraphAggregator_init hs ts gated aggregation_type = Ok self ->
  _aggregation_op self = tf.unsorted_segment_sum
  \/ _aggregation_op self = tf.unsorted_segment_mean
  \/ _aggregation_op self = tf.unsorted_segment_sqrt_n
  \/ _aggregation_op self = tf.unsorted_segment_max.
Proof.
  unfold GraphAggregator_init. destruct (rev hs) as [|d l]; [discriminate|].
  unfold AGGREGATION_TYPE, lookup.
  destruct (String.eqb "sum" aggregation_type);
    [intros [= <-]; auto|].
  destruct (String.eqb "mean" aggregation_type);
    [intros [= <-]; auto|].
  destruct (String.eqb "sqrt_n" aggregation_type);
    [intros [= <-]; auto|].
  destruct (String.eqb "max" aggregation_type);
    [intros [= <-]; simpl; auto | discriminate].
Qed.

Lemma segment_op_Permutation (op : segment_op) (d : nat) (h : vec -> vec)
    (nodes nodes' : list (vec * nat)) (n : nat) :
  op = tf.unsorted_segment_sum \/ op = tf.unsorted_segment_mean
  \/ op = tf.unsorted_segment_sqrt_n \/ op = tf.unsorted_segment_max ->
  Permutation nodes nodes' ->
  op d (map h (map fst nodes)) (map snd nodes) n
  = op d (map h (map fst nodes')) (map snd nodes') n.
Proof.
  intros Hop P.
  pose proof (fun g => segment_rows_Permutation h nodes nodes' g P) as PS.
  assert (Hsum : forall g,
             fold_right tf.vadd (zeros d)
               (tf.segment_rows (map h (map fst nodes)) (map snd nodes) g)
             = fold_right tf.vadd (zeros d)
                 (tf.segment_rows (map h (map fst nodes')) (map snd nodes') g)).
  { intros g. apply fold_right_Permutation; [apply vadd_swap | apply PS]. }
  assert (Hn : forall g,
             tf.segment_n (map h (map fst nodes)) (map snd nodes) g
             = tf.segment_n (map h (map fst nodes')) (map snd nodes') g).
  { intros g. unfold tf.segment_n. now rewrite (Permutation_length (PS g)). }
  destruct Hop as [-> | [-> | [-> | ->]]].
  - unfold tf.unsorted_segment_sum. apply map_ext. intros g. apply Hsum.
  - unfold tf.unsorted_segment_mean. apply map_ext. intros g.
    now rewrite Hsum, Hn.
  - unfold tf.unsorted_segment_sqrt_n. apply map_ext. intros g.
    now rewrite Hsum, Hn.
  - unfold tf.unsorted_segment_max. apply map_ext. intros g.
    apply fold_right_Permutation; [apply vmax_swap | apply PS].
Qed.

(** C5: the graph aggregator, plain or gated and with any of its four
    reductions, returns the same graph vectors when the nodes, each with
    its graph tag, are listed in another order. *)
Theorem GraphAggregator_permutation_invariant :
  forall (vs : variable_store) (hs : list nat) (ts : option (list nat))
         (gated : bool) (aggregation_type : string) (self : GraphAggregator)
         (nodes nodes' : list (vec * nat)) (n_graphs : nat),
    GraphAggregator_init hs ts gated aggregation_type = Ok self ->
    Permutation nodes nodes' ->
    GraphAggregator_build vs self (map fst nodes) (map snd nodes) n_graphs
    = GraphAggregator_build vs self (map fst nodes') (map snd nodes') n_graphs.
Proof.
  intros vs hs ts gated aggregation_type self nodes nodes' n_graphs Hinit P.
  unfold GraphAggregator_build, GraphAggregator_reduce.
  destruct (node_states_g_rowwise vs self) as [h Hh].
  rewrite !Hh.
  rewrite (segment_op_Permutation (_aggregation_op self) (_graph_state_dim self)
             h nodes nodes' n_graphs (init_op_cases _ _ _ _ _ Hinit) P).
  reflexivity.
Qed.

Lemma GraphAggregator_permutation_witness :
  GraphAggregator_init [1%nat] (Some [1%nat]) true "mean"
  = Ok (mkGraphAggregator [1%nat] (Some [1%nat]) 1 true "mean"
          tf.unsorted_segment_mean)
  /\ Permutation [([1; 2], 0%nat); ([3; 4], 1%nat); ([5; 6], 0%nat)]
                 [([5; 6], 0%nat); ([1; 2], 0%nat); ([3; 4], 1%nat)]
  /\ GraphAggregator_build identity_store
       (mkGraphAggregator [1%nat] (Some [1%nat]) 1 true "mean"
          tf.unsorted_segment_mean)
       [[1; 2]; [3; 4]; [5; 6]] [0%nat; 1%nat; 0%nat] 2
     = GraphAggregator_build identity_store
         (mkGraphAggregator [1%nat] (Some [1%nat]) 1 true "mean"
            tf.unsorted_segment_mean)
         [[5; 6]; [1; 2]; [3; 4]] [0%nat; 0%nat; 1%nat] 2.
Proof.
  assert (P : Permutation [([1; 2], 0%nat); ([3; 4], 1%nat); ([5; 6], 0%nat)]
                          [([5; 6], 0%nat); ([1; 2], 0%nat); ([3; 4], 1%nat)]).
  { apply Permutation_sym.
    apply (Permutation_cons_app [([1; 2], 0%nat); ([3; 4], 1%nat)] []).
    rewrite app_nil_r. apply Permutation_refl. }
  split; [reflexivity | split; [exact P |]].
  apply (GraphAggregator_permutation_invariant identity_store [1%nat]
           (Some [1%nat]) true "mean" _ _ _ 2%nat eq_refl P).
Defined.

(** *** The message passing layer *)

Lemma nth_map2 {A B C : Type} (f : A -> B -> C) (u : list A) (v : list B)
    (i : nat) (da : A) (db : B) (dc : C) :
  (i < length u)%nat -> (i < length v)%nat ->
  nth i (map2 f u v) dc = f (nth i u da) (nth i v db).
Proof.
  revert u v; induction i as [|i IH]; intros [|a u] [|b v] Hu Hv; simpl in *;
    try lia; auto.
  apply IH; lia.
Qed.

Lemma vadd_zeros (d : nat) : tf.vadd (zeros d) (zeros d) = zeros d.
Proof.
  unfold tf.vadd, zeros. induction d as [|d IH]; simpl; auto.
  rewrite IH. f_equal. lra.
Qed.

Lemma unsorted_segment_sum_length (d : nat) (data : tensor) (ids : list nat)
    (n : nat) :
  length (tf.unsorted_segment_sum d data ids n) = n.
Proof.
  unfold tf.unsorted_segment_sum. now rewrite length_map, length_seq.
Qed.

Lemma unsorted_segment_sum_absent (d : nat) (data : tensor) (ids : list nat)
    (n i : nat) :
  (i < n)%nat -> ~ In i ids ->
  nth i (tf.unsorted_segment_sum d data ids n) [] = zeros d.
Proof.
  intros Hi Hno. unfold tf.unsorted_segment_sum.
  rewrite nth_map_seq by assumption.
  now rewrite segment_rows_absent.
Qed.

Lemma graph_prop_once_length (node_states : tensor) (from_idx to_idx : list nat)
    (message_net : tensor -> tensor) (d : nat) (edge_features : option tensor) :
  length (graph_prop_once node_states from_idx to_idx message_net
            (tf.unsorted_segment_sum d) edge_features)
  = length node_states.
Proof.
  unfold graph_prop_once. apply unsorted_segment_sum_length.
Qed.

Lemma graph_prop_once_absent (node_states : tensor) (from_idx to_idx : list nat)
    (message_net : tensor -> tensor) (d : nat) (edge_features : option tensor)
    (i : nat) :
  (i < length node_states)%nat -> ~ In i to_idx ->
  nth i (graph_prop_once node_states from_idx to_idx message_net
           (tf.unsorted_segment_sum d) edge_features) []
  = zeros d.
Proof.
  intros Hi Hno. unfold graph_prop_once.
  now apply unsorted_segment_sum_absent.
Qed.

Lemma _compute_aggregated_messages_length (vs : variable_store)
    (self : GraphPropLayer) (node_states : tensor) (from_idx to_idx : list nat)
    (edge_features : option tensor) :
  length (_compute_aggregated_messages vs self node_states from_idx to_idx
            edge_features)
  = length node_states.
Proof.
  unfold _compute_aggregated_messages.
  assert (L : length
                (if _use_reverse_direction self
                 then tf.add
                        (graph_prop_once node_states from_idx to_idx
                           (map (message_mlp vs (_name self)))
                           (tf.unsorted_segment_sum (message_dim self)) edge_features)
                        (graph_prop_once node_states to_idx from_idx
                           (map (if _reverse_dir_param_different self
                                 then reverse_message_mlp vs (_name self)
                                 else message_mlp vs (_name self)))
                           (tf.unsorted_segment_sum (message_dim self)) edge_features)
                 else graph_prop_once node_states from_idx to_idx
                        (map (message_mlp vs (_name self)))
                        (tf.unsorted_segment_sum (message_dim self)) edge_features)
              = length node_states).
  { destruct (_use_reverse_direction self).
    - unfold tf.add. rewrite map2_length, !graph_prop_once_length. lia.
    - apply graph_prop_once_length. }
  destruct (_layer_norm self); [rewrite length_map|]; exact L.
Qed.

Lemma zero_neighbor_aggregated_message (vs : variable_store)
    (self : GraphPropLayer) (node_states : tensor) (from_idx to_idx : list nat)
    (edge_features : option tensor) (i : nat) :
  _layer_norm self = false ->
  (i < length node_states)%nat ->
  ~ In i to_idx ->
  (_use_reverse_direction self = true -> ~ In i from_idx) ->
  nth i (_compute_aggregated_messages vs self node_states from_idx to_idx
           edge_features) []
  = zeros (message_dim self).
Proof.
  intros Hln Hi Hto Hfrom. unfold _compute_aggregated_messages.
  rewrite Hln. destruct (_use_reverse_direction self); cbv beta iota zeta.
  - unfold tf.add.
    rewrite (nth_map2 tf.vadd _ _ _ [] [] []) by now rewrite graph_prop_once_length.
    rewrite !graph_prop_once_absent by auto.
    apply vadd_zeros.
  - now apply graph_prop_once_absent.
Qed.

Lemma nth_map_lt {A B : Type} (f : A -> B) (l : list A) (i : nat) (d : B) (d' : A) :
  (i < length l)%nat -> nth i (map f l) d = f (nth i l d').
Proof.
  intros H. rewrite (nth_indep _ d (f d')) by now rewrite length_map.
  apply map_nth.
Qed.

(** C6, as the code has it: in a layer without layer normalisation, a node
    that is the target of no edge (and, when the reverse direction is on,
    the source of none) has the all-zeros aggregated message.  Under the
    residual update its new state is its old state plus the node net
    applied, in the plain propagation layer, to the zero message followed
    by the old state and, in the matching layer, to the zero message
    followed by the old state minus its cross-graph attention and by the
    old state (and in both by the node's extra features, when the caller
    passes some). *)
Theorem zero_neighbor_node_without_layer_norm :
  forall (vs : variable_store) (self : GraphPropLayer) (node_states : tensor)
         (from_idx to_idx : list nat) (edge_features : option tensor) (i : nat),
    _layer_norm self = false ->
    (i < length node_states)%nat ->
    ~ In i to_idx ->
    (_use_reverse_direction self = true -> ~ In i from_idx) ->
    nth i (_compute_aggregated_messages vs self node_states from_idx to_idx
             edge_features) []
    = zeros (message_dim self)
    /\ (_node_update_type self = "residual"%string ->
        forall node_features : option tensor,
          match node_features with
          | Some nf => (i < length nf)%nat
          | None => True
          end ->
          exists new_node_states : tensor,
            GraphPropLayer_build vs self node_states from_idx to_idx
              edge_features node_features = Ok new_node_states
            /\ nth i new_node_states []
               = tf.vadd (nth i node_states [])
                         (node_mlp vs (_name self)
                            (zeros (message_dim self) ++ nth i node_states []
                             ++ match node_features with
                                | Some nf => nth i nf []
                                | None => []
                                end)))
    /\ (_node_update_type self = "residual"%string ->
        forall (graph_idx : list nat) (n_graphs : nat) (similarity : string)
               (attention : tensor) (node_features : option tensor),
          batch_block_pair_attention node_states graph_idx n_graphs similarity
          = Ok attention ->
          (i < length attention)%nat ->
          match node_features with
          | Some nf => (i < length nf)%nat
          | None => True
          end ->
          exists new_node_states : tensor,
            GraphPropMatchingLayer_build vs self node_states from_idx to_idx
              graph_idx n_graphs similarity edge_features node_features
            = Ok new_node_states
            /\ nth i new_node_states []
               = tf.vadd (nth i node_states [])
                         (node_mlp vs (_name self)
                            (zeros (message_dim self)
                             ++ tf.vsub (nth i node_states [])
                                        (nth i attention [])
                             ++ nth i node_states []
                             ++ match node_features with
                                | Some nf => nth i nf []
                                | None => []
                                end))).
Proof.
  intros vs self node_states from_idx to_idx edge_features i Hln Hi Hto Hfrom.
  pose proof (zero_neighbor_aggregated_message vs self node_states from_idx
                to_idx edge_features i Hln Hi Hto Hfrom) as Hz.
  pose proof (_compute_aggregated_messages_length vs self node_states from_idx
                to_idx edge_features) as HL.
  split; [exact Hz|]. split.
  - intros Hty node_features Hnf.
    unfold GraphPropLayer_build.
    set (agg := _compute_aggregated_messages vs self node_states from_idx to_idx
                  edge_features) in *.
    clearbody agg.
    unfold _compute_node_update. rewrite Hty, Hln.
    assert (Hc : (i < length (map2 (@app R) agg node_states))%nat)
      by (rewrite map2_length; lia).
    destruct node_features as [nf|]; simpl.
    + eexists. split; [reflexivity|].
      assert (Hc' : (i < length (map2 (@app R) (map2 (@app R) agg node_states)
                                      nf))%nat)
        by (rewrite map2_length; lia).
      unfold tf.add.
      rewrite (nth_map2 tf.vadd _ _ _ [] [] []);
        [|assumption|now rewrite length_map].
      f_equal.
      rewrite (nth_map_lt _ _ _ _ []) by assumption.
      rewrite (nth_map2 (@app R) _ _ _ [] [] []) by lia.
      rewrite (nth_map2 (@app R) _ _ _ [] [] []) by lia.
      now rewrite Hz, app_assoc.
    + eexists. split; [reflexivity|].
      unfold tf.add.
      rewrite (nth_map2 tf.vadd _ _ _ [] [] []);
        [|assumption|now rewrite length_map].
      f_equal.
      rewrite (nth_map_lt _ _ _ _ []) by assumption.
      rewrite (nth_map2 (@app R) _ _ _ [] [] []) by lia.
      now rewrite Hz, app_nil_r.
  - intros Hty graph_idx n_graphs similarity attention node_features Hatt Ha Hnf.
    unfold GraphPropMatchingLayer_build. rewrite Hatt. cbn [bind].
    set (agg := _compute_aggregated_messages vs self node_states from_idx to_idx
                  edge_features) in *.
    clearbody agg.
    set (att := tf.sub node_states attention).
    assert (Hatt_len : (i < length att)%nat)
      by (unfold att, tf.sub; rewrite map2_length; lia).
    assert (Hatt_row : nth i att []
                       = tf.vsub (nth i node_states []) (nth i attention []))
      by (unfold att, tf.sub; now apply nth_map2).
    clearbody att.
    unfold _compute_node_update. rewrite Hty, Hln.
    assert (Hc1 : (i < length (map2 (@app R) agg att))%nat)
      by (rewrite map2_length; lia).
    assert (Hc2 : (i < length (map2 (@app R) (map2 (@app R) agg att)
                                    node_states))%nat)
      by (rewrite map2_length; lia).
    destruct node_features as [nf|]; simpl.
    + eexists. split; [reflexivity|].
      assert (Hc3 : (i < length (map2 (@app R)
                                      (map2 (@app R) (map2 (@app R) agg att)
                                            node_states) nf))%nat)
        by (rewrite map2_length; lia).
      unfold tf.add.
      rewrite (nth_map2 tf.vadd _ _ _ [] [] []);
        [|assumption|now rewrite length_map].
      f_equal.
      rewrite (nth_map_lt _ _ _ _ []) by assumption.
      rewrite (nth_map2 (@app R) _ _ _ [] [] []) by lia.
      rewrite (nth_map2 (@app R) _ _ _ [] [] []) by lia.
      rewrite (nth_map2 (@app R) _ _ _ [] [] []) by lia.
      now rewrite Hz, Hatt_row, <- !app_assoc.
    + eexists. split; [reflexivity|].
      unfold tf.add.
      rewrite (nth_map2 tf.vadd _ _ _ [] [] []);
        [|assumption|now rewrite length_map].
      f_equal.
      rewrite (nth_map_lt _ _ _ _ []) by assumption.
      rewrite (nth_map2 (@app R) _ _ _ [] [] []) by lia.
      rewrite (nth_map2 (@app R) _ _ _ [] [] []) by lia.
      now rewrite Hz, Hatt_row, app_nil_r, <- !app_assoc.
Qed.

Lemma zero_neighbor_node_witness :
  let layer :=
    GraphPropLayer_init 1 [1%nat] [1%nat] 0.1 "residual" true true false
      "graph-net" in
  _layer_norm layer = false
  /\ (1 < length [[5]; [7]])%nat
  /\ ~ In 1%nat [0%nat]
  /\ _node_update_type layer = "residual"%string
  /\ nth 1 (_compute_aggregated_messages identity_store layer
              [[5]; [7]] [0%nat] [0%nat] None) []
     = zeros 1
  /\ (exists new_node_states : tensor,
         GraphPropLayer_build identity_store layer [[5]; [7]] [0%nat] [0%nat]
           None None = Ok new_node_states
         /\ nth 1 new_node_states []
            = tf.vadd [7] (node_mlp identity_store "graph-net"
                             (zeros 1 ++ [7] ++ [])))
  /\ (exists attention new_node_states : tensor,
         batch_block_pair_attention [[5]; [7]] [0; 1]%nat 2 "dotproduct"
         = Ok attention
         /\ (1 < length attention)%nat
         /\ GraphPropMatchingLayer_build identity_store layer [[5]; [7]]
              [0%nat] [0%nat] [0; 1]%nat 2 "dotproduct" None None
            = Ok new_node_states
         /\ nth 1 new_node_states []
            = tf.vadd [7] (node_mlp identity_store "graph-net"
                             (zeros 1 ++ tf.vsub [7] (nth 1 attention [])
                              ++ [7] ++ []))).
Proof.
  intros layer.
  assert (Hno : ~ In 1%nat [0%nat]).
  { simpl. intros [H|H]; [discriminate | assumption]. }
  destruct (zero_neighbor_node_without_layer_norm identity_store layer
              [[5]; [7]] [0%nat] [0%nat] None 1%nat eq_refl
              (Nat.lt_succ_diag_r 1) Hno (fun _ => Hno))
    as [Hzero [Hplain Hmatching]].
  split; [reflexivity | split; [simpl; lia | split; [exact Hno |]]].
  split; [reflexivity|]. split; [exact Hzero|]. split.
  - exact (Hplain eq_refl None I).
  - destruct (batch_block_pair_attention [[5]; [7]] [0; 1]%nat 2 "dotproduct")
      as [attention|e] eqn:Hatt;
      [|exfalso; revert Hatt;
        cbv -[Rplus Rmult Rinv Rdiv IZR exp Rminus Ropp]; discriminate].
    assert (Hlen : (1 < length attention)%nat).
    { revert Hatt. cbv -[Rplus Rmult Rinv Rdiv IZR exp Rminus Ropp].
      intros [= <-]. simpl. lia. }
    destruct (Hmatching eq_refl [0; 1]%nat 2%nat "dotproduct"%string attention
                None Hatt Hlen I) as [new_node_states [Hnew Hrow]].
    exists attention, new_node_states.
    split; [reflexivity|]. split; [exact Hlen|].
    split; [exact Hnew | exact Hrow].
Defined.

(** With layer normalisation on, the aggregated message of a node without
    edges is the offset of the normalisation, here [1], not zero. *)
Lemma zero_neighbor_node_with_layer_norm :
  (0 < length [[5]])%nat
  /\ ~ In 0%nat (@nil nat)
  /\ nth 0 (_compute_aggregated_messages layer_norm_store
              (GraphPropLayer_init 1 [1%nat] [1%nat] 0.1 "residual" true true true
                 "graph-net")
              [[5]] [] [] None) []
     = [1]
  /\ nth 0 (_compute_aggregated_messages layer_norm_store
              (GraphPropLayer_init 1 [1%nat] [1%nat] 0.1 "residual" true true true
                 "graph-net")
              [[5]] [] [] None) []
     <> zeros (message_dim
                 (GraphPropLayer_init 1 [1%nat] [1%nat] 0.1 "residual" true true
                    true "graph-net")).
Proof.
  assert (E : nth 0 (_compute_aggregated_messages layer_norm_store
                       (GraphPropLayer_init 1 [1%nat] [1%nat] 0.1 "residual" true
                          true true "graph-net")
                       [[5]] [] [] None) [] = [1]).
  { cbv [_compute_aggregated_messages GraphPropLayer_init _layer_norm
         _use_reverse_direction _reverse_dir_param_different _name message_dim
         _edge_hidden_sizes last graph_prop_once tf.gather tf.concat_last
         fold_left map2 map tf.unsorted_segment_sum seq length tf.segment_rows
         combine filter fold_right zeros repeat tf.add tf.vadd nth
         layer_norm_store message_layer_norm message_mlp reverse_message_mlp
         LayerNorm tf.vmul Rsum app].
    f_equal. simpl. unfold Rdiv. ring. }
  split; [simpl; lia | split; [easy | split; [exact E |]]].
  rewrite E. cbv [message_dim GraphPropLayer_init _edge_hidden_sizes last zeros repeat].
  intros H. injection H as H. lra.
Qed.

(** *** Unknown names *)






Lemma build_layers_prefix (self : GraphEmbeddingNet) (ids : list nat) :
  forall layers : list GraphPropLayer,
  exists rest : list GraphPropLayer,
    build_layers self ids layers = layers ++ rest.
Proof.
  induction ids as [|i ids IH]; intros layers; simpl.
  - exists []. now rewrite app_nil_r.
  - match goal with
    | |- context [build_layers self ids (layers ++ [?l])] =>
        destruct (IH (layers ++ [l])) as [rest ->]; exists (l :: rest)
    end.
    now rewrite <- app_assoc.
Qed.

(** A first pass that builds at least one layer raises when applying the
    first layer does. *)
Lemma first_layer_raises (vs : variable_store) (self : GraphEmbeddingNet)
    (node_features : tensor) (edge_features : option tensor)
    (from_idx to_idx graph_idx : list nat) (n_graphs : nat) :
  _prop_layers self = [] ->
  (1 <= _n_prop_layers self)%Z ->
  (forall node_states edge_features,
      exists e : exn,
        _apply_layer vs self (_build_layer self 0) node_states from_idx to_idx
          graph_idx n_graphs edge_features = Raise e) ->
  exists e : exn,
    GraphEmbeddingNet_build vs self node_features edge_features from_idx to_idx
      graph_idx n_graphs = Raise e.
Proof.
  intros Hnil Hn Hraise. unfold GraphEmbeddingNet_build. rewrite Hnil.
  destruct (Z.ltb_spec (Z.of_nat (length (@nil GraphPropLayer)))
                       (_n_prop_layers self)) as [_|Hge]; [|simpl in Hge; lia].
  destruct (Z.to_nat (_n_prop_layers self)) as [|m] eqn:Em; [lia|].
  cbn [seq build_layers Nat.eqb orb app].
  destruct (build_layers_prefix self (seq 1 m) [_build_layer self 0])
    as [rest ->].
  destruct (GraphEncoder_build vs (_encoder self) node_features edge_features)
    as [nf ef].
  cbn [app apply_layers].
  destruct (Hraise nf ef) as [e ->]. simpl. eexists. reflexivity.
Qed.











(** *** The number of propagation layers *)

Lemma apply_layers_outputs_length (vs : variable_store) (self : GraphEmbeddingNet)
    (layers : list GraphPropLayer) (from_idx to_idx graph_idx : list nat)
    (n_graphs : nat) (edge_features : option tensor) :
  forall (node_states : tensor) (layer_outputs : list tensor)
         (node_states' : tensor) (layer_outputs' : list tensor),
    apply_layers vs self layers node_states from_idx to_idx graph_idx n_graphs
      edge_features layer_outputs
    = Ok (node_states', layer_outputs') ->
    length layer_outputs' = (length layer_outputs + length layers)%nat.
Proof.
  induction layers as [|layer layers IH]; simpl;
    intros node_states layer_outputs node_states' layer_outputs' E.
  - injection E as _ <-. lia.
  - destruct (_apply_layer _ _ _ _ _ _ _ _ _) as [ns|e]; simpl in E;
      [|discriminate].
    apply IH in E. rewrite E, length_app. simpl. lia.
Qed.

Lemma forward_pass_after_reset (vs : variable_store) (self : GraphEmbeddingNet)
    (k : Z) (node_features : tensor) (edge_features : option tensor)
    (from_idx to_idx graph_idx : list nat) (n_graphs : nat)
    (reset net : GraphEmbeddingNet) (out : tensor) :
  (k <= Z.of_nat (length (_prop_layers self)))%Z ->
  reset_n_prop_layers self k = Ok reset ->
  GraphEmbeddingNet_build vs reset node_features edge_features from_idx to_idx
    graph_idx n_graphs = Ok (net, out) ->
  _prop_layers net = _prop_layers self
  /\ exists layer_outputs : list tensor,
       get_layer_outputs net = Ok layer_outputs
       /\ length layer_outputs = S (length (_prop_layers self)).
Proof.
  intros Hk Hreset. unfold reset_n_prop_layers in Hreset.
  injection Hreset as <-. unfold GraphEmbeddingNet_build. simpl.
  destruct (Z.ltb_spec (Z.of_nat (length (_prop_layers self))) k) as [Hlt|_];
    [lia|].
  destruct (apply_layers _ _ _ _ _ _ _ _ _ _) as [[ns outs]|e] eqn:E; simpl;
    [|discriminate].
  intros [= <- _]. simpl. split; [reflexivity|].
  exists outs. split; [reflexivity|].
  apply apply_layers_outputs_length in E. simpl in E. lia.
Qed.

Lemma known_update_type_returns (vs : variable_store) (self : GraphPropLayer)
    (node_states : tensor) (node_state_inputs : list tensor)
    (node_features : option tensor) :
  In (_node_update_type self) ["mlp"; "residual"; "gru"]%string ->
  exists new_node_states : tensor,
    _compute_node_update vs self node_states node_state_inputs node_features
    = Ok new_node_states.
Proof.
  intros [H|[H|[H|[]]]]; unfold _compute_node_update; rewrite <- H; simpl.
  - destruct (_layer_norm self); eexists; reflexivity.
  - destruct (_layer_norm self); eexists; reflexivity.
  - eexists; reflexivity.
Qed.

Lemma batch_block_pair_attention_returns (data : tensor) (block_idx : list nat)
    (n_blocks : nat) (similarity : string) (sim : tensor -> tensor -> tensor) :
  get_pairwise_similarity similarity = Ok sim ->
  (n_blocks mod 2 = 0)%nat ->
  exists out : tensor,
    batch_block_pair_attention data block_idx n_blocks similarity = Ok out.
Proof.
  intros Hsim Heven. unfold batch_block_pair_attention.
  rewrite Heven, Hsim. eexists. reflexivity.
Qed.

(** When the matching layers are used, the attention needs an even number
    of graphs and a known similarity. *)
Lemma _apply_layer_returns (vs : variable_store) (self : GraphEmbeddingNet)
    (layer : GraphPropLayer) (node_states : tensor)
    (from_idx to_idx graph_idx : list nat) (n_graphs : nat)
    (edge_features : option tensor) :
  In (_node_update_type layer) ["mlp"; "residual"; "gru"]%string ->
  (_layer_class self = GraphPropMatchingLayer_class ->
   (n_graphs mod 2 = 0)%nat
   /\ exists sim, get_pairwise_similarity (_similarity self) = Ok sim) ->
  exists new_node_states : tensor,
    _apply_layer vs self layer node_states from_idx to_idx graph_idx n_graphs
      edge_features = Ok new_node_states.
Proof.
  intros Hty Hmatch. unfold _apply_layer.
  destruct (_layer_class self).
  - now apply known_update_type_returns.
  - destruct (Hmatch eq_refl) as [Heven [sim Hsim]].
    unfold GraphPropMatchingLayer_build.
    destruct (batch_block_pair_attention_returns node_states graph_idx n_graphs
                (_similarity self) sim Hsim Heven) as [out ->].
    simpl. now apply known_update_type_returns.
Qed.

Lemma apply_layers_returns (vs : variable_store) (self : GraphEmbeddingNet)
    (layers : list GraphPropLayer) (from_idx to_idx graph_idx : list nat)
    (n_graphs : nat) (edge_features : option tensor) :
  Forall (fun layer =>
            In (_node_update_type layer) ["mlp"; "residual"; "gru"]%string)
         layers ->
  (_layer_class self = GraphPropMatchingLayer_class ->
   (n_graphs mod 2 = 0)%nat
   /\ exists sim, get_pairwise_similarity (_similarity self) = Ok sim) ->
  forall (node_states : tensor) (layer_outputs : list tensor),
  exists r : tensor * list tensor,
    apply_layers vs self layers node_states from_idx to_idx graph_idx n_graphs
      edge_features layer_outputs = Ok r.
Proof.
  intros Hty Hmatch.
  induction layers as [|layer layers IH]; intros node_states layer_outputs;
    simpl.
  - eexists. reflexivity.
  - inversion Hty as [|? ? Hl Hls]; subst.
    destruct (_apply_layer_returns vs self layer node_states from_idx to_idx
                graph_idx n_graphs edge_features Hl Hmatch) as [ns ->].
    simpl. apply IH. assumption.
Qed.

(** C1, on the code: after [reset_n_prop_layers(k)] with [k] below the
    number of layers built, the next forward pass returns (its layers have
    known update rules and, for the matching net, the graphs come in pairs
    under a known similarity) and has run every built layer: it records one
    node-state tensor per built layer after the encoded states, so it has
    not applied [k] layers. *)
Theorem reset_below_built_still_applies_all_built_layers :
  forall (vs : variable_store) (self : GraphEmbeddingNet) (k : Z)
         (node_features : tensor) (edge_features : option tensor)
         (from_idx to_idx graph_idx : list nat) (n_graphs : nat),
    (k < Z.of_nat (length (_prop_layers self)))%Z ->
    Forall (fun layer =>
              In (_node_update_type layer) ["mlp"; "residual"; "gru"]%string)
           (_prop_layers self) ->
    (_layer_class self = GraphPropMatchingLayer_class ->
     (n_graphs mod 2 = 0)%nat
     /\ exists sim, get_pairwise_similarity (_similarity self) = Ok sim) ->
    exists (reset net : GraphEmbeddingNet) (out : tensor)
           (layer_outputs : list tensor),
      reset_n_prop_layers self k = Ok reset
      /\ GraphEmbeddingNet_build vs reset node_features edge_features from_idx
           to_idx graph_idx n_graphs = Ok (net, out)
      /\ _prop_layers net = _prop_layers self
      /\ get_layer_outputs net = Ok layer_outputs
      /\ length layer_outputs = S (length (_prop_layers self))
      /\ Z.of_nat (length layer_outputs) <> (k + 1)%Z.
Proof.
  intros vs self k node_features edge_features from_idx to_idx graph_idx n_graphs
         Hk Hty Hmatch.
  destruct (reset_n_prop_layers self k) as [reset|e] eqn:Hreset;
    [|discriminate].
  assert (Hbuild : exists net out,
             GraphEmbeddingNet_build vs reset node_features edge_features
               from_idx to_idx graph_idx n_graphs = Ok (net, out)).
  { unfold reset_n_prop_layers in Hreset. injection Hreset as <-.
    unfold GraphEmbeddingNet_build. cbn [_prop_layers _n_prop_layers _encoder].
    destruct (Z.ltb_spec (Z.of_nat (length (_prop_layers self))) k) as [Hlt|_];
      [lia|].
    destruct (GraphEncoder_build vs (_encoder self) node_features edge_features)
      as [nf ef].
    match goal with
    | |- context [apply_layers vs ?s ?l ?ns ?f ?t ?g ?n ?e ?o] =>
        destruct (apply_layers_returns vs s l f t g n e Hty Hmatch ns o)
          as [[ns' outs] ->]
    end.
    simpl. eexists. eexists. reflexivity. }
  destruct Hbuild as [net [out Hbuild]].
  destruct (forward_pass_after_reset vs self k node_features edge_features
              from_idx to_idx graph_idx n_graphs reset net out
              (Z.lt_le_incl _ _ Hk) Hreset Hbuild)
    as [Hlayers [layer_outputs [Hget Hlen]]].
  exists reset, net, out, layer_outputs.
  repeat (split; [assumption || reflexivity|]).
  rewrite Hlen. lia.
Qed.

Lemma reset_below_built_witness :
  exists (built : GraphEmbeddingNet) (out0 : tensor),
    GraphEmbeddingNet_build identity_store five_layer_net [[1]] None [] []
      [0%nat] 1 = Ok (built, out0)
    /\ length (_prop_layers built) = 5%nat
    /\ (3 < Z.of_nat (length (_prop_layers built)))%Z
    /\ Forall (fun layer =>
                 In (_node_update_type layer) ["mlp"; "residual"; "gru"]%string)
              (_prop_layers built)
    /\ _layer_class built = GraphPropLayer_class
    /\ exists (reset net : GraphEmbeddingNet) (out : tensor)
              (layer_outputs : list tensor),
         reset_n_prop_layers built 3 = Ok reset
         /\ GraphEmbeddingNet_build identity_store reset [[1]] None [] []
              [0%nat] 1 = Ok (net, out)
         /\ _prop_layers net = _prop_layers built
         /\ get_layer_outputs net = Ok layer_outputs
         /\ length layer_outputs = S (length (_prop_layers built))
         /\ Z.of_nat (length layer_outputs) <> (3 + 1)%Z.
Proof.
  do 2 eexists.
  split; [cbv -[Rplus Rmult Rinv IZR]; reflexivity|].
  split; [reflexivity|].
  split; [cbv; reflexivity|].
  split; [repeat constructor; right; left; reflexivity|].
  split; [reflexivity|].
  apply (reset_below_built_still_applies_all_built_layers identity_store _ 3
           [[1]] None [] [] [0%nat] 1%nat).
  - cbv; reflexivity.
  - repeat constructor; right; left; reflexivity.
  - intros H. discriminate H.
Defined.

(** No error on the five-layer net with unshared parameters: after a
    forward pass has built its five layers, the request for eight layers is
    accepted, and [8] is stored. *)
Lemma reset_above_built_unshared_is_accepted :
  exists (built reset : GraphEmbeddingNet) (out0 : tensor),
    GraphEmbeddingNet_build identity_store five_layer_net [[1]] None [] []
      [0%nat] 1 = Ok (built, out0)
    /\ _share_prop_params built = false
    /\ (Z.of_nat (length (_prop_layers built)) < 8)%Z
    /\ reset_n_prop_layers built 8 = Ok reset
    /\ _n_prop_layers reset = 8%Z
    /\ forall e : exn, reset_n_prop_layers built 8 <> Raise e.
Proof.
  do 3 eexists.
  split; [cbv -[Rplus Rmult Rinv IZR]; reflexivity|].
  split; [reflexivity|].
  split; [cbv; reflexivity|].
  split; [reflexivity|].
  split; [reflexivity|].
  intros e. discriminate.
Qed.

(** C2, as the code has it: [reset_n_prop_layers] never raises, with shared
    parameters or not and whatever the value: it stores the value as the
    number of propagation layers and leaves the built layers and every
    other attribute as they are. *)
Theorem reset_n_prop_layers_only_stores :
  forall (self : GraphEmbeddingNet) (k : Z),
  exists reset : GraphEmbeddingNet,
    reset_n_prop_layers self k = Ok reset
    /\ (forall e : exn, reset_n_prop_layers self k <> Raise e)
    /\ _n_prop_layers reset = k
    /\ _prop_layers reset = _prop_layers self
    /\ _share_prop_params reset = _share_prop_params self
    /\ _layer_outputs reset = _layer_outputs self
    /\ _encoder reset = _encoder self
    /\ _aggregator reset = _aggregator self
    /\ net_node_state_dim reset = net_node_state_dim self
    /\ net_edge_hidden_sizes reset = net_edge_hidden_sizes self
    /\ net_node_hidden_sizes reset = net_node_hidden_sizes self
    /\ net_edge_net_init_scale reset = net_edge_net_init_scale self
    /\ net_node_update_type reset = net_node_update_type self
    /\ net_use_reverse_direction reset = net_use_reverse_direction self
    /\ net_reverse_dir_param_different reset
       = net_reverse_dir_param_different self
    /\ net_layer_norm reset = net_layer_norm self
    /\ _layer_class reset = _layer_class self
    /\ _similarity reset = _similarity self.
Proof.
  intros self k. eexists. split; [reflexivity|].
  split; [intros e; discriminate|].
  cbn [reset_n_prop_layers _n_prop_layers _prop_layers _share_prop_params
       _layer_outputs _encoder _aggregator net_node_state_dim
       net_edge_hidden_sizes net_node_hidden_sizes net_edge_net_init_scale
       net_node_update_type net_use_reverse_direction
       net_reverse_dir_param_different net_layer_norm _layer_class
       _similarity].
  repeat split.
Qed.

(** *** The cross-graph attention *)

Lemma list_as_seq {A B : Type} (f : A -> B) (l : list A) (d : A) :
  map f l = map (fun q => f (nth q l d)) (seq 0 (length l)).
Proof.
  induction l as [|a l IH]; simpl; auto.
  rewrite <- seq_shift, map_map. now rewrite <- IH.
Qed.

Lemma map2_as_seq {A B C : Type} (f : A -> B -> C) (u : list A) (v : list B)
    (da : A) (db : B) :
  length u = length v ->
  map2 f u v = map (fun q => f (nth q u da) (nth q v db)) (seq 0 (length v)).
Proof.
  revert v; induction u as [|a u IH]; intros [|b v] L; simpl in *;
    try discriminate; auto.
  injection L as L. rewrite <- seq_shift, map_map. now rewrite <- IH.
Qed.

Lemma transpose_length (ncols : nat) (m : tensor) :
  length (tf.transpose ncols m) = ncols.
Proof.
  unfold tf.transpose. now rewrite length_map, length_seq.
Qed.

Lemma transpose_rows (ncols : nat) (m : tensor) :
  Forall (fun r => length r = length m) (tf.transpose ncols m).
Proof.
  unfold tf.transpose. rewrite Forall_forall. intros r Hr.
  apply in_map_iff in Hr. destruct Hr as [j [<- _]]. apply length_map.
Qed.

Lemma transpose_nth (ncols : nat) (m : tensor) (j : nat) :
  (j < ncols)%nat ->
  nth j (tf.transpose ncols m) [] = map (fun r => nth j r 0) m.
Proof.
  intros H. unfold tf.transpose. now rewrite nth_map_seq.
Qed.

Lemma list_eq_seq {A : Type} (l : list A) (d : A) :
  map (fun q => nth q l d) (seq 0 (length l)) = l.
Proof.
  rewrite <- (list_as_seq (fun a => a) l d). apply map_id.
Qed.

(** Transposing twice gives back a matrix of [m] rows of [n] entries. *)
Lemma transpose_involutive (m n : nat) (b : tensor) :
  length b = m -> Forall (fun r => length r = n) b ->
  tf.transpose m (tf.transpose n b) = b.
Proof.
  intros Lb Fb.
  transitivity (map (fun i => nth i b []) (seq 0 m));
    [|rewrite <- Lb; apply list_eq_seq].
  unfold tf.transpose at 1.
  apply map_ext_in. intros i Hi. apply in_seq in Hi.
  assert (Hrow : length (nth i b []) = n).
  { rewrite Forall_forall in Fb. apply Fb, nth_In. lia. }
  transitivity (map (fun j => nth j (nth i b []) 0) (seq 0 n));
    [|rewrite <- Hrow; apply list_eq_seq].
  unfold tf.transpose. rewrite map_map.
  apply map_ext. intros j.
  apply (nth_map_lt (fun r => nth j r 0) b i 0 []). lia.
Qed.

Lemma softmax_row_length (r : vec) : length (tf.softmax_row r) = length r.
Proof. unfold tf.softmax_row. apply length_map. Qed.

(** A softmax row against a column of [y]: the weighted sum of the
    specification. *)
Lemma dot_softmax_column (u : vec) (y : tensor) (j : nat) :
  length u = length y ->
  tf.dot (tf.softmax_row u) (map (fun r => nth j r 0) y)
  = Rsum (map (fun q =>
                 exp (nth q u 0)
                 / Rsum (map (fun q' => exp (nth q' u 0)) (seq 0 (length y)))
                 * entry y q j)
              (seq 0 (length y))).
Proof.
  intros L. unfold tf.dot, tf.vmul, tf.softmax_row.
  rewrite map2_map_l, map2_map_r.
  rewrite (map2_as_seq _ u y 0 []) by assumption.
  rewrite (list_as_seq exp u 0), L. reflexivity.
Qed.

Lemma matmul_length (ncols : nat) (a b : tensor) :
  length (tf.matmul ncols a b) = length a.
Proof.
  unfold tf.matmul, tf.matmul_nt. apply length_map.
Qed.

Lemma matmul_nth (ncols : nat) (a b : tensor) (p : nat) :
  (p < length a)%nat ->
  nth p (tf.matmul ncols a b) []
  = map (fun j => tf.dot (nth p a []) (map (fun r => nth j r 0) b)) (seq 0 ncols).
Proof.
  intros H. unfold tf.matmul, tf.matmul_nt.
  rewrite (nth_map_lt _ a p [] []) by assumption.
  unfold tf.transpose. now rewrite map_map.
Qed.

(** The rows of [attention_x]: row [p] of [softmax(a, axis=1)] against [y]. *)
Lemma attention_x_row (d : nat) (a y : tensor) (p : nat) :
  (p < length a)%nat ->
  length (nth p a []) = length y ->
  nth p (tf.matmul d (tf.softmax1 a) y) [] = attention_x_spec d a y p.
Proof.
  intros Hp Hrow.
  rewrite matmul_nth by (unfold tf.softmax1; now rewrite length_map).
  unfold tf.softmax1. rewrite (nth_map_lt _ a p [] []) by assumption.
  unfold attention_x_spec. apply map_ext. intros j.
  now rewrite dot_softmax_column.
Qed.

(** The rows of [attention_y]: column [q] of [softmax(a, axis=0)] against [x]. *)
Lemma attention_y_row (d m : nat) (a x : tensor) (q : nat) :
  (q < m)%nat ->
  length a = length x ->
  nth q (tf.matmul_tn m d (tf.softmax0 m a) x) [] = attention_y_spec d a x q.
Proof.
  intros Hq La. unfold tf.matmul_tn, tf.softmax0.
  rewrite (transpose_involutive m (length a)).
  2:{ unfold tf.softmax1. now rewrite length_map, transpose_length. }
  2:{ unfold tf.softmax1. rewrite Forall_forall. intros r Hr.
      apply in_map_iff in Hr. destruct Hr as [u [<- Hu]].
      rewrite softmax_row_length.
      pose proof (transpose_rows m a) as F. rewrite Forall_forall in F.
      now apply F. }
  rewrite matmul_nth
    by (unfold tf.softmax1; now rewrite length_map, transpose_length).
  unfold tf.softmax1.
  rewrite (nth_map_lt _ _ q [] []) by now rewrite transpose_length.
  rewrite transpose_nth by assumption.
  unfold attention_y_spec. apply map_ext. intros j.
  rewrite dot_softmax_column by now rewrite length_map.
  assert (E : forall p, (p < length x)%nat ->
                        nth p (map (fun r => nth q r 0) a) 0 = entry a p q).
  { intros p Hp. unfold entry.
    apply (nth_map_lt (fun r => nth q r 0) a p 0 []). lia. }
  f_equal. apply map_ext_in. intros p Hp. apply in_seq in Hp.
  unfold weight_y_to_x. rewrite E by lia. do 2 f_equal. f_equal.
  apply map_ext_in. intros p' Hp'. apply in_seq in Hp'.
  now rewrite E by lia.
Qed.

Lemma attention_y_length (d m : nat) (a x : tensor) :
  length (tf.matmul_tn m d (tf.softmax0 m a) x) = m.
Proof.
  unfold tf.matmul_tn. now rewrite matmul_length, transpose_length.
Qed.

(** The similarity matrix of [x] and [y] has a row per row of [x] and a
    column per row of [y]. *)
Lemma similarity_shape (name : string) (sim : tensor -> tensor -> tensor)
    (d : nat) (x y : tensor) :
  get_pairwise_similarity name = Ok sim ->
  Forall (fun u => length u = d) x ->
  Forall (fun v => length v = d) y ->
  length (sim x y) = length x
  /\ Forall (fun r => length r = length y) (sim x y).
Proof.
  intros Hsim Fx Fy.
  assert (Hnt : forall x' y' : tensor,
             length (tf.matmul_nt x' y') = length x'
             /\ Forall (fun r => length r = length y') (tf.matmul_nt x' y')).
  { intros x' y'. unfold tf.matmul_nt. split; [apply length_map|].
    rewrite Forall_forall. intros r Hr. apply in_map_iff in Hr.
    destruct Hr as [u [<- _]]. apply length_map. }
  unfold get_pairwise_similarity, PAIRWISE_SIMILARITY_FUNCTION, lookup in Hsim.
  destruct (String.eqb "euclidean" name).
  { injection Hsim as <-. rewrite (euclidean_similarity_entries d) by assumption.
    split; [apply length_map|]. rewrite Forall_forall. intros r Hr.
    apply in_map_iff in Hr. destruct Hr as [u [<- _]]. apply length_map. }
  destruct (String.eqb "dotproduct" name).
  { injection Hsim as <-. apply Hnt. }
  destruct (String.eqb "cosine" name); [|discriminate].
  injection Hsim as <-. unfold pairwise_cosine_similarity.
  destruct (Hnt (tf.l2_normalize x) (tf.l2_normalize y)) as [H1 H2].
  unfold tf.l2_normalize in *. rewrite length_map in H1, H2. now split.
Qed.

(** **** The order of the rows of a packed batch *)

Lemma concat_all_nil {A : Type} (f : nat -> list A) (gs : list nat) :
  (forall g, In g gs -> f g = []) -> concat (map f gs) = [].
Proof.
  induction gs as [|g gs IH]; simpl; intros H; auto.
  rewrite (H g) by now left. apply IH. intros g' Hg'. apply H. now right.
Qed.

Lemma segment_below_head (l : list (list R * nat)) (i g : nat) :
  Forall (le i) (map snd l) -> (g < i)%nat ->
  map fst (filter (fun p => Nat.eqb (snd p) g) l) = [].
Proof.
  induction l as [|[r j] l IH]; simpl; intros F Hg; auto.
  inversion F as [|? ? Hj F']; subst.
  destruct (Nat.eqb_spec j g); [lia | now apply IH].
Qed.

(** Partitioning rows that come sorted by their tag, with tags from [a] to
    [a + n - 1], and concatenating the parts gives the rows back. *)
Lemma sorted_partition_concat (l : list (list R * nat)) :
  forall a n : nat,
    StronglySorted le (map snd l) ->
    Forall (fun i => a <= i < a + n)%nat (map snd l) ->
    concat (map (fun g => map fst (filter (fun p => Nat.eqb (snd p) g) l))
                (seq a n))
    = map fst l.
Proof.
  induction l as [|[r i] l IH]; intros a n Hs F.
  - apply concat_all_nil. reflexivity.
  - simpl in Hs, F. inversion Hs as [|? ? S' Hi]; subst.
    inversion F as [|? ? Hr F']; subst.
    change (map fst ((r, i) :: l)) with (r :: map fst l).
    rewrite <- (IH a n S' F').
    set (Fl := fun g => map fst (filter (fun p => Nat.eqb (snd p) g) l)).
    set (Fc := fun g =>
                 map fst (filter (fun p : list R * nat => Nat.eqb (snd p) g)
                                 ((r, i) :: l))).
    assert (Eq : forall g, g <> i -> Fc g = Fl g).
    { intros g Hg. unfold Fc, Fl. simpl.
      destruct (Nat.eqb_spec i g); [congruence | reflexivity]. }
    assert (Ei : Fc i = r :: Fl i).
    { unfold Fc, Fl. simpl. now rewrite Nat.eqb_refl. }
    assert (E0 : concat (map Fl (seq a (i - a))) = []).
    { apply concat_all_nil. intros g Hg. apply in_seq in Hg.
      apply (segment_below_head l i); [assumption | lia]. }
    replace n with ((i - a) + S (a + n - S i))%nat by lia.
    rewrite seq_app, !map_app, !concat_app.
    replace (a + (i - a))%nat with i by lia.
    replace (map Fc (seq a (i - a))) with (map Fl (seq a (i - a))).
    2:{ apply map_ext_in. intros g Hg. apply in_seq in Hg.
        symmetry. apply Eq. lia. }
    rewrite E0. simpl. rewrite Ei. simpl. do 3 f_equal.
    apply map_ext_in. intros g Hg. apply in_seq in Hg. apply Eq. lia.
Qed.

Lemma combine_fst_snd (data : tensor) (block_idx : list nat) :
  length data = length block_idx ->
  map fst (combine data block_idx) = data
  /\ map snd (combine data block_idx) = block_idx.
Proof.
  revert block_idx; induction data as [|r data IH]; intros [|i idx] L;
    simpl in *; try discriminate; auto.
  injection L as L. destruct (IH idx L) as [-> ->]. now split.
Qed.

Lemma dynamic_partition_sorted (data : tensor) (block_idx : list nat)
    (n_blocks : nat) :
  length data = length block_idx ->
  Sorted le block_idx ->
  Forall (fun b => b < n_blocks)%nat block_idx ->
  tf.concat0 (tf.dynamic_partition data block_idx n_blocks) = data.
Proof.
  intros L Hs F. unfold tf.concat0, tf.dynamic_partition, tf.segment_rows.
  destruct (combine_fst_snd data block_idx L) as [Hfst Hsnd].
  transitivity (map fst (combine data block_idx)); [|exact Hfst].
  apply sorted_partition_concat; rewrite Hsnd.
  - apply Sorted_StronglySorted; [|assumption].
    intros a b c. apply Nat.le_trans.
  - rewrite Forall_forall in *. intros b Hb. specialize (F b Hb). lia.
Qed.

(** The parts of a batch of [2 * h] graphs, pair by pair. *)
Lemma concat_by_pairs {A : Type} (f : nat -> list A) (h : nat) :
  concat (map f (seq 0 (2 * h)))
  = concat (map (fun k => f (2 * k)%nat ++ f (2 * k + 1)%nat) (seq 0 h)).
Proof.
  induction h as [|h IH]; auto.
  replace (2 * S h)%nat with (2 * h + 2)%nat by lia.
  rewrite seq_app, (seq_S h 0), !map_app, !concat_app, IH.
  cbn [seq map concat]. rewrite !app_nil_r.
  f_equal. f_equal; f_equal; lia.
Qed.

Lemma concat_pairs_flat_map {A : Type} (f g : nat -> list A) (ks : list nat) :
  concat (flat_map (fun k => [f k; g k]) ks)
  = concat (map (fun k => f k ++ g k) ks).
Proof.
  induction ks as [|k ks IH]; simpl; auto.
  now rewrite IH, app_assoc.
Qed.

Lemma concat_seq_split {A : Type} (f : nat -> list A) (h k : nat) :
  (k < h)%nat ->
  concat (map f (seq 0 h))
  = concat (map f (seq 0 k)) ++ f k ++ concat (map f (seq (S k) (h - S k))).
Proof.
  intros H. replace h with (k + S (h - S k))%nat at 1 by lia.
  rewrite seq_app, map_app, concat_app. reflexivity.
Qed.

(** Row [p] of the first half and row [q] of the second half of block [k]
    of a concatenation of blocks [f k ++ g k]. *)
Lemma nth_in_block {A : Type} (f g : nat -> list A) (h k : nat) (d : A) :
  (k < h)%nat ->
  let off := length (concat (map (fun k => f k ++ g k) (seq 0 k))) in
  (forall p, (p < length (f k))%nat ->
             nth (off + p) (concat (map (fun k => f k ++ g k) (seq 0 h))) d
             = nth p (f k) d)
  /\ (forall q, (q < length (g k))%nat ->
                nth (off + length (f k) + q)
                    (concat (map (fun k => f k ++ g k) (seq 0 h))) d
                = nth q (g k) d)
  /\ (off + length (f k) + length (g k)
      <= length (concat (map (fun k => f k ++ g k) (seq 0 h))))%nat.
Proof.
  intros Hk off.
  rewrite (concat_seq_split (fun k => f k ++ g k) h k Hk).
  fold off. repeat split.
  - intros p Hp. unfold off. rewrite app_nth2_plus, <- app_assoc.
    now apply app_nth1.
  - intros q Hq. rewrite <- Nat.add_assoc. unfold off.
    rewrite app_nth2_plus, <- app_assoc, app_nth2_plus.
    now apply app_nth1.
  - rewrite !length_app. fold off. lia.
Qed.

Lemma concat_blocks_length {A B : Type} (f : nat -> list A) (g : nat -> list B)
    (ks : list nat) :
  (forall k, In k ks -> length (f k) = length (g k)) ->
  length (concat (map f ks)) = length (concat (map g ks)).
Proof.
  induction ks as [|k ks IH]; simpl; intros H; auto.
  rewrite !length_app, (H k) by now left.
  rewrite IH; [reflexivity|]. intros k' Hk'. apply H. now right.
Qed.

Lemma segment_rows_Forall (P : list R -> Prop) (data : tensor)
    (block_idx : list nat) (g : nat) :
  Forall P data -> Forall P (tf.segment_rows data block_idx g).
Proof.
  intros F. unfold tf.segment_rows. rewrite Forall_forall in *.
  intros r Hr. apply in_map_iff in Hr. destruct Hr as [[r' i] [<- Hin]].
  apply filter_In in Hin. destruct Hin as [Hin _].
  apply in_combine_l in Hin. now apply F.
Qed.

Lemma ncols_uniform (d : nat) (t : tensor) :
  Forall (fun r => length r = d) t -> (0 < length t)%nat -> tf.ncols t = d.
Proof.
  destruct t as [|r t]; simpl; intros F H; [lia|]. now inversion F.
Qed.

(** The two outputs of [compute_cross_attention] on a pair of blocks with
    rows of [d] entries: their shapes and their rows. *)
Lemma compute_cross_attention_rows (d : nat) (x y : tensor) (name : string)
    (sim : tensor -> tensor -> tensor) :
  get_pairwise_similarity name = Ok sim ->
  Forall (fun u => length u = d) x ->
  Forall (fun v => length v = d) y ->
  length (fst (compute_cross_attention x y sim)) = length x
  /\ length (snd (compute_cross_attention x y sim)) = length y
  /\ (forall p, (p < length x)%nat ->
                nth p (fst (compute_cross_attention x y sim)) []
                = attention_x_spec d (sim x y) y p)
  /\ (forall q, (q < length y)%nat ->
                nth q (snd (compute_cross_attention x y sim)) []
                = attention_y_spec d (sim x y) x q).
Proof.
  intros Hsim Fx Fy.
  destruct (similarity_shape name sim d x y Hsim Fx Fy) as [La Fa].
  assert (Hd : (0 < length (x ++ y))%nat -> tf.ncols (x ++ y) = d).
  { apply ncols_uniform. apply Forall_app. now split. }
  unfold compute_cross_attention. simpl.
  split; [|split; [|split]].
  - unfold tf.softmax1. now rewrite matmul_length, length_map.
  - apply attention_y_length.
  - intros p Hp. rewrite Hd by (rewrite length_app; lia).
    apply attention_x_row; [lia|].
    rewrite Forall_forall in Fa. apply Fa, nth_In. lia.
  - intros q Hq. rewrite Hd by (rewrite length_app; lia).
    now apply attention_y_row.
Qed.

(** The output of [batch_block_pair_attention], pair by pair. *)
Lemma batch_block_pair_attention_blocks (data : tensor) (block_idx : list nat)
    (n_blocks : nat) (similarity : string) (sim : tensor -> tensor -> tensor) :
  get_pairwise_similarity similarity = Ok sim ->
  (n_blocks mod 2 = 0)%nat ->
  batch_block_pair_attention data block_idx n_blocks similarity
  = Ok (concat
          (map (fun k =>
                  fst (compute_cross_attention
                         (tf.segment_rows data block_idx (2 * k))
                         (tf.segment_rows data block_idx (2 * k + 1)) sim)
                  ++ snd (compute_cross_attention
                            (tf.segment_rows data block_idx (2 * k))
                            (tf.segment_rows data block_idx (2 * k + 1)) sim))
               (seq 0 (n_blocks / 2)))).
Proof.
  intros Hsim Heven. unfold batch_block_pair_attention.
  rewrite Heven, Hsim. cbv beta iota delta [bind negb Nat.eqb].
  f_equal. unfold tf.concat0, range2.
  replace ((n_blocks + 1) / 2)%nat with (n_blocks / 2)%nat
    by (pose proof (Nat.div_mod_eq n_blocks 2);
        pose proof (Nat.div_mod_eq (n_blocks + 1) 2);
        assert ((n_blocks + 1) mod 2 < 2)%nat
          by (apply Nat.mod_upper_bound; discriminate);
        lia).
  rewrite <- concat_pairs_flat_map.
  rewrite !flat_map_concat_map, map_map. do 2 f_equal.
  apply map_ext_in. intros k Hk. apply in_seq in Hk.
  assert (Hn : (2 * k + 1 < n_blocks)%nat)
    by (pose proof (Nat.div_mod_eq n_blocks 2); lia).
  unfold tf.dynamic_partition.
  rewrite !nth_map_seq by lia.
  now destruct (compute_cross_attention _ _ sim).
Qed.

(** C3: on a packed batch (rows sorted by graph index, an even number of
    graphs, rows of [d] entries) and with one of the three similarities,
    the attention returns a tensor with a row per input row, in the input
    order.  For the pair of graphs [2k] and [2k+1], with blocks [x] and [y]
    of any sizes and similarity matrix [s], the row that stands where
    [x_p] stands is [sum_q a_{p->q} y_q], with [a_{p->q}] the softmax of
    [s] over [q]; the row that stands where [y_q] stands is
    [sum_p a_{q->p} x_p], with [a_{q->p}] the softmax of [s] over [p]; and
    the matching layer passes the input minus the attention, row by row,
    to the node update next to the aggregated messages. *)
Theorem cross_attention_rows_and_order :
  forall (d : nat) (data : tensor) (block_idx : list nat) (n_blocks : nat)
         (similarity : string) (sim : tensor -> tensor -> tensor),
    get_pairwise_similarity similarity = Ok sim ->
    (n_blocks mod 2 = 0)%nat ->
    length data = length block_idx ->
    Forall (fun r => length r = d) data ->
    Sorted le block_idx ->
    Forall (fun b => (b < n_blocks)%nat) block_idx ->
    exists out : tensor,
      batch_block_pair_attention data block_idx n_blocks similarity = Ok out
      /\ length out = length data
      /\ (forall (vs : variable_store) (self : GraphPropLayer)
                 (from_idx to_idx : list nat)
                 (edge_features node_features : option tensor),
            GraphPropMatchingLayer_build vs self data from_idx to_idx block_idx
              n_blocks similarity edge_features node_features
            = _compute_node_update vs self data
                [_compute_aggregated_messages vs self data from_idx to_idx
                   edge_features;
                 tf.sub data out]
                node_features)
      /\ forall k : nat,
           (2 * k + 1 < n_blocks)%nat ->
           let x := tf.segment_rows data block_idx (2 * k) in
           let y := tf.segment_rows data block_idx (2 * k + 1) in
           let s := sim x y in
           let off := rows_before data block_idx (2 * k) in
           (forall p : nat,
               (p < length x)%nat ->
               nth (off + p) data [] = nth p x []
               /\ nth (off + p) out [] = attention_x_spec d s y p
               /\ nth (off + p) (tf.sub data out) []
                  = tf.vsub (nth p x []) (attention_x_spec d s y p))
           /\ (forall q : nat,
                  (q < length y)%nat ->
                  nth (off + length x + q) data [] = nth q y []
                  /\ nth (off + length x + q) out [] = attention_y_spec d s x q
                  /\ nth (off + length x + q) (tf.sub data out) []
                     = tf.vsub (nth q y []) (attention_y_spec d s x q)).
Proof.
  intros d data block_idx n_blocks similarity sim Hsim Heven L Fd Hs Fb.
  set (X := fun k => tf.segment_rows data block_idx (2 * k)).
  set (Y := fun k => tf.segment_rows data block_idx (2 * k + 1)).
  set (AX := fun k => fst (compute_cross_attention (X k) (Y k) sim)).
  set (AY := fun k => snd (compute_cross_attention (X k) (Y k) sim)).
  set (h := (n_blocks / 2)%nat).
  assert (Hn : n_blocks = (2 * h)%nat)
    by (unfold h; pose proof (Nat.div_mod_eq n_blocks 2); lia).
  assert (Hrows : forall k,
             length (AX k) = length (X k) /\ length (AY k) = length (Y k)
             /\ (forall p, (p < length (X k))%nat ->
                   nth p (AX k) [] = attention_x_spec d (sim (X k) (Y k)) (Y k) p)
             /\ (forall q, (q < length (Y k))%nat ->
                   nth q (AY k) [] = attention_y_spec d (sim (X k) (Y k)) (X k) q)).
  { intros k. apply (compute_cross_attention_rows d _ _ similarity sim Hsim);
      now apply segment_rows_Forall. }
  pose proof (batch_block_pair_attention_blocks data block_idx n_blocks
                similarity sim Hsim Heven) as Hout.
  fold X Y AX AY h in Hout.
  assert (Hdata : data = concat (map (fun k => X k ++ Y k) (seq 0 h))).
  { rewrite <- (dynamic_partition_sorted data block_idx n_blocks L Hs Fb) at 1.
    unfold tf.concat0, tf.dynamic_partition. rewrite Hn.
    apply concat_by_pairs. }
  assert (Hoff : forall k,
             length (concat (map (fun k => X k ++ Y k) (seq 0 k)))
             = rows_before data block_idx (2 * k)).
  { intros k. unfold rows_before, tf.concat0.
    now rewrite (concat_by_pairs (tf.segment_rows data block_idx) k). }
  assert (Hoff' : forall k,
             length (concat (map (fun k => AX k ++ AY k) (seq 0 k)))
             = rows_before data block_idx (2 * k)).
  { intros k. rewrite <- Hoff. apply concat_blocks_length.
    intros k' _. destruct (Hrows k') as [E1 [E2 _]].
    now rewrite !length_app, E1, E2. }
  assert (Hlen : length (concat (map (fun k => AX k ++ AY k) (seq 0 h)))
                 = length data).
  { transitivity (length (concat (map (fun k => X k ++ Y k) (seq 0 h))));
      [|now rewrite <- Hdata].
    apply concat_blocks_length.
    intros k' _. destruct (Hrows k') as [E1 [E2 _]].
    now rewrite !length_app, E1, E2. }
  exists (concat (map (fun k => AX k ++ AY k) (seq 0 h))).
  split; [exact Hout|]. split; [exact Hlen|]. split.
  { intros. unfold GraphPropMatchingLayer_build. now rewrite Hout. }
  intros k Hk. cbv zeta. fold (X k) (Y k).
  set (off := rows_before data block_idx (2 * k)).
  set (s := sim (X k) (Y k)).
  assert (Hkh : (k < h)%nat) by lia.
  destruct (Hrows k) as [E1 [E2 [Rx Ry]]].
  destruct (nth_in_block X Y h k [] Hkh) as [Dx [Dy Dlen]].
  destruct (nth_in_block AX AY h k [] Hkh) as [Ox [Oy _]].
  rewrite <- Hdata, Hoff in Dx, Dy, Dlen.
  rewrite Hoff', E1 in Ox, Oy.
  fold off in Dx, Dy, Dlen, Ox, Oy.
  fold s in Rx, Ry.
  split.
  - intros p Hp.
    assert (I : nth (off + p) data [] = nth p (X k) []) by now apply Dx.
    assert (O : nth (off + p)
                    (concat (map (fun k => AX k ++ AY k) (seq 0 h))) []
                = attention_x_spec d s (Y k) p).
    { rewrite Ox by exact Hp. now apply Rx. }
    split; [exact I|]. split; [exact O|].
    unfold tf.sub.
    rewrite (nth_map2 tf.vsub _ _ _ [] [] []) by (rewrite ?Hlen; lia).
    now rewrite I, O.
  - intros q Hq.
    assert (I : nth (off + length (X k) + q) data [] = nth q (Y k) [])
      by now apply Dy.
    assert (O : nth (off + length (X k) + q)
                    (concat (map (fun k => AX k ++ AY k) (seq 0 h))) []
                = attention_y_spec d s (X k) q).
    { rewrite Oy by (rewrite E2; exact Hq). now apply Ry. }
    split; [exact I|]. split; [exact O|].
    unfold tf.sub.
    rewrite (nth_map2 tf.vsub _ _ _ [] [] []) by (rewrite ?Hlen; lia).
    now rewrite I, O.
Qed.

Lemma cross_attention_witness :
  get_pairwise_similarity "dotproduct" = Ok pairwise_dot_product_similarity
  /\ (2 mod 2 = 0)%nat
  /\ length [[1; 0]; [0; 1]; [1; 1]] = length [0%nat; 1%nat; 1%nat]
  /\ Forall (fun r => length r = 2%nat) [[1; 0]; [0; 1]; [1; 1]]
  /\ Sorted le [0%nat; 1%nat; 1%nat]
  /\ Forall (fun b => (b < 2)%nat) [0%nat; 1%nat; 1%nat]
  /\ exists out : tensor,
       batch_block_pair_attention [[1; 0]; [0; 1]; [1; 1]]
         [0%nat; 1%nat; 1%nat] 2 "dotproduct" = Ok out
       /\ length out = 3%nat
       /\ nth 0 out []
          = attention_x_spec 2
              (pairwise_dot_product_similarity [[1; 0]] [[0; 1]; [1; 1]])
              [[0; 1]; [1; 1]] 0
       /\ nth 2 out []
          = attention_y_spec 2
              (pairwise_dot_product_similarity [[1; 0]] [[0; 1]; [1; 1]])
              [[1; 0]] 1.
Proof.
  assert (HF : Forall (fun r => length r = 2%nat) [[1; 0]; [0; 1]; [1; 1]])
    by (repeat constructor).
  assert (HS : Sorted le [0%nat; 1%nat; 1%nat]) by (repeat constructor).
  assert (HB : Forall (fun b => (b < 2)%nat) [0%nat; 1%nat; 1%nat])
    by (repeat constructor).
  split; [reflexivity|]. split; [reflexivity|]. split; [reflexivity|].
  split; [exact HF|]. split; [exact HS|]. split; [exact HB|].
  destruct (cross_attention_rows_and_order 2 [[1; 0]; [0; 1]; [1; 1]]
              [0%nat; 1%nat; 1%nat] 2 "dotproduct"
              pairwise_dot_product_similarity eq_refl eq_refl eq_refl HF HS HB)
    as [out [Hout [Hlen [_ Hrows]]]].
  exists out. split; [exact Hout|]. split; [exact Hlen|].
  destruct (Hrows 0%nat (Nat.lt_succ_diag_r 1)) as [Hx Hy].
  split.
  - exact (proj1 (proj2 (Hx 0%nat (Nat.lt_succ_diag_r 0)))).
  - exact (proj1 (proj2 (Hy 1%nat (Nat.lt_succ_diag_r 1)))).
Defined.

(** Rows out of graph order: node 0 belongs to graph 1 and node 1 to graph
    0.  The attention rows come back in graph order, so that the row
    standing where node 0 stands is the attention of node 1, which is the
    state [1] of node 0 itself instead of [2], the state of the only node
    it attends to; the matching layer is then handed [1 - 1] and [2 - 2]
    where the residuals are [1 - 2] and [2 - 1]. *)
Lemma cross_attention_unsorted_batch_out_of_order :
  let data := [[1]; [2]] in
  let block_idx := [1; 0]%nat in
  let x := tf.segment_rows data block_idx 0 in
  let y := tf.segment_rows data block_idx 1 in
  let s := pairwise_dot_product_similarity x y in
  ~ Sorted le block_idx
  /\ x = [nth 1 data []]
  /\ y = [nth 0 data []]
  /\ attention_y_spec 1 s x 0 = [2]
  /\ attention_x_spec 1 s y 0 = [1]
  /\ batch_block_pair_attention data block_idx 2 "dotproduct"
     = Ok [[1]; [2]]
  /\ nth 0 [[1]; [2]] [] <> attention_y_spec 1 s x 0
  /\ nth 1 [[1]; [2]] [] <> attention_x_spec 1 s y 0.
Proof.
  cbv zeta.
  assert (He : exp (2 * 1 + 0) <> 0)
    by (apply Rgt_not_eq, exp_pos).
  assert (Ey : attention_y_spec 1
                 (pairwise_dot_product_similarity
                    (tf.segment_rows [[1]; [2]] [1; 0]%nat 0)
                    (tf.segment_rows [[1]; [2]] [1; 0]%nat 1))
                 (tf.segment_rows [[1]; [2]] [1; 0]%nat 0) 0 = [2]).
  { cbv -[Rplus Rmult Rinv Rdiv IZR exp Rminus Ropp]. f_equal. now field. }
  assert (Ex : attention_x_spec 1
                 (pairwise_dot_product_similarity
                    (tf.segment_rows [[1]; [2]] [1; 0]%nat 0)
                    (tf.segment_rows [[1]; [2]] [1; 0]%nat 1))
                 (tf.segment_rows [[1]; [2]] [1; 0]%nat 1) 0 = [1]).
  { cbv -[Rplus Rmult Rinv Rdiv IZR exp Rminus Ropp]. f_equal. now field. }
  split.
  { intros Hs. inversion Hs as [|a l _ Hhd]; subst.
    inversion Hhd as [|b l' Hle]; subst. lia. }
  split; [reflexivity|]. split; [reflexivity|].
  split; [exact Ey|]. split; [exact Ex|]. split.
  { cbv -[Rplus Rmult Rinv Rdiv IZR exp Rminus Ropp].
    do 2 f_equal; [f_equal; now field | do 2 f_equal; now field]. }
  rewrite Ey, Ex. split; intros [= H]; lra.
Qed.

(** *** The attention weights *)

Lemma Rsum_map_div (f : R -> R) (c : R) (l : vec) :
  Rsum (map (fun v => f v / c) l) = Rsum (map f l) / c.
Proof.
  induction l as [|a l IH]; simpl.
  - unfold Rdiv. now rewrite Rmult_0_l.
  - rewrite IH. unfold Rdiv. ring.
Qed.

Lemma Rsum_exp_pos (r : vec) : (0 < length r)%nat -> 0 < Rsum (map exp r).
Proof.
  destruct r as [|a r]; simpl; intros H; [lia|].
  assert (G : 0 <= Rsum (map exp r)).
  { clear. induction r as [|b r IH]; simpl; [lra|].
    pose proof (exp_pos b). lra. }
  pose proof (exp_pos a). lra.
Qed.

(** A softmax over at least one entry sums to one. *)
Lemma softmax_row_sum (r : vec) :
  (0 < length r)%nat -> Rsum (tf.softmax_row r) = 1.
Proof.
  intros H. unfold tf.softmax_row. rewrite Rsum_map_div.
  pose proof (Rsum_exp_pos r H). now field_simplify_eq; [|lra].
Qed.

Lemma softmax_row_nth_pos (r : vec) (q : nat) :
  (q < length r)%nat -> 0 < nth q (tf.softmax_row r) 0.
Proof.
  intros H. unfold tf.softmax_row.
  rewrite (nth_map_lt _ r q 0 0) by assumption.
  apply Rdiv_lt_0_compat; [apply exp_pos | apply Rsum_exp_pos; lia].
Qed.

Lemma Rsum_seq_nth (l : vec) :
  Rsum (map (fun p => nth p l 0) (seq 0 (length l))) = Rsum l.
Proof. now rewrite list_eq_seq. Qed.

(** The entries of [softmax(a, axis=0)] for [a] of [m] columns. *)
Lemma softmax0_entry (m : nat) (a : tensor) (p q : nat) :
  (p < length a)%nat -> (q < m)%nat ->
  entry (tf.softmax0 m a) p q
  = nth p (tf.softmax_row (map (fun r => nth q r 0) a)) 0.
Proof.
  intros Hp Hq. unfold entry, tf.softmax0.
  rewrite transpose_nth by assumption.
  rewrite (nth_map_lt (fun r => nth p r 0) _ q 0 [])
    by (unfold tf.softmax1; now rewrite length_map, transpose_length).
  unfold tf.softmax1.
  rewrite (nth_map_lt tf.softmax_row _ q [] [])
    by now rewrite transpose_length.
  now rewrite transpose_nth.
Qed.

Lemma softmax0_shape (m : nat) (a : tensor) :
  length (tf.softmax0 m a) = length a
  /\ Forall (fun r => length r = m) (tf.softmax0 m a).
Proof.
  unfold tf.softmax0. split; [apply transpose_length|].
  pose proof (transpose_rows (length a) (tf.softmax1 (tf.transpose m a))) as F.
  unfold tf.softmax1 in F at 1. now rewrite length_map, transpose_length in F.
Qed.

Lemma softmax0_column_sum (m : nat) (a : tensor) (q : nat) :
  (0 < length a)%nat -> (q < m)%nat ->
  Rsum (map (fun p => entry (tf.softmax0 m a) p q) (seq 0 (length a))) = 1.
Proof.
  intros Ha Hq.
  rewrite <- (softmax_row_sum (map (fun r => nth q r 0) a))
    by now rewrite length_map.
  rewrite <- (Rsum_seq_nth (tf.softmax_row _)).
  rewrite softmax_row_length, length_map. f_equal.
  apply map_ext_in. intros p Hp. apply in_seq in Hp.
  apply softmax0_entry; [lia | assumption].
Qed.

Lemma range2_even (n : nat) :
  (n mod 2 = 0)%nat -> range2 n = map (fun k => (2 * k)%nat) (seq 0 (n / 2)).
Proof.
  intros Heven. unfold range2. do 2 f_equal.
  pose proof (Nat.div_mod_eq n 2). pose proof (Nat.div_mod_eq (n + 1) 2).
  assert ((n + 1) mod 2 < 2)%nat by (apply Nat.mod_upper_bound; discriminate).
  lia.
Qed.

(** X1: for an even number of graphs, a known similarity and node states of
    one width, [build_matchings] returns, per layer output and per pair of
    graphs [x], [y], the matrices [a_x] and [a_y] of the shape of the
    similarity matrix, with positive entries; every row of [a_x] sums to
    one when [y] has a node, and every column of [a_y] sums to one when [x]
    has a node. *)
Theorem build_matchings_normalised :
  forall (d : nat) (layer_outputs : list tensor) (graph_idx : list nat)
         (n_graphs : nat) (name : string) (sim : tensor -> tensor -> tensor),
    get_pairwise_similarity name = Ok sim ->
    (n_graphs mod 2 = 0)%nat ->
    Forall (fun h => Forall (fun r => length r = d) h) layer_outputs ->
    exists attention : list (list (tensor * tensor)),
      build_matchings layer_outputs graph_idx n_graphs sim = Passed attention
      /\ length attention = length layer_outputs
      /\ forall l k : nat,
           (l < length layer_outputs)%nat ->
           (2 * k + 1 < n_graphs)%nat ->
           let x := tf.segment_rows (nth l layer_outputs []) graph_idx (2 * k) in
           let y := tf.segment_rows (nth l layer_outputs []) graph_idx (2 * k + 1) in
           let a_x := fst (nth k (nth l attention []) ([], [])) in
           let a_y := snd (nth k (nth l attention []) ([], [])) in
           length (nth l attention []) = (n_graphs / 2)%nat
           /\ length a_x = length x /\ length a_y = length x
           /\ (forall p q, (p < length x)%nat -> (q < length y)%nat ->
                 0 < entry a_x p q /\ 0 < entry a_y p q)
           /\ (forall p, (p < length x)%nat ->
                 length (nth p a_x []) = length y
                 /\ ((0 < length y)%nat -> Rsum (nth p a_x []) = 1))
           /\ (forall q, (q < length y)%nat -> (0 < length x)%nat ->
                 Rsum (map (fun p => entry a_y p q) (seq 0 (length x))) = 1).
Proof.
  intros d layer_outputs graph_idx n_graphs name sim Hsim Heven Fd.
  unfold build_matchings. rewrite Heven. cbv beta iota delta [negb Nat.eqb].
  eexists. split; [reflexivity|]. split; [apply length_map|].
  intros l k Hl Hk. cbv zeta.
  rewrite (nth_map_lt _ layer_outputs l [] []) by assumption.
  rewrite range2_even by assumption. rewrite map_map.
  assert (Hkh : (k < n_graphs / 2)%nat)
    by (pose proof (Nat.div_mod_eq n_graphs 2); lia).
  rewrite length_map, length_seq.
  rewrite (nth_map_lt _ (seq 0 (n_graphs / 2)) k ([], []) 0%nat)
    by now rewrite length_seq.
  rewrite seq_nth by assumption. cbn [Nat.add fst snd].
  unfold tf.dynamic_partition. rewrite !nth_map_seq by lia.
  set (h := nth l layer_outputs []).
  set (x := tf.segment_rows h graph_idx (2 * k)).
  set (y := tf.segment_rows h graph_idx (2 * k + 1)).
  assert (Fh : Forall (fun r => length r = d) h).
  { rewrite Forall_forall in Fd. apply Fd. now apply nth_In. }
  destruct (similarity_shape name sim d x y Hsim) as [La Fa];
    try (now apply segment_rows_Forall).
  destruct (softmax0_shape (length y) (sim x y)) as [L0 F0].
  assert (Hrow : forall p, (p < length x)%nat ->
                           length (nth p (sim x y) []) = length y).
  { intros p Hp. rewrite Forall_forall in Fa. apply Fa, nth_In. lia. }
  split; [reflexivity|].
  split; [unfold tf.softmax1; now rewrite length_map|].
  split; [lia|]. split; [|split].
  - intros p q Hp Hq. split.
    + unfold entry, tf.softmax1.
      rewrite (nth_map_lt tf.softmax_row _ p [] []) by lia.
      apply softmax_row_nth_pos. rewrite Hrow; assumption.
    + rewrite softmax0_entry by lia.
      apply softmax_row_nth_pos. rewrite length_map. lia.
  - intros p Hp. unfold tf.softmax1.
    rewrite (nth_map_lt tf.softmax_row _ p [] []) by lia.
    rewrite softmax_row_length, Hrow by assumption.
    split; [reflexivity|]. intros Hy. apply softmax_row_sum.
    rewrite Hrow; assumption.
  - intros q Hq Hx. rewrite <- La. apply softmax0_column_sum; lia.
Qed.

Lemma build_matchings_witness :
  get_pairwise_similarity "dotproduct" = Ok pairwise_dot_product_similarity
  /\ (2 mod 2 = 0)%nat
  /\ Forall (fun h => Forall (fun r => length r = 2%nat) h)
            [[[1; 0]; [0; 1]; [1; 1]]]
  /\ exists attention : list (list (tensor * tensor)),
       build_matchings [[[1; 0]; [0; 1]; [1; 1]]] [0%nat; 1%nat; 1%nat] 2
         pairwise_dot_product_similarity = Passed attention
       /\ length attention = 1%nat.
Proof.
  assert (F : Forall (fun h => Forall (fun r => length r = 2%nat) h)
                     [[[1; 0]; [0; 1]; [1; 1]]]) by (repeat constructor).
  split; [reflexivity|]. split; [reflexivity|]. split; [exact F|].
  destruct (build_matchings_normalised 2 [[[1; 0]; [0; 1]; [1; 1]]]
              [0%nat; 1%nat; 1%nat] 2 "dotproduct"
              pairwise_dot_product_similarity eq_refl eq_refl F)
    as [attention [H1 [H2 _]]].
  exists attention. split; [exact H1 | exact H2].
Defined.

(** *** The attention is symmetric in the two graphs of a pair *)

Lemma dot_comm (u v : vec) : tf.dot u v = tf.dot v u.
Proof.
  unfold tf.dot, tf.vmul. f_equal.
  revert v; induction u as [|a u IH]; intros [|b v]; simpl; auto.
  rewrite IH. f_equal. ring.
Qed.

Lemma squared_distance_sym (u v : vec) :
  squared_distance u v = squared_distance v u.
Proof.
  unfold squared_distance. f_equal.
  revert v; induction u as [|a u IH]; intros [|b v]; simpl; auto.
  rewrite IH. f_equal. ring.
Qed.

Lemma entry_matmul_nt (x y : tensor) (p q : nat) :
  (p < length x)%nat -> (q < length y)%nat ->
  entry (tf.matmul_nt x y) p q = tf.dot (nth p x []) (nth q y []).
Proof.
  intros Hp Hq. unfold entry, tf.matmul_nt.
  rewrite (nth_map_lt _ x p [] []) by assumption.
  now rewrite (nth_map_lt _ y q 0 []) by assumption.
Qed.

(** The three similarities are symmetric: [sim(x, y)[p, q] = sim(y, x)[q, p]]. *)
Lemma similarity_symmetric (name : string) (sim : tensor -> tensor -> tensor)
    (d : nat) (x y : tensor) (p q : nat) :
  get_pairwise_similarity name = Ok sim ->
  Forall (fun u => length u = d) x ->
  Forall (fun v => length v = d) y ->
  (p < length x)%nat -> (q < length y)%nat ->
  entry (sim x y) p q = entry (sim y x) q p.
Proof.
  intros Hsim Fx Fy Hp Hq.
  unfold get_pairwise_similarity, PAIRWISE_SIMILARITY_FUNCTION, lookup in Hsim.
  destruct (String.eqb "euclidean" name).
  { injection Hsim as <-.
    rewrite (euclidean_similarity_entries d x y),
      (euclidean_similarity_entries d y x) by assumption.
    unfold entry.
    rewrite (nth_map_lt _ x p [] []), (nth_map_lt _ y q [] []) by assumption.
    rewrite (nth_map_lt _ y q 0 []), (nth_map_lt _ x p 0 []) by assumption.
    now rewrite squared_distance_sym. }
  destruct (String.eqb "dotproduct" name).
  { injection Hsim as <-. unfold pairwise_dot_product_similarity.
    rewrite !entry_matmul_nt by assumption. apply dot_comm. }
  destruct (String.eqb "cosine" name); [|discriminate].
  injection Hsim as <-. unfold pairwise_cosine_similarity.
  rewrite !entry_matmul_nt by (unfold tf.l2_normalize; now rewrite length_map).
  apply dot_comm.
Qed.

(** X2: with one of the three similarities and node states of one width,
    swapping the two graphs of a pair swaps the two attention outputs:
    what [y] receives from [x] does not depend on which of them comes
    first. *)
Theorem cross_attention_symmetric :
  forall (d : nat) (x y : tensor) (name : string)
         (sim : tensor -> tensor -> tensor),
    get_pairwise_similarity name = Ok sim ->
    Forall (fun u => length u = d) x ->
    Forall (fun v => length v = d) y ->
    compute_cross_attention y x sim
    = (snd (compute_cross_attention x y sim),
       fst (compute_cross_attention x y sim)).
Proof.
  intros d x y name sim Hsim Fx Fy.
  destruct (compute_cross_attention_rows d x y name sim Hsim Fx Fy)
    as [Lx [Ly [Rx Ry]]].
  destruct (compute_cross_attention_rows d y x name sim Hsim Fy Fx)
    as [Ly' [Lx' [Ry' Rx']]].
  assert (S1 : forall p q, (p < length x)%nat -> (q < length y)%nat ->
                           entry (sim x y) p q = entry (sim y x) q p).
  { intros. now apply (similarity_symmetric name sim d). }
  rewrite (surjective_pairing (compute_cross_attention y x sim)). f_equal.
  - apply (nth_ext _ _ [] []); [lia|]. intros q Hq. rewrite Ly' in Hq.
    rewrite Ry', Ry by assumption.
    unfold attention_x_spec, attention_y_spec. apply map_ext. intros j.
    f_equal. apply map_ext_in. intros p Hp. apply in_seq in Hp.
    unfold weight_x_to_y, weight_y_to_x.
    rewrite <- S1 by lia. do 2 f_equal. f_equal.
    apply map_ext_in. intros p' Hp'. apply in_seq in Hp'.
    now rewrite <- S1 by lia.
  - apply (nth_ext _ _ [] []); [lia|]. intros p Hp. rewrite Lx' in Hp.
    rewrite Rx', Rx by assumption.
    unfold attention_x_spec, attention_y_spec. apply map_ext. intros j.
    f_equal. apply map_ext_in. intros q Hq. apply in_seq in Hq.
    unfold weight_x_to_y, weight_y_to_x.
    rewrite S1 by lia. do 2 f_equal. f_equal.
    apply map_ext_in. intros q' Hq'. apply in_seq in Hq'.
    now rewrite S1 by lia.
Qed.

Lemma cross_attention_symmetric_witness :
  get_pairwise_similarity "euclidean" = Ok pairwise_euclidean_similarity
  /\ Forall (fun u => length u = 2%nat) [[1; 0]]
  /\ Forall (fun v => length v = 2%nat) [[0; 1]; [1; 1]]
  /\ compute_cross_attention [[0; 1]; [1; 1]] [[1; 0]]
       pairwise_euclidean_similarity
     = (snd (compute_cross_attention [[1; 0]] [[0; 1]; [1; 1]]
               pairwise_euclidean_similarity),
        fst (compute_cross_attention [[1; 0]] [[0; 1]; [1; 1]]
               pairwise_euclidean_similarity)).
Proof.
  assert (Fx : Forall (fun u => length u = 2%nat) [[1; 0]])
    by (repeat constructor).
  assert (Fy : Forall (fun v => length v = 2%nat) [[0; 1]; [1; 1]])
    by (repeat constructor).
  split; [reflexivity|]. split; [exact Fx|]. split; [exact Fy|].
  exact (cross_attention_symmetric 2 [[1; 0]] [[0; 1]; [1; 1]] "euclidean"
           pairwise_euclidean_similarity eq_refl Fx Fy).
Defined.

(** *** Attending to a graph whose nodes share one state *)

Lemma Rsum_map_weights {A : Type} (f : A -> R) (c : R) (l : list A) :
  Rsum (map (fun a => f a * c) l) = Rsum (map f l) * c.
Proof.
  induction l as [|a l IH]; simpl; [ring|]. rewrite IH. ring.
Qed.

Lemma Rsum_map_quotients {A : Type} (f : A -> R) (l : list A) :
  0 < Rsum (map f l) ->
  Rsum (map (fun a => f a / Rsum (map f l)) l) = 1.
Proof.
  intros H. unfold Rdiv. rewrite Rsum_map_weights. now field_simplify_eq; [|lra].
Qed.

Lemma Rsum_map_exp_pos {A : Type} (f : A -> R) (l : list A) :
  (0 < length l)%nat -> 0 < Rsum (map (fun a => exp (f a)) l).
Proof.
  intros H. rewrite <- (map_map f exp). apply Rsum_exp_pos.
  now rewrite length_map.
Qed.

(** X3: when the [m >= 1] nodes of [y] all have the state [v], every node of
    [x] receives exactly [v] as its attention, whatever the similarities:
    the attention weights of a node sum to one. *)
Theorem attention_to_uniform_graph :
  forall (d m : nat) (x : tensor) (v : vec) (name : string)
         (sim : tensor -> tensor -> tensor),
    get_pairwise_similarity name = Ok sim ->
    Forall (fun u => length u = d) x ->
    length v = d ->
    (0 < m)%nat ->
    fst (compute_cross_attention x (repeat v m) sim) = repeat v (length x).
Proof.
  intros d m x v name sim Hsim Fx Hv Hm.
  assert (Fy : Forall (fun u => length u = d) (repeat v m)).
  { rewrite Forall_forall. intros u Hu. apply repeat_spec in Hu. now subst. }
  destruct (compute_cross_attention_rows d x (repeat v m) name sim Hsim Fx Fy)
    as [Lx [_ [Rx _]]].
  apply (nth_ext _ _ [] []); [now rewrite repeat_length|].
  intros p Hp. rewrite Lx in Hp. rewrite Rx by assumption.
  rewrite (nth_indep _ [] v) by now rewrite repeat_length.
  rewrite nth_repeat.
  unfold attention_x_spec. rewrite repeat_length.
  transitivity (map (fun j => nth j v 0) (seq 0 d));
    [|rewrite <- Hv; apply list_eq_seq].
  apply map_ext. intros j.
  transitivity
    (Rsum (map (fun q => weight_x_to_y (sim x (repeat v m)) m p q * nth j v 0)
               (seq 0 m))).
  { f_equal. apply map_ext_in. intros q Hq. apply in_seq in Hq.
    f_equal. unfold entry.
    rewrite (nth_indep _ [] v) by (rewrite repeat_length; lia).
    now rewrite nth_repeat. }
  rewrite Rsum_map_weights. unfold weight_x_to_y.
  rewrite (Rsum_map_quotients
             (fun q => exp (entry (sim x (repeat v m)) p q)) (seq 0 m)).
  - ring.
  - apply (Rsum_map_exp_pos (fun q => entry (sim x (repeat v m)) p q)).
    now rewrite length_seq.
Qed.

Lemma attention_to_uniform_graph_witness :
  get_pairwise_similarity "cosine" = Ok pairwise_cosine_similarity
  /\ Forall (fun u => length u = 2%nat) [[1; 0]; [3; 4]]
  /\ length [1; 1] = 2%nat
  /\ (0 < 3)%nat
  /\ fst (compute_cross_attention [[1; 0]; [3; 4]] (repeat [1; 1] 3)
            pairwise_cosine_similarity)
     = repeat [1; 1] (length [[1; 0]; [3; 4]]).
Proof.
  assert (Fx : Forall (fun u => length u = 2%nat) [[1; 0]; [3; 4]])
    by (repeat constructor).
  split; [reflexivity|]. split; [exact Fx|]. split; [reflexivity|].
  split; [repeat constructor|].
  exact (attention_to_uniform_graph 2 3 [[1; 0]; [3; 4]] [1; 1] "cosine"
           pairwise_cosine_similarity eq_refl Fx eq_refl
           (Nat.lt_0_succ 2)).
Defined.

(** *** The graph aggregator, graph by graph *)

Lemma segment_rows_map (h : list R -> list R) (data : tensor)
    (ids : list nat) (g : nat) :
  tf.segment_rows (map h data) ids g = map h (tf.segment_rows data ids g).
Proof.
  unfold tf.segment_rows.
  revert ids; induction data as [|r data IH]; intros [|i ids]; simpl; auto.
  destruct (Nat.eqb i g); simpl; now rewrite IH.
Qed.

Lemma segment_rows_single_graph (data : tensor) :
  tf.segment_rows data (repeat 0%nat (length data)) 0 = data.
Proof.
  unfold tf.segment_rows.
  induction data as [|r data IH]; simpl; auto. now rewrite IH.
Qed.

(** Row [g] of a segment reduction is the reduction of the rows of [g]. *)
Lemma segment_op_row (op : segment_op) (d : nat) (data : tensor)
    (ids : list nat) (n g : nat) :
  op = tf.unsorted_segment_sum \/ op = tf.unsorted_segment_mean
  \/ op = tf.unsorted_segment_sqrt_n \/ op = tf.unsorted_segment_max ->
  (g < n)%nat ->
  nth g (op d data ids n) []
  = nth 0 (op d (tf.segment_rows data ids g)
              (repeat 0%nat (length (tf.segment_rows data ids g))) 1%nat) [].
Proof.
  intros Hop Hg.
  destruct Hop as [-> | [-> | [-> | ->]]];
    [unfold tf.unsorted_segment_sum | unfold tf.unsorted_segment_mean
     | unfold tf.unsorted_segment_sqrt_n | unfold tf.unsorted_segment_max];
    rewrite nth_map_seq by assumption; cbn [seq map nth];
    unfold tf.segment_n; now rewrite !segment_rows_single_graph.
Qed.

Lemma segment_op_length (op : segment_op) (d : nat) (data : tensor)
    (ids : list nat) (n : nat) :
  op = tf.unsorted_segment_sum \/ op = tf.unsorted_segment_mean
  \/ op = tf.unsorted_segment_sqrt_n \/ op = tf.unsorted_segment_max ->
  length (op d data ids n) = n.
Proof.
  intros [-> | [-> | [-> | ->]]];
    [unfold tf.unsorted_segment_sum | unfold tf.unsorted_segment_mean
     | unfold tf.unsorted_segment_sqrt_n | unfold tf.unsorted_segment_max];
    now rewrite length_map, length_seq.
Qed.

Lemma GraphAggregator_build_length (vs : variable_store) (hs : list nat)
    (ts : option (list nat)) (gated : bool) (aggregation_type : string)
    (self : GraphAggregator) (node_states : tensor) (graph_idx : list nat)
    (n_graphs : nat) :
  GraphAggregator_init hs ts gated aggregation_type = Ok self ->
  length (GraphAggregator_build vs self node_states graph_idx n_graphs)
  = n_graphs.
Proof.
  intros Hinit. pose proof (init_op_cases _ _ _ _ _ Hinit) as Hop.
  unfold GraphAggregator_build, GraphAggregator_transform,
    GraphAggregator_reduce.
  assert (L : length
                (if String.eqb (_aggregation_type self) "max"
                 then map (map (fun v => v * above_threshold v))
                          (_aggregation_op self (_graph_state_dim self)
                             (GraphAggregator_node_states_g vs self node_states)
                             graph_idx n_graphs)
                 else _aggregation_op self (_graph_state_dim self)
                        (GraphAggregator_node_states_g vs self node_states)
                        graph_idx n_graphs)
              = n_graphs).
  { destruct (String.eqb _ _); rewrite ?length_map;
      now apply segment_op_length. }
  destruct (_graph_transform_sizes self) as [[|? ?]|];
    rewrite ?length_map; exact L.
Qed.

(** X4: the aggregator returns one vector per graph, and the vector of
    graph [g] is the one the aggregator returns for the nodes of [g] alone,
    packed as a batch of one graph: it depends on no other graph of the
    batch. *)
Theorem GraphAggregator_graph_by_graph :
  forall (vs : variable_store) (hs : list nat) (ts : option (list nat))
         (gated : bool) (aggregation_type : string) (self : GraphAggregator)
         (node_states : tensor) (graph_idx : list nat) (n_graphs g : nat),
    GraphAggregator_init hs ts gated aggregation_type = Ok self ->
    (g < n_graphs)%nat ->
    length (GraphAggregator_build vs self node_states graph_idx n_graphs)
    = n_graphs
    /\ nth g (GraphAggregator_build vs self node_states graph_idx n_graphs) []
       = nth 0 (GraphAggregator_build vs self
                  (tf.segment_rows node_states graph_idx g)
                  (repeat 0%nat
                     (length (tf.segment_rows node_states graph_idx g)))
                  1) [].
Proof.
  intros vs hs ts gated aggregation_type self node_states graph_idx n_graphs g
         Hinit Hg.
  split; [now apply (GraphAggregator_build_length vs hs ts gated aggregation_type)|].
  pose proof (init_op_cases _ _ _ _ _ Hinit) as Hop.
  destruct (node_states_g_rowwise vs self) as [h Hh].
  assert (R : nth g (GraphAggregator_reduce vs self node_states graph_idx n_graphs) []
              = nth 0 (GraphAggregator_reduce vs self
                         (tf.segment_rows node_states graph_idx g)
                         (repeat 0%nat
                            (length (tf.segment_rows node_states graph_idx g)))
                         1) []).
  { unfold GraphAggregator_reduce. rewrite !Hh.
    pose proof (segment_op_row (_aggregation_op self) (_graph_state_dim self)
                  (map h node_states) graph_idx n_graphs g Hop Hg) as E.
    rewrite segment_rows_map, length_map in E.
    destruct (String.eqb (_aggregation_type self) "max").
    - change (@nil R) with (map (fun v => v * above_threshold v) []).
      rewrite !map_nth. now rewrite E.
    - exact E. }
  unfold GraphAggregator_build, GraphAggregator_transform.
  destruct (_graph_transform_sizes self) as [[|? ?]|]; try exact R.
  rewrite (nth_map_lt _ _ g [] []), (nth_map_lt _ _ 0 [] []).
  - now rewrite R.
  - unfold GraphAggregator_reduce.
    destruct (String.eqb _ _); rewrite ?length_map;
      rewrite segment_op_length; auto.
  - unfold GraphAggregator_reduce.
    destruct (String.eqb _ _); rewrite ?length_map;
      rewrite segment_op_length; auto.
Qed.

Lemma GraphAggregator_graph_by_graph_witness :
  GraphAggregator_init [1%nat] None true "max"
  = Ok (mkGraphAggregator [1%nat] None 1 true "max" tf.unsorted_segment_max)
  /\ (1 < 2)%nat
  /\ nth 1 (GraphAggregator_build identity_store
              (mkGraphAggregator [1%nat] None 1 true "max"
                 tf.unsorted_segment_max)
              [[1; 2]; [3; 4]; [5; 6]] [0%nat; 1%nat; 0%nat] 2) []
     = nth 0 (GraphAggregator_build identity_store
                (mkGraphAggregator [1%nat] None 1 true "max"
                   tf.unsorted_segment_max)
                [[3; 4]] [0%nat] 1) [].
Proof.
  split; [reflexivity|]. split; [repeat constructor|].
  exact (proj2 (GraphAggregator_graph_by_graph identity_store [1%nat] None true
                  "max" _ [[1; 2]; [3; 4]; [5; 6]] [0%nat; 1%nat; 0%nat] 2 1
                  eq_refl (Nat.lt_succ_diag_r 1))).
Defined.

(** *** The propagation layers of a network *)

Lemma build_layers_unshared (self : GraphEmbeddingNet) (ids : list nat) :
  _share_prop_params self = false ->
  forall layers : list GraphPropLayer,
    build_layers self ids layers = layers ++ map (_build_layer self) ids.
Proof.
  intros Hs. induction ids as [|i ids IH]; intros layers; simpl.
  - now rewrite app_nil_r.
  - rewrite Hs, orb_true_r, IH, <- app_assoc. reflexivity.
Qed.

Lemma build_layers_shared_tail (self : GraphEmbeddingNet) (ids : list nat)
    (first : GraphPropLayer) :
  _share_prop_params self = true ->
  Forall (fun i => i <> 0%nat) ids ->
  forall layers : list GraphPropLayer,
    build_layers self ids (first :: layers)
    = (first :: layers) ++ repeat first (length ids).
Proof.
  intros Hs. induction ids as [|i ids IH]; intros F layers; simpl.
  - now rewrite app_nil_r.
  - inversion F as [|? ? Hi F']; subst.
    rewrite Hs. destruct (Nat.eqb_spec i 0) as [->|_]; [congruence|].
    cbn [orb negb hd app].
    change (first :: layers ++ [first]) with (first :: (layers ++ [first])).
    rewrite (IH F' (layers ++ [first])). cbn [app].
    now rewrite <- app_assoc.
Qed.

Lemma build_layers_from_scratch (self : GraphEmbeddingNet) (m : nat) :
  build_layers self (seq 0 m) []
  = if _share_prop_params self
    then repeat (_build_layer self 0) m
    else map (_build_layer self) (seq 0 m).
Proof.
  destruct (_share_prop_params self) eqn:Hs.
  - destruct m as [|m]; [reflexivity|].
    cbn [seq build_layers Nat.eqb orb app].
    rewrite build_layers_shared_tail; [|assumption|].
    + now rewrite length_seq.
    + rewrite Forall_forall. intros i Hi. apply in_seq in Hi. lia.
  - now rewrite build_layers_unshared.
Qed.

Lemma str_injective (n m : nat) : str n = str m -> n = m.
Proof.
  unfold str. intros E. apply Unsigned.to_uint_inj.
  apply (f_equal NilEmpty.uint_of_string) in E.
  rewrite !NilEmpty.usu in E. now injection E.
Qed.

Lemma layer_names_distinct (self : GraphEmbeddingNet) (m : nat) :
  NoDup (map _name (map (_build_layer self) (seq 0 m))).
Proof.
  rewrite map_map. apply Injective_map_NoDup_in; [|apply seq_NoDup].
  intros i j _ _ E. unfold _build_layer, GraphPropLayer_init in E.
  cbn [_name String.append] in E. apply str_injective. congruence.
Qed.

Lemma forward_pass_result (vs : variable_store) (self : GraphEmbeddingNet)
    (node_features : tensor) (edge_features : option tensor)
    (from_idx to_idx graph_idx : list nat) (n_graphs : nat)
    (net : GraphEmbeddingNet) (out : tensor) :
  GraphEmbeddingNet_build vs self node_features edge_features from_idx to_idx
    graph_idx n_graphs = Ok (net, out) ->
  let layers :=
    if (Z.of_nat (length (_prop_layers self)) <? _n_prop_layers self)%Z
    then build_layers self (seq 0 (Z.to_nat (_n_prop_layers self)))
                      (_prop_layers self)
    else _prop_layers self in
  let encoded := GraphEncoder_build vs (_encoder self) node_features edge_features in
  exists (node_states : tensor) (layer_outputs : list tensor),
    apply_layers vs self layers (fst encoded) from_idx to_idx graph_idx n_graphs
      (snd encoded) [fst encoded] = Ok (node_states, layer_outputs)
    /\ net = set_layers self layers (Some layer_outputs)
    /\ out = GraphAggregator_build vs (_aggregator self) node_states graph_idx
               n_graphs.
Proof.
  unfold GraphEmbeddingNet_build. intros E. cbv zeta.
  destruct (GraphEncoder_build vs (_encoder self) node_features edge_features)
    as [nf ef].
  cbn [fst snd].
  destruct (apply_layers _ _ _ _ _ _ _ _ _ _) as [[ns outs]|e]; simpl in E;
    [|discriminate].
  injection E as <- <-. exists ns, outs. auto.
Qed.

(** X5: the first forward pass of a network builds as many layers as
    [n_prop_layers] says (none for a negative number): copies of the one
    layer [graph-prop-0] when the parameters are shared, the layers
    [graph-prop-0], [graph-prop-1], ... under pairwise distinct names when
    they are not; a later forward pass builds no layer. *)
Theorem first_forward_pass_builds_the_layers :
  forall (vs : variable_store) (self : GraphEmbeddingNet)
         (node_features : tensor) (edge_features : option tensor)
         (from_idx to_idx graph_idx : list nat) (n_graphs : nat)
         (net : GraphEmbeddingNet) (out : tensor),
    _prop_layers self = [] ->
    GraphEmbeddingNet_build vs self node_features edge_features from_idx to_idx
      graph_idx n_graphs = Ok (net, out) ->
    _prop_layers net
    = (if _share_prop_params self
       then repeat (_build_layer self 0) (Z.to_nat (_n_prop_layers self))
       else map (_build_layer self) (seq 0 (Z.to_nat (_n_prop_layers self))))
    /\ length (_prop_layers net) = Z.to_nat (_n_prop_layers self)
    /\ (_share_prop_params self = false ->
        NoDup (map _name (_prop_layers net)))
    /\ forall (node_features' : tensor) (edge_features' : option tensor)
              (from_idx' to_idx' graph_idx' : list nat) (n_graphs' : nat)
              (net' : GraphEmbeddingNet) (out' : tensor),
         GraphEmbeddingNet_build vs net node_features' edge_features' from_idx'
           to_idx' graph_idx' n_graphs' = Ok (net', out') ->
         _prop_layers net' = _prop_layers net.
Proof.
  intros vs self node_features edge_features from_idx to_idx graph_idx n_graphs
         net out Hnil Hbuild.
  destruct (forward_pass_result _ _ _ _ _ _ _ _ _ _ Hbuild)
    as [ns [outs [_ [Hnet _]]]].
  rewrite Hnil in Hnet. cbn [length] in Hnet.
  assert (Hlayers : _prop_layers net
                    = if _share_prop_params self
                      then repeat (_build_layer self 0)
                                  (Z.to_nat (_n_prop_layers self))
                      else map (_build_layer self)
                               (seq 0 (Z.to_nat (_n_prop_layers self)))).
  { rewrite Hnet. cbn [_prop_layers set_layers].
    destruct (Z.ltb_spec (Z.of_nat 0) (_n_prop_layers self)) as [Hlt|Hge].
    - apply build_layers_from_scratch.
    - replace (Z.to_nat (_n_prop_layers self)) with 0%nat by lia.
      now destruct (_share_prop_params self). }
  assert (Hlen : length (_prop_layers net) = Z.to_nat (_n_prop_layers self)).
  { rewrite Hlayers. destruct (_share_prop_params self).
    - apply repeat_length.
    - now rewrite length_map, length_seq. }
  split; [exact Hlayers|]. split; [exact Hlen|]. split.
  - intros Hs. rewrite Hlayers, Hs. apply layer_names_distinct.
  - intros node_features' edge_features' from_idx' to_idx' graph_idx' n_graphs'
           net' out' Hbuild'.
    destruct (forward_pass_result _ _ _ _ _ _ _ _ _ _ Hbuild')
      as [ns' [outs' [_ [Hnet' _]]]].
    rewrite Hnet'. cbn [_prop_layers set_layers].
    assert (Hn : _n_prop_layers net = _n_prop_layers self)
      by (rewrite Hnet; reflexivity).
    destruct (Z.ltb_spec (Z.of_nat (length (_prop_layers net)))
                         (_n_prop_layers net)) as [Hlt|_]; [lia|reflexivity].
Qed.

Lemma first_forward_pass_witness :
  exists (net : GraphEmbeddingNet) (out : tensor),
    _prop_layers five_layer_net = []
    /\ GraphEmbeddingNet_build identity_store five_layer_net [[1]] None [] []
         [0%nat] 1 = Ok (net, out)
    /\ length (_prop_layers net) = 5%nat
    /\ NoDup (map _name (_prop_layers net)).
Proof.
  destruct (GraphEmbeddingNet_build identity_store five_layer_net [[1]] None []
              [] [0%nat] 1) as [[net out]|e] eqn:Hb.
  - exists net, out. split; [reflexivity|]. split; [reflexivity|].
    destruct (first_forward_pass_builds_the_layers identity_store
                five_layer_net [[1]] None [] [] [0%nat] 1%nat net out eq_refl Hb)
      as [_ [Hlen [Hnames _]]].
    split; [exact Hlen | exact (Hnames eq_refl)].
  - exfalso. revert Hb. cbv -[Rplus Rmult Rinv IZR]. discriminate.
Defined.

(** *** The node states a forward pass records *)

Lemma GraphPropLayer_build_rows (vs : variable_store) (self : GraphPropLayer)
    (node_states : tensor) (from_idx to_idx : list nat)
    (edge_features : option tensor) (out : tensor) :
  GraphPropLayer_build vs self node_states from_idx to_idx edge_features None
  = Ok out ->
  length out = length node_states.
Proof.
  unfold GraphPropLayer_build.
  pose proof (_compute_aggregated_messages_length vs self node_states from_idx
                to_idx edge_features) as HL.
  set (agg := _compute_aggregated_messages vs self node_states from_idx to_idx
                edge_features) in *.
  clearbody agg. unfold _compute_node_update.
  destruct (String.eqb (_node_update_type self) "mlp") eqn:Emlp;
    [|destruct (String.eqb (_node_update_type self) "residual") eqn:Eres].
  - apply String.eqb_eq in Emlp. rewrite Emlp. simpl.
    intros [= <-]. destruct (_layer_norm self);
      rewrite ?length_map, map2_length; lia.
  - apply String.eqb_eq in Eres. rewrite Eres. simpl.
    intros [= <-]. unfold tf.add.
    destruct (_layer_norm self);
      rewrite map2_length, ?length_map, map2_length; lia.
  - cbn [orb]. destruct (String.eqb (_node_update_type self) "gru").
    + intros [= <-]. rewrite map2_length. lia.
    + discriminate.
Qed.

Lemma last_cons {A : Type} (l : list A) (a d : A) :
  last (a :: l) d = last l a.
Proof.
  revert a d; induction l as [|b l IH]; intros a d; [reflexivity|].
  change (last (a :: b :: l) d) with (last (b :: l) d).
  now rewrite !IH.
Qed.

Lemma apply_layers_record (vs : variable_store) (self : GraphEmbeddingNet)
    (layers : list GraphPropLayer) (from_idx to_idx graph_idx : list nat)
    (n_graphs : nat) (edge_features : option tensor) :
  forall (node_states : tensor) (layer_outputs : list tensor)
         (node_states' : tensor) (layer_outputs' : list tensor),
    apply_layers vs self layers node_states from_idx to_idx graph_idx n_graphs
      edge_features layer_outputs = Ok (node_states', layer_outputs') ->
    exists new : list tensor,
      layer_outputs' = layer_outputs ++ new
      /\ length new = length layers
      /\ node_states' = last new node_states
      /\ (_layer_class self = GraphPropLayer_class ->
          Forall (fun t => length t = length node_states) new).
Proof.
  induction layers as [|layer layers IH]; simpl;
    intros node_states layer_outputs node_states' layer_outputs' E.
  - injection E as <- <-. exists []. rewrite app_nil_r. auto.
  - destruct (_apply_layer vs self layer node_states from_idx to_idx graph_idx
                n_graphs edge_features) as [ns|e] eqn:Ea; simpl in E;
      [|discriminate].
    destruct (IH _ _ _ _ E) as [new [H1 [H2 [H3 H4]]]].
    exists (ns :: new). rewrite H1, <- app_assoc. split; [reflexivity|].
    split; [simpl; now rewrite H2|]. split.
    + rewrite H3. symmetry. apply last_cons.
    + intros Hc. unfold _apply_layer in Ea. rewrite Hc in Ea.
      apply GraphPropLayer_build_rows in Ea.
      constructor; [exact Ea|].
      specialize (H4 Hc). rewrite Ea in H4. exact H4.
Qed.

(** X6: [get_layer_outputs] raises before any forward pass; after a
    forward pass that returned, it gives the encoded node features followed
    by the node states after each layer, the last of which the aggregator
    turned into the graph vectors; in the embedding net every one of these
    tensors has one row per node of the batch. *)
Theorem forward_pass_records_layer_outputs :
  (forall encoder aggregator node_state_dim edge_hidden_sizes node_hidden_sizes
          n_prop_layers share_prop_params edge_net_init_scale node_update_type
          use_reverse_direction reverse_dir_param_different layer_norm
          similarity,
      get_layer_outputs
        (GraphEmbeddingNet_init encoder aggregator node_state_dim
           edge_hidden_sizes node_hidden_sizes n_prop_layers share_prop_params
           edge_net_init_scale node_update_type use_reverse_direction
           reverse_dir_param_different layer_norm)
      = Raise (ValueError "No layer outputs available.")
      /\ get_layer_outputs
           (GraphMatchingNet_init encoder aggregator node_state_dim
              edge_hidden_sizes node_hidden_sizes n_prop_layers
              share_prop_params edge_net_init_scale node_update_type
              use_reverse_direction reverse_dir_param_different layer_norm
              similarity)
         = Raise (ValueError "No layer outputs available."))
  /\ (forall (vs : variable_store) (self : GraphEmbeddingNet)
             (node_features : tensor) (edge_features : option tensor)
             (from_idx to_idx graph_idx : list nat) (n_graphs : nat)
             (net : GraphEmbeddingNet) (out : tensor),
        GraphEmbeddingNet_build vs self node_features edge_features from_idx
          to_idx graph_idx n_graphs = Ok (net, out) ->
        exists layer_outputs : list tensor,
          get_layer_outputs net = Ok layer_outputs
          /\ length layer_outputs = S (length (_prop_layers net))
          /\ hd [] layer_outputs
             = fst (GraphEncoder_build vs (_encoder self) node_features
                      edge_features)
          /\ out = GraphAggregator_build vs (_aggregator self)
                     (last layer_outputs []) graph_idx n_graphs
          /\ (_layer_class self = GraphPropLayer_class ->
              Forall (fun t => length t = length node_features) layer_outputs)).
Proof.
  split; [intros; split; reflexivity|].
  intros vs self node_features edge_features from_idx to_idx graph_idx n_graphs
         net out Hbuild.
  destruct (forward_pass_result _ _ _ _ _ _ _ _ _ _ Hbuild)
    as [ns [outs [Happly [Hnet Hout]]]].
  destruct (apply_layers_record _ _ _ _ _ _ _ _ _ _ _ _ Happly)
    as [new [H1 [H2 [H3 H4]]]].
  exists outs. rewrite Hnet. cbn [get_layer_outputs _layer_outputs set_layers
                                  _prop_layers].
  split; [reflexivity|]. rewrite H1.
  split; [cbn [app length]; now rewrite H2|].
  split; [reflexivity|]. split.
  - rewrite Hout, H3. f_equal. cbn [app]. now rewrite last_cons.
  - intros Hc.
    assert (Henc : length (fst (GraphEncoder_build vs (_encoder self)
                                  node_features edge_features))
                   = length node_features).
    { unfold GraphEncoder_build. cbn [fst].
      destruct (enc_node_hidden_sizes (_encoder self));
        [apply length_map | reflexivity]. }
    cbn [app]. constructor; [exact Henc|].
    specialize (H4 Hc). rewrite Henc in H4. exact H4.
Qed.

Lemma forward_pass_records_witness :
  exists (net : GraphEmbeddingNet) (out : tensor) (layer_outputs : list tensor),
    GraphEmbeddingNet_build identity_store five_layer_net [[1]; [2]] None
      [0%nat] [1%nat] [0%nat; 0%nat] 1 = Ok (net, out)
    /\ get_layer_outputs net = Ok layer_outputs
    /\ length layer_outputs = S (length (_prop_layers net))
    /\ Forall (fun t => length t = length [[1]; [2]]) layer_outputs.
Proof.
  destruct (GraphEmbeddingNet_build identity_store five_layer_net [[1]; [2]]
              None [0%nat] [1%nat] [0%nat; 0%nat] 1) as [[net out]|e] eqn:Hb.
  - destruct (proj2 forward_pass_records_layer_outputs identity_store
                five_layer_net [[1]; [2]] None [0%nat] [1%nat] [0%nat; 0%nat]
                1%nat net out Hb) as [outs [H1 [H2 [_ [_ H5]]]]].
    exists net, out, outs.
    split; [reflexivity|]. split; [exact H1|]. split; [exact H2|].
    exact (H5 eq_refl).
  - exfalso. revert Hb. cbv -[Rplus Rmult Rinv IZR]. discriminate.
Defined.

(** *** The ranges of the losses *)

Lemma tanh_bounds (x : R) : -1 < tanh x < 1.
Proof.
  pose proof (exp_pos x) as Ha. pose proof (exp_pos (- x)) as Hb.
  assert (E : tanh x * (exp x + exp (- x)) = exp x - exp (- x)).
  { unfold tanh, sinh, cosh. field. lra. }
  split; nra.
Qed.

Lemma Rsum_bounds (l : vec) :
  Forall (fun v => -1 <= v <= 1) l ->
  - INR (length l) <= Rsum l <= INR (length l).
Proof.
  induction 1 as [|v l Hv _ IH].
  - simpl. lra.
  - change (Rsum (v :: l)) with (v + Rsum l).
    change (length (v :: l)) with (S (length l)). rewrite S_INR. lra.
Qed.

Lemma Forall_map2 {A B C : Type} (P : C -> Prop) (f : A -> B -> C)
    (u : list A) (v : list B) :
  (forall a b, In a u -> In b v -> P (f a b)) -> Forall P (map2 f u v).
Proof.
  revert v; induction u as [|a u IH]; intros [|b v] H; simpl; constructor.
  - apply H; now left.
  - apply IH. intros a' b' Ha Hb. apply H; now right.
Qed.

Lemma hamming_similarity_bounds (u v : vec) :
  (0 < length u)%nat -> (0 < length v)%nat ->
  -1 <= hamming_similarity u v <= 1.
Proof.
  intros Hu Hv. unfold hamming_similarity.
  set (l := map2 (fun a b => tanh a * tanh b) u v).
  assert (Hl : (0 < length l)%nat) by (unfold l; rewrite map2_length; lia).
  assert (F : Forall (fun w => -1 <= w <= 1) l).
  { unfold l. apply Forall_map2. intros a b _ _.
    pose proof (tanh_bounds a). pose proof (tanh_bounds b). split; nra. }
  pose proof (Rsum_bounds l F) as B.
  assert (Hn : 0 < INR (length l)) by (apply lt_0_INR; exact Hl).
  split.
  - apply Rmult_le_reg_r with (INR (length l)); [exact Hn|].
    unfold Rdiv. rewrite Rmult_assoc, Rinv_l by lra. lra.
  - apply Rmult_le_reg_r with (INR (length l)); [exact Hn|].
    unfold Rdiv. rewrite Rmult_assoc, Rinv_l by lra. lra.
Qed.

Lemma pairwise_hamming_rows (x y : tensor) (labels : list Z) (margin : R) :
  pairwise_loss x y labels "hamming" margin
  = Ok (map2 (fun l s => 0.25 * (IZR l - s) ^ 2)
             labels (map2 hamming_similarity x y)).
Proof.
  unfold pairwise_loss. simpl. rewrite approximate_hamming_similarity_rows.
  unfold tf.vsub. now rewrite map2_map_l, map_map2.
Qed.

Lemma triplet_hamming_rows (x_1 y x_2 z : tensor) (margin : R) :
  triplet_loss x_1 y x_2 z "hamming" margin
  = Ok (map2 (fun s1 s2 => 0.125 * ((s1 - 1) ^ 2 + (s2 + 1) ^ 2))
             (map2 hamming_similarity x_1 y) (map2 hamming_similarity x_2 z)).
Proof.
  unfold triplet_loss. simpl. rewrite !approximate_hamming_similarity_rows.
  unfold tf.vadd. now rewrite map2_map_l, map2_map_r, map_map2.
Qed.

Lemma In_map2_hamming (x y : tensor) (s : R) :
  Forall (fun u => 0 < length u)%nat x ->
  Forall (fun v => 0 < length v)%nat y ->
  In s (map2 hamming_similarity x y) -> -1 <= s <= 1.
Proof.
  intros Fx Fy.
  assert (F : Forall (fun s => -1 <= s <= 1) (map2 hamming_similarity x y)).
  { apply Forall_map2. intros u v Hu Hv. rewrite Forall_forall in Fx, Fy.
    apply hamming_similarity_bounds; auto. }
  rewrite Forall_forall in F. apply F.
Qed.

(** X7: on representations with at least one dimension and labels [+1] or
    [-1], the Hamming loss of every pair and of every triplet lies between
    0 and 1: the factors 1/4 and 1/8 normalise the losses. *)
Theorem hamming_losses_in_unit_interval :
  forall (x y x_1 x_2 z : tensor) (labels : list Z) (margin : R),
    Forall (fun l => l = 1%Z \/ l = (-1)%Z) labels ->
    Forall (fun u => 0 < length u)%nat x ->
    Forall (fun u => 0 < length u)%nat y ->
    Forall (fun u => 0 < length u)%nat x_1 ->
    Forall (fun u => 0 < length u)%nat x_2 ->
    Forall (fun u => 0 < length u)%nat z ->
    (exists losses : vec,
        pairwise_loss x y labels "hamming" margin = Ok losses
        /\ Forall (fun v => 0 <= v <= 1) losses)
    /\ (exists losses : vec,
           triplet_loss x_1 y x_2 z "hamming" margin = Ok losses
           /\ Forall (fun v => 0 <= v <= 1) losses).
Proof.
  intros x y x_1 x_2 z labels margin Fl Fx Fy Fx1 Fx2 Fz. split.
  - rewrite pairwise_hamming_rows. eexists. split; [reflexivity|].
    apply Forall_map2. intros l s Hl Hs.
    pose proof (In_map2_hamming x y s Fx Fy Hs) as B.
    rewrite Forall_forall in Fl. destruct (Fl l Hl) as [-> | ->]; split; nra.
  - rewrite triplet_hamming_rows. eexists. split; [reflexivity|].
    apply Forall_map2. intros s1 s2 H1 H2.
    pose proof (In_map2_hamming x_1 y s1 Fx1 Fy H1) as B1.
    pose proof (In_map2_hamming x_2 z s2 Fx2 Fz H2) as B2.
    split; nra.
Qed.

Lemma hamming_losses_witness :
  Forall (fun l => l = 1%Z \/ l = (-1)%Z) [1%Z; (-1)%Z]
  /\ Forall (fun u => 0 < length u)%nat [[1; 2]; [0; 3]]
  /\ Forall (fun u => 0 < length u)%nat [[2; 1]; [1; 1]]
  /\ (exists losses : vec,
         pairwise_loss [[1; 2]; [0; 3]] [[2; 1]; [1; 1]] [1%Z; (-1)%Z]
           "hamming" 1 = Ok losses
         /\ Forall (fun v => 0 <= v <= 1) losses)
  /\ (exists losses : vec,
         triplet_loss [[1; 2]; [0; 3]] [[2; 1]; [1; 1]] [[1; 2]; [0; 3]]
           [[2; 1]; [1; 1]] "hamming" 1 = Ok losses
         /\ Forall (fun v => 0 <= v <= 1) losses).
Proof.
  assert (Fl : Forall (fun l => l = 1%Z \/ l = (-1)%Z) [1%Z; (-1)%Z]).
  { constructor; [now left|]. constructor; [now right | constructor]. }
  assert (Fx : Forall (fun u => 0 < length u)%nat [[1; 2]; [0; 3]])
    by (repeat constructor).
  assert (Fy : Forall (fun u => 0 < length u)%nat [[2; 1]; [1; 1]])
    by (repeat constructor).
  split; [exact Fl|]. split; [exact Fx|]. split; [exact Fy|].
  exact (hamming_losses_in_unit_interval [[1; 2]; [0; 3]]
           [[2; 1]; [1; 1]] [[1; 2]; [0; 3]] [[1; 2]; [0; 3]]
           [[2; 1]; [1; 1]] [1%Z; (-1)%Z] 1 Fl Fx Fy Fx Fx Fy).
Defined.

Lemma relu_zero_iff (v : R) : tf.relu v = 0 <-> v <= 0.
Proof.
  unfold tf.relu, Rmax. destruct (Rle_dec v 0); split; intros; lra.
Qed.

Lemma relu_nonneg (v : R) : 0 <= tf.relu v.
Proof. unfold tf.relu. apply Rmax_r. Qed.

Lemma pairwise_margin_rows (x y : tensor) (labels : list Z) (margin : R) :
  pairwise_loss x y labels "margin" margin
  = Ok (map2 (fun l d => tf.relu (margin - IZR l * (1 - d)))
             labels (map2 squared_distance x y)).
Proof.
  unfold pairwise_loss. simpl. rewrite euclidean_distance_rows.
  unfold tf.vmul. now rewrite map2_map_l, map2_map_r, !map_map2.
Qed.

Lemma triplet_margin_rows (x_1 y x_2 z : tensor) (margin : R) :
  triplet_loss x_1 y x_2 z "margin" margin
  = Ok (map2 (fun d1 d2 => tf.relu (margin + d1 - d2))
             (map2 squared_distance x_1 y) (map2 squared_distance x_2 z)).
Proof.
  unfold triplet_loss. simpl. rewrite !euclidean_distance_rows.
  unfold tf.vsub. now rewrite map2_map_l, map_map2.
Qed.

(** X8: the margin losses are never negative.  The loss of a pair is zero
    exactly when a similar pair ([+1]) is at squared distance at most
    [1 - margin] and a dissimilar pair ([-1]) at squared distance at least
    [1 + margin]; the loss of a triplet is zero exactly when the negative
    is farther than the positive by at least the margin. *)
Theorem margin_losses_vanish_iff :
  forall (x y x_1 x_2 z : tensor) (labels : list Z) (margin : R),
    (exists losses : vec,
        pairwise_loss x y labels "margin" margin = Ok losses
        /\ Forall (fun v => 0 <= v) losses
        /\ forall i : nat,
             (i < length losses)%nat ->
             let d := squared_distance (nth i x []) (nth i y []) in
             (nth i labels 0%Z = 1%Z ->
              (nth i losses 0 = 0 <-> d <= 1 - margin))
             /\ (nth i labels 0%Z = (-1)%Z ->
                 (nth i losses 0 = 0 <-> 1 + margin <= d)))
    /\ (exists losses : vec,
           triplet_loss x_1 y x_2 z "margin" margin = Ok losses
           /\ Forall (fun v => 0 <= v) losses
           /\ forall i : nat,
                (i < length losses)%nat ->
                (nth i losses 0 = 0
                 <-> squared_distance (nth i x_1 []) (nth i y []) + margin
                     <= squared_distance (nth i x_2 []) (nth i z []))).
Proof.
  intros x y x_1 x_2 z labels margin. split.
  - rewrite pairwise_margin_rows. eexists. split; [reflexivity|]. split.
    + apply Forall_map2. intros. apply relu_nonneg.
    + intros i Hi. rewrite !map2_length in Hi.
      rewrite (nth_map2 _ _ _ _ 0%Z 0 0) by (rewrite ?map2_length; lia).
      rewrite (nth_map2 squared_distance _ _ _ [] [] 0) by lia.
      cbv zeta. rewrite relu_zero_iff.
      split; intros ->; split; intros; lra.
  - rewrite triplet_margin_rows. eexists. split; [reflexivity|]. split.
    + apply Forall_map2. intros. apply relu_nonneg.
    + intros i Hi. rewrite !map2_length in Hi.
      rewrite (nth_map2 _ _ _ _ 0 0 0) by (rewrite ?map2_length; lia).
      rewrite !(nth_map2 squared_distance _ _ _ [] [] 0) by lia.
      rewrite relu_zero_iff. split; intros; lra.
Qed.

(** *** The similarity reported during evaluation *)

Lemma exact_hamming_similarity_rows (x y : tensor) :
  exact_hamming_similarity x y = map2 sign_agreement x y.
Proof.
  unfold exact_hamming_similarity, tf.reduce_mean. cbv zeta.
  now rewrite map_map2.
Qed.

Lemma squared_distance_nonneg (u v : vec) : 0 <= squared_distance u v.
Proof.
  unfold squared_distance.
  revert v; induction u as [|a u IH]; intros [|b v]; simpl map2;
    try (simpl; lra).
  change (0 <= (a - b) ^ 2 + Rsum (map2 (fun a b => (a - b) ^ 2) u v)).
  specialize (IH v). pose proof (pow2_ge_0 (a - b)). lra.
Qed.

Lemma squared_distance_self (u : vec) : squared_distance u u = 0.
Proof.
  unfold squared_distance. rewrite map2_diag.
  induction u as [|a u IH]; [reflexivity|].
  change (Rsum (map (fun a => (a - a) ^ 2) (a :: u)))
    with ((a - a) ^ 2 + Rsum (map (fun a => (a - a) ^ 2) u)).
  rewrite IH. ring.
Qed.

Lemma Rsum_unit_bounds (l : vec) :
  Forall (fun v => 0 <= v <= 1) l -> 0 <= Rsum l <= INR (length l).
Proof.
  induction 1 as [|v l Hv _ IH].
  - simpl. lra.
  - change (Rsum (v :: l)) with (v + Rsum l).
    change (length (v :: l)) with (S (length l)). rewrite S_INR. lra.
Qed.

Lemma sign_agreement_bounds (u v : vec) :
  (0 < length u)%nat -> (0 < length v)%nat -> 0 <= sign_agreement u v <= 1.
Proof.
  intros Hu Hv. unfold sign_agreement.
  set (l := map2 _ u v).
  assert (Hl : (0 < length l)%nat) by (unfold l; rewrite map2_length; lia).
  assert (Hb : 0 <= Rsum l <= INR (length l)).
  { apply Rsum_unit_bounds. unfold l. apply Forall_map2. intros a b _ _.
    destruct (Bool.eqb _ _); lra. }
  assert (Hn : 0 < INR (length l)) by (apply lt_0_INR; exact Hl).
  split.
  - apply Rmult_le_reg_r with (INR (length l)); [exact Hn|].
    unfold Rdiv. rewrite Rmult_assoc, Rinv_l by lra. lra.
  - apply Rmult_le_reg_r with (INR (length l)); [exact Hn|].
    unfold Rdiv. rewrite Rmult_assoc, Rinv_l by lra. lra.
Qed.

Lemma Rsum_repeat_1 (n : nat) : Rsum (repeat 1 n) = INR n.
Proof.
  induction n as [|n IH]; [reflexivity|].
  change (Rsum (repeat 1 (S n))) with (1 + Rsum (repeat 1 n)).
  rewrite IH, S_INR. ring.
Qed.

Lemma sign_agreement_self (u : vec) :
  (0 < length u)%nat -> sign_agreement u u = 1.
Proof.
  intros Hu. unfold sign_agreement. rewrite map2_diag.
  assert (E : map (fun a => if Bool.eqb (is_positive a) (is_positive a)
                            then 1 else 0) u = repeat 1 (length u)).
  { clear Hu. induction u as [|a u IH]; simpl; [reflexivity|].
    rewrite Bool.eqb_reflx. now rewrite IH. }
  rewrite E, Rsum_repeat_1, repeat_length.
  apply Rinv_r. apply not_0_INR. lia.
Qed.

Lemma map_const_repeat {A B : Type} (f : A -> B) (c : B) (l : list A) :
  (forall a, In a l -> f a = c) -> map f l = repeat c (length l).
Proof.
  induction l as [|a l IH]; intros H; simpl; [reflexivity|].
  rewrite H by now left. f_equal. apply IH. intros a' Ha. apply H. now right.
Qed.

(** X9: the similarity used for evaluation is never positive under the
    margin loss and lies between 0 and 1 under the Hamming loss (rows with
    at least one dimension); under either loss a batch compared with itself
    gets the largest value, 0 and 1 respectively, on every row. *)
Theorem compute_similarity_range :
  forall (config : config) (x y : tensor),
    (cfg_loss (cfg_training config) = "margin"%string ->
     (exists s : vec, compute_similarity config x y = Ok s
                      /\ Forall (fun v => v <= 0) s)
     /\ compute_similarity config x x = Ok (repeat 0 (length x)))
    /\ (cfg_loss (cfg_training config) = "hamming"%string ->
        Forall (fun u => 0 < length u)%nat x ->
        Forall (fun u => 0 < length u)%nat y ->
        (exists s : vec, compute_similarity config x y = Ok s
                         /\ Forall (fun v => 0 <= v <= 1) s)
        /\ compute_similarity config x x = Ok (repeat 1 (length x))).
Proof.
  intros config x y. split.
  - intros E. unfold compute_similarity. rewrite E. simpl. split.
    + eexists. split; [reflexivity|].
      rewrite euclidean_distance_rows, map_map2. apply Forall_map2.
      intros u v _ _. pose proof (squared_distance_nonneg u v). lra.
    + f_equal. rewrite euclidean_distance_rows, map2_diag, map_map.
      apply map_const_repeat. intros u _. rewrite squared_distance_self. lra.
  - intros E Fx Fy. unfold compute_similarity. rewrite E. simpl. split.
    + eexists. split; [reflexivity|].
      rewrite exact_hamming_similarity_rows. apply Forall_map2.
      intros u v Hu Hv. rewrite Forall_forall in Fx, Fy.
      apply sign_agreement_bounds; auto.
    + f_equal. rewrite exact_hamming_similarity_rows, map2_diag.
      apply map_const_repeat. intros u Hu. rewrite Forall_forall in Fx.
      apply sign_agreement_self; auto.
Qed.

Lemma compute_similarity_witness :
  let hamming_config :=
    {| cfg_encoder := cfg_encoder get_default_config;
       cfg_aggregator := cfg_aggregator get_default_config;
       cfg_graph_embedding_net := cfg_graph_embedding_net get_default_config;
       cfg_graph_matching_net := cfg_graph_matching_net get_default_config;
       cfg_model_type := cfg_model_type get_default_config;
       cfg_training :=
         {| cfg_batch_size := 20; cfg_mode := "pair"; cfg_loss := "hamming";
            cfg_margin := 1 |} |} in
  (cfg_loss (cfg_training get_default_config) = "margin"%string
   /\ (exists s : vec,
          compute_similarity get_default_config [[1; 2]; [0; 3]]
            [[2; 1]; [1; 1]] = Ok s
          /\ Forall (fun v => v <= 0) s)
   /\ compute_similarity get_default_config [[1; 2]; [0; 3]] [[1; 2]; [0; 3]]
      = Ok (repeat 0 (length [[1; 2]; [0; 3]])))
  /\ (cfg_loss (cfg_training hamming_config) = "hamming"%string
      /\ Forall (fun u => 0 < length u)%nat [[1; 2]; [0; 3]]
      /\ Forall (fun u => 0 < length u)%nat [[2; 1]; [1; 1]]
      /\ (exists s : vec,
             compute_similarity hamming_config [[1; 2]; [0; 3]]
               [[2; 1]; [1; 1]] = Ok s
             /\ Forall (fun v => 0 <= v <= 1) s)
      /\ compute_similarity hamming_config [[1; 2]; [0; 3]] [[1; 2]; [0; 3]]
         = Ok (repeat 1 (length [[1; 2]; [0; 3]]))).
Proof.
  intros hamming_config.
  assert (Fx : Forall (fun u => 0 < length u)%nat [[1; 2]; [0; 3]])
    by (repeat constructor).
  assert (Fy : Forall (fun u => 0 < length u)%nat [[2; 1]; [1; 1]])
    by (repeat constructor).
  split.
  - split; [reflexivity|].
    exact (proj1 (compute_similarity_range get_default_config
                    [[1; 2]; [0; 3]] [[2; 1]; [1; 1]]) eq_refl).
  - split; [reflexivity|]. split; [exact Fx|]. split; [exact Fy|].
    exact (proj2 (compute_similarity_range hamming_config
                    [[1; 2]; [0; 3]] [[2; 1]; [1; 1]]) eq_refl Fx Fy).
Defined.

Lemma loss_type_cases (loss_type : string) :
  loss_type = "margin"%string \/ loss_type = "hamming"%string
  \/ ((loss_type =? "margin")%string = false
      /\ (loss_type =? "hamming")%string = false).
Proof.
  destruct (String.eqb_spec loss_type "margin") as [-> | _]; [now left|].
  destruct (String.eqb_spec loss_type "hamming") as [-> | _];
    [right; now left|].
  right; right. split; reflexivity.
Qed.

(** X10: the three functions that read the loss type of the configuration
    accept the same names: the evaluation similarity is computed exactly
    when the pair loss is, and exactly when the triplet loss is; on any
    other name all three raise a [ValueError]. *)
Theorem loss_type_accepted_alike :
  forall (config : config) (x y x_1 x_2 z : tensor) (labels : list Z)
         (margin : R),
    let loss_type := cfg_loss (cfg_training config) in
    ((exists s, compute_similarity config x y = Ok s)
     /\ (exists l, pairwise_loss x y labels loss_type margin = Ok l)
     /\ (exists l, triplet_loss x_1 y x_2 z loss_type margin = Ok l))
    \/ ((exists m, compute_similarity config x y = Raise (ValueError m))
        /\ (exists m, pairwise_loss x y labels loss_type margin
                      = Raise (ValueError m))
        /\ (exists m, triplet_loss x_1 y x_2 z loss_type margin
                      = Raise (ValueError m))).
Proof.
  intros config x y x_1 x_2 z labels margin loss_type.
  unfold compute_similarity, pairwise_loss, triplet_loss.
  fold loss_type.
  destruct (loss_type_cases loss_type) as [-> | [-> | [E1 E2]]].
  - left. simpl. repeat split; eexists; reflexivity.
  - left. simpl. repeat split; eexists; reflexivity.
  - right. rewrite E1, E2. repeat split; eexists; reflexivity.
Qed.

(** *** Splitting a batch of graph vectors *)

Lemma length_concat_uniform {A : Type} (d : nat) (t : list (list A)) :
  Forall (fun r => length r = d) t -> length (concat t) = (length t * d)%nat.
Proof.
  induction 1 as [|r t Hr _ IH]; simpl; [reflexivity|].
  rewrite length_app, Hr, IH. reflexivity.
Qed.

Lemma skipn_concat_uniform {A : Type} (d : nat) (t : list (list A)) (m : nat) :
  Forall (fun r => length r = d) t ->
  skipn (m * d) (concat t) = concat (skipn m t).
Proof.
  intros F. revert m. induction F as [|r t Hr _ IH]; intros [|m]; simpl concat.
  - reflexivity.
  - simpl skipn. now rewrite skipn_nil.
  - reflexivity.
  - change (skipn (S m) (r :: t)) with (skipn m t).
    rewrite skipn_app, Hr, skipn_all2 by (rewrite Hr; simpl; lia).
    replace (S m * d - d)%nat with (m * d)%nat by (simpl; lia).
    apply IH.
Qed.

Lemma firstn_concat_head {A : Type} (d : nat) (t : list (list A)) :
  Forall (fun r => length r = d) t -> firstn d (concat t) = nth 0 t [].
Proof.
  intros [|r t' Hr _]; simpl.
  - apply firstn_nil.
  - rewrite firstn_app, Hr, Nat.sub_diag, <- Hr, firstn_all.
    simpl. apply app_nil_r.
Qed.

Lemma nth_0_skipn {A : Type} (m : nat) (t : list A) (d : A) :
  nth 0 (skipn m t) d = nth m t d.
Proof.
  revert t; induction m as [|m IH]; intros [|a t]; simpl; auto.
Qed.

Lemma Forall_skipn {A : Type} (P : A -> Prop) (m : nat) (t : list A) :
  Forall P t -> Forall P (skipn m t).
Proof.
  revert t; induction m as [|m IH]; intros t F; [exact F|].
  destruct F; simpl; [constructor | now apply IH].
Qed.

Lemma rows_of_length (n width : nat) (entries : vec) :
  length (rows_of n width entries) = n.
Proof.
  revert entries; induction n as [|n IH]; intros e; simpl; [reflexivity|].
  now rewrite IH.
Qed.

Lemma rows_of_nth (n width : nat) (entries : vec) (i : nat) :
  (i < n)%nat ->
  nth i (rows_of n width entries) [] = firstn width (skipn (i * width) entries).
Proof.
  revert entries i; induction n as [|n IH]; intros e [|i] Hi; try lia.
  - reflexivity.
  - change (nth (S i) (rows_of (S n) width e) [])
      with (nth i (rows_of n width (skipn width e)) []).
    rewrite IH by lia. rewrite skipn_skipn.
    replace (i * width + width)%nat with (S i * width)%nat by (simpl; lia).
    reflexivity.
Qed.

Lemma firstn_skipn_firstn {A : Type} (a b w : nat) (l : list A) :
  (a + b <= w)%nat ->
  firstn b (skipn a (firstn w l)) = firstn b (skipn a l).
Proof.
  intros H. rewrite skipn_firstn_comm, firstn_firstn.
  now replace (Nat.min b (w - a)) with b by lia.
Qed.

Lemma reshape_width (feature_dim n_splits : nat) (t : tensor) :
  (0 < feature_dim)%nat -> (0 < n_splits)%nat ->
  Forall (fun r => length r = feature_dim) t ->
  reshape (feature_dim * n_splits) t
  = if (feature_dim * (length t mod n_splits) =? 0)%nat
    then Some (rows_of (length t * feature_dim / (feature_dim * n_splits))
                       (feature_dim * n_splits) (concat t))
    else None.
Proof.
  intros Hfd Hns F. unfold reshape. cbv zeta.
  assert (Hw : (feature_dim * n_splits =? 0)%nat = false)
    by (apply Nat.eqb_neq; nia).
  rewrite Hw, (length_concat_uniform feature_dim t F).
  replace (length t * feature_dim mod (feature_dim * n_splits))%nat
    with (feature_dim * (length t mod n_splits))%nat; [reflexivity|].
  rewrite <- Nat.Div0.mul_mod_distr_l. f_equal. lia.
Qed.

Lemma reshape_and_split_tensor_rows :
  forall (feature_dim n_splits k : nat) (t : tensor),
    (0 < feature_dim)%nat -> (0 < n_splits)%nat ->
    Forall (fun r => length r = feature_dim) t ->
    length t = (k * n_splits)%nat ->
    exists splits : list tensor,
      reshape_and_split_tensor feature_dim t n_splits = Some splits
      /\ length splits = n_splits
      /\ forall j : nat,
           (j < n_splits)%nat ->
           length (nth j splits []) = k
           /\ forall i : nat,
                (i < k)%nat ->
                nth i (nth j splits []) [] = nth (i * n_splits + j) t [].
Proof.
  intros fd ns k t Hfd Hns F Hk.
  unfold reshape_and_split_tensor. rewrite (reshape_width fd ns t Hfd Hns F).
  rewrite Hk, Nat.Div0.mod_mul, Nat.mul_0_r, Nat.eqb_refl.
  replace (k * ns * fd)%nat with (k * (fd * ns))%nat by lia.
  rewrite Nat.div_mul by nia.
  eexists. split; [reflexivity|]. unfold split_last. split.
  - now rewrite length_map, length_seq.
  - intros j Hj. rewrite nth_map_seq by exact Hj. split.
    + now rewrite length_map, rows_of_length.
    + intros i Hi.
      rewrite (nth_map_lt _ _ _ _ []) by (rewrite rows_of_length; exact Hi).
      rewrite rows_of_nth by exact Hi.
      rewrite firstn_skipn_firstn by nia.
      rewrite skipn_skipn.
      replace (j * fd + i * (fd * ns))%nat with ((i * ns + j) * fd)%nat
        by lia.
      rewrite skipn_concat_uniform by exact F.
      rewrite firstn_concat_head by (apply Forall_skipn; exact F).
      apply nth_0_skipn.
Qed.

(** X11: on a tensor of [k * n_splits] rows of [feature_dim] entries,
    [reshape_and_split_tensor] returns [n_splits] tensors of [k] rows, and
    row [i] of split [j] is row [i * n_splits + j] of the input; when the
    number of rows is not a multiple of [n_splits] the reshape is
    rejected. *)
Theorem reshape_and_split_tensor_interleaves :
  forall (feature_dim n_splits k : nat) (t : tensor),
    (0 < feature_dim)%nat -> (0 < n_splits)%nat ->
    Forall (fun r => length r = feature_dim) t ->
    (length t = (k * n_splits)%nat ->
     exists splits : list tensor,
       reshape_and_split_tensor feature_dim t n_splits = Some splits
       /\ length splits = n_splits
       /\ forall j : nat,
            (j < n_splits)%nat ->
            length (nth j splits []) = k
            /\ forall i : nat,
                 (i < k)%nat ->
                 nth i (nth j splits []) [] = nth (i * n_splits + j) t [])
    /\ (length t mod n_splits <> 0%nat ->
        reshape_and_split_tensor feature_dim t n_splits = None).
Proof.
  intros fd ns k t Hfd Hns F. split.
  - now apply reshape_and_split_tensor_rows.
  - intros Hm. unfold reshape_and_split_tensor.
    rewrite (reshape_width fd ns t Hfd Hns F).
    assert (E : (fd * (length t mod ns) =? 0)%nat = false)
      by (apply Nat.eqb_neq; nia).
    now rewrite E.
Qed.

Lemma reshape_and_split_tensor_witness :
  ((0 < 2)%nat /\ (0 < 2)%nat
   /\ Forall (fun r => length r = 2%nat) [[1; 2]; [3; 4]; [5; 6]; [7; 8]]
   /\ length [[1; 2]; [3; 4]; [5; 6]; [7; 8]] = (2 * 2)%nat
   /\ exists splits : list tensor,
        reshape_and_split_tensor 2 [[1; 2]; [3; 4]; [5; 6]; [7; 8]] 2
        = Some splits
        /\ length splits = 2%nat
        /\ forall j : nat,
             (j < 2)%nat ->
             length (nth j splits []) = 2%nat
             /\ forall i : nat,
                  (i < 2)%nat ->
                  nth i (nth j splits []) []
                  = nth (i * 2 + j) [[1; 2]; [3; 4]; [5; 6]; [7; 8]] [])
  /\ (Forall (fun r => length r = 2%nat) [[1; 2]; [3; 4]; [5; 6]]
      /\ (length [[1; 2]; [3; 4]; [5; 6]] mod 2 <> 0)%nat
      /\ reshape_and_split_tensor 2 [[1; 2]; [3; 4]; [5; 6]] 2 = None).
Proof.
  assert (F : Forall (fun r => length r = 2%nat)
                     [[1; 2]; [3; 4]; [5; 6]; [7; 8]])
    by (repeat constructor).
  assert (F' : Forall (fun r => length r = 2%nat) [[1; 2]; [3; 4]; [5; 6]])
    by (repeat constructor).
  assert (N : (length [[1; 2]; [3; 4]; [5; 6]] mod 2 <> 0)%nat)
    by (vm_compute; discriminate).
  split.
  - split; [lia|]. split; [lia|]. split; [exact F|]. split; [reflexivity|].
    exact (proj1 (reshape_and_split_tensor_interleaves 2 2 2
                    [[1; 2]; [3; 4]; [5; 6]; [7; 8]]
                    (Nat.lt_0_succ 1) (Nat.lt_0_succ 1) F) eq_refl).
  - split; [exact F'|]. split; [exact N|].
    exact (proj2 (reshape_and_split_tensor_interleaves 2 2 0
                    [[1; 2]; [3; 4]; [5; 6]]
                    (Nat.lt_0_succ 1) (Nat.lt_0_succ 1) F') N).
Defined.

(** *** The training batch through the model *)

Lemma build_layers_update_type (self : GraphEmbeddingNet) (m : nat) :
  Forall (fun layer => _node_update_type layer = net_node_update_type self)
         (build_layers self (seq 0 m) []).
Proof.
  rewrite build_layers_from_scratch. destruct (_share_prop_params self).
  - rewrite Forall_forall. intros layer Hl. apply repeat_spec in Hl.
    now subst layer.
  - rewrite Forall_forall. intros layer Hl. apply in_map_iff in Hl.
    destruct Hl as [i [<- _]]. reflexivity.
Qed.

Lemma first_forward_pass_returns (vs : variable_store)
    (self : GraphEmbeddingNet) (node_features : tensor)
    (edge_features : option tensor) (from_idx to_idx graph_idx : list nat)
    (n_graphs : nat) :
  _prop_layers self = [] ->
  In (net_node_update_type self) ["mlp"; "residual"; "gru"]%string ->
  (_layer_class self = GraphPropMatchingLayer_class ->
   (n_graphs mod 2 = 0)%nat
   /\ exists sim, get_pairwise_similarity (_similarity self) = Ok sim) ->
  exists (net : GraphEmbeddingNet) (node_states : tensor),
    GraphEmbeddingNet_build vs self node_features edge_features from_idx to_idx
      graph_idx n_graphs
    = Ok (net, GraphAggregator_build vs (_aggregator self) node_states
                 graph_idx n_graphs).
Proof.
  intros Hnil Hty Hmatch. unfold GraphEmbeddingNet_build. rewrite Hnil.
  set (layers := if (Z.of_nat (length (@nil GraphPropLayer))
                     <? _n_prop_layers self)%Z
                 then build_layers self
                        (seq 0 (Z.to_nat (_n_prop_layers self))) []
                 else []).
  assert (Hl : Forall (fun layer =>
                         In (_node_update_type layer)
                            ["mlp"; "residual"; "gru"]%string) layers).
  { unfold layers. destruct (_ <? _)%Z; [|constructor].
    eapply Forall_impl; [|apply build_layers_update_type].
    intros layer ->. exact Hty. }
  destruct (GraphEncoder_build vs (_encoder self) node_features edge_features)
    as [nf ef].
  destruct (apply_layers_returns vs self layers from_idx to_idx graph_idx
              n_graphs ef Hl Hmatch nf [nf]) as [[ns outs] ->].
  simpl. eexists. exists ns. reflexivity.
Qed.

Lemma build_model_cases (config : config) (model : GraphEmbeddingNet)
    (n_graphs : nat) :
  build_model config = Ok (model, n_graphs) ->
  (exists aggregator : GraphAggregator,
      GraphAggregator_init (cfg_agg_node_hidden_sizes (cfg_aggregator config))
        (cfg_graph_transform_sizes (cfg_aggregator config))
        (cfg_gated (cfg_aggregator config))
        (cfg_aggregation_type (cfg_aggregator config)) = Ok aggregator
      /\ _aggregator model = aggregator)
  /\ _prop_layers model = []
  /\ ((cfg_model_type config = "embedding"%string
       /\ _layer_class model = GraphPropLayer_class
       /\ net_node_update_type model
          = cfg_node_update_type (cfg_graph_embedding_net config))
      \/ (cfg_model_type config = "matching"%string
          /\ _layer_class model = GraphPropMatchingLayer_class
          /\ _similarity model = cfg_similarity (cfg_graph_matching_net config)
          /\ net_node_update_type model
             = cfg_node_update_type (cfg_graph_matching_net config)))
  /\ ((cfg_mode (cfg_training config) = "pair"%string
       /\ n_graphs = (cfg_batch_size (cfg_training config) * 2)%nat)
      \/ (cfg_mode (cfg_training config) = "triplet"%string
          /\ n_graphs = (cfg_batch_size (cfg_training config) * 4)%nat)).
Proof.
  unfold build_model.
  destruct (GraphAggregator_init _ _ _ _) as [aggregator|e]; [|discriminate].
  cbn [bind].
  destruct (String.eqb_spec (cfg_model_type config) "embedding") as [Em|_].
  - cbn [bind].
    destruct (String.eqb_spec (cfg_mode (cfg_training config)) "pair")
      as [Ep|_].
    + intros [= <- <-]. split; [now exists aggregator|].
      split; [reflexivity|]. split; [left; now repeat split|].
      left. now split.
    + destruct (String.eqb_spec (cfg_mode (cfg_training config)) "triplet")
        as [Et|_]; [|discriminate].
      intros [= <- <-]. split; [now exists aggregator|].
      split; [reflexivity|]. split; [left; now repeat split|].
      right. now split.
  - destruct (String.eqb_spec (cfg_model_type config) "matching") as [Em|_];
      [|discriminate].
    cbn [bind].
    destruct (String.eqb_spec (cfg_mode (cfg_training config)) "pair")
      as [Ep|_].
    + intros [= <- <-]. split; [now exists aggregator|].
      split; [reflexivity|]. split; [right; now repeat split|].
      left. now split.
    + destruct (String.eqb_spec (cfg_mode (cfg_training config)) "triplet")
        as [Et|_]; [|discriminate].
      intros [= <- <-]. split; [now exists aggregator|].
      split; [reflexivity|]. split; [right; now repeat split|].
      right. now split.
Qed.

(** X12: the model and the batch size returned by [build_model] fit
    together.  On a well-formed batch of that many graphs the forward pass
    of the fresh model returns (for a known node update type, and a known
    similarity in a matching model) one vector per graph, an even number
    of them, and [reshape_and_split_tensor] cuts these vectors into 2
    (pair mode) or 4 (triplet mode) tensors of [batch_size] rows each. *)
Theorem training_batch_through_model :
  forall (vs : variable_store) (config : config) (model : GraphEmbeddingNet)
         (n_graphs : nat) (node_features : tensor)
         (edge_features : option tensor) (from_idx to_idx graph_idx : list nat),
    build_model config = Ok (model, n_graphs) ->
    In (net_node_update_type model) ["mlp"; "residual"; "gru"]%string ->
    (cfg_model_type config = "matching"%string ->
     exists sim,
       get_pairwise_similarity (cfg_similarity (cfg_graph_matching_net config))
       = Ok sim) ->
    length from_idx = length to_idx ->
    Forall (fun i => i < length node_features)%nat from_idx ->
    Forall (fun i => i < length node_features)%nat to_idx ->
    length graph_idx = length node_features ->
    Forall (fun g => g < n_graphs)%nat graph_idx ->
    exists (net : GraphEmbeddingNet) (out : tensor),
      GraphEmbeddingNet_build vs model node_features edge_features from_idx
        to_idx graph_idx n_graphs = Ok (net, out)
      /\ length out = n_graphs
      /\ (n_graphs mod 2 = 0)%nat
      /\ forall d : nat,
           (0 < d)%nat -> Forall (fun r => length r = d) out ->
           let n_splits :=
             if String.eqb (cfg_mode (cfg_training config)) "pair"
             then 2%nat else 4%nat in
           exists splits : list tensor,
             reshape_and_split_tensor d out n_splits = Some splits
             /\ length splits = n_splits
             /\ Forall (fun s => length s = cfg_batch_size (cfg_training config))
                       splits.
Proof.
  intros vs config model n_graphs node_features edge_features from_idx to_idx
         graph_idx Hbuild Hty Hsim _ _ _ _ _.
  destruct (build_model_cases config model n_graphs Hbuild)
    as [[aggregator [Hinit Hagg]] [Hnil [Hclass Hmode]]].
  assert (Heven : (n_graphs mod 2 = 0)%nat).
  { destruct Hmode as [[_ ->] | [_ ->]].
    - apply Nat.Div0.mod_mul.
    - replace (cfg_batch_size (cfg_training config) * 4)%nat
        with (cfg_batch_size (cfg_training config) * 2 * 2)%nat by lia.
      apply Nat.Div0.mod_mul. }
  assert (Hmatch : _layer_class model = GraphPropMatchingLayer_class ->
                   (n_graphs mod 2 = 0)%nat
                   /\ exists sim,
                        get_pairwise_similarity (_similarity model) = Ok sim).
  { intros Hc. split; [exact Heven|].
    destruct Hclass as [[_ [Hc' _]] | [Em [_ [-> _]]]].
    - rewrite Hc in Hc'. discriminate.
    - apply Hsim, Em. }
  destruct (first_forward_pass_returns vs model node_features edge_features
              from_idx to_idx graph_idx n_graphs Hnil Hty Hmatch)
    as [net [node_states Hpass]].
  exists net. eexists. split; [exact Hpass|].
  assert (Hlen : length (GraphAggregator_build vs (_aggregator model)
                           node_states graph_idx n_graphs) = n_graphs).
  { rewrite Hagg. eapply GraphAggregator_build_length. exact Hinit. }
  split; [exact Hlen|]. split; [exact Heven|].
  intros d Hd Hrows n_splits.
  assert (Hs : (0 < n_splits)%nat
               /\ n_graphs
                  = (cfg_batch_size (cfg_training config) * n_splits)%nat).
  { unfold n_splits. destruct Hmode as [[-> ->] | [-> ->]]; simpl; lia. }
  destruct Hs as [Hpos Hn].
  destruct (reshape_and_split_tensor_rows d n_splits
              (cfg_batch_size (cfg_training config)) _ Hd Hpos Hrows)
    as [splits [Hsplit [Hlens Hrow]]].
  { now rewrite Hlen. }
  exists splits. split; [exact Hsplit|]. split; [exact Hlens|].
  rewrite Forall_forall. intros s Hin.
  destruct (In_nth _ _ [] Hin) as [j [Hj <-]].
  apply Hrow. now rewrite <- Hlens.
Qed.

Lemma GraphAggregator_build_width (vs : variable_store)
    (self : GraphAggregator) (node_states : tensor) (graph_idx : list nat)
    (n_graphs d size : nat) (sizes : list nat) :
  _graph_transform_sizes self = Some (size :: sizes) ->
  (forall v : vec, length (graph_transform_mlp vs v) = d) ->
  Forall (fun r => length r = d)
         (GraphAggregator_build vs self node_states graph_idx n_graphs).
Proof.
  intros Hts Hd. unfold GraphAggregator_build, GraphAggregator_transform.
  rewrite Hts. rewrite Forall_forall. intros r Hr.
  apply in_map_iff in Hr. destruct Hr as [v [<- _]]. apply Hd.
Qed.

Lemma training_batch_witness :
  let config :=
    {| cfg_encoder := cfg_encoder get_default_config;
       cfg_aggregator := cfg_aggregator get_default_config;
       cfg_graph_embedding_net := cfg_graph_embedding_net get_default_config;
       cfg_graph_matching_net := cfg_graph_matching_net get_default_config;
       cfg_model_type := cfg_model_type get_default_config;
       cfg_training :=
         {| cfg_batch_size := 1; cfg_mode := "pair"; cfg_loss := "margin";
            cfg_margin := 1 |} |} in
  let node_features := [[1; 1]; [1; 1]; [1; 1]; [1; 1]] in
  let edge_features := Some [[1; 1]; [1; 1]] in
  let from_idx := [0; 2]%nat in
  let to_idx := [1; 3]%nat in
  let graph_idx := [0; 0; 1; 1]%nat in
  exists (model : GraphEmbeddingNet),
    build_model config = Ok (model, 2%nat)
    /\ In (net_node_update_type model) ["mlp"; "residual"; "gru"]%string
    /\ (exists sim,
           get_pairwise_similarity
             (cfg_similarity (cfg_graph_matching_net config)) = Ok sim)
    /\ length from_idx = length to_idx
    /\ Forall (fun i => i < length node_features)%nat from_idx
    /\ Forall (fun i => i < length node_features)%nat to_idx
    /\ length graph_idx = length node_features
    /\ Forall (fun g => g < 2)%nat graph_idx
    /\ exists (net : GraphEmbeddingNet) (out : tensor) (splits : list tensor),
         GraphEmbeddingNet_build sized_store model node_features edge_features
           from_idx to_idx graph_idx 2 = Ok (net, out)
         /\ length out = 2%nat
         /\ (0 < 128)%nat
         /\ Forall (fun r => length r = 128%nat) out
         /\ reshape_and_split_tensor 128 out 2 = Some splits
         /\ length splits = 2%nat
         /\ Forall (fun s => length s = 1%nat) splits.
Proof.
  intros config node_features edge_features from_idx to_idx graph_idx.
  destruct (build_model config) as [[model n_graphs]|e] eqn:Hb;
    [|exfalso; revert Hb; cbv -[Rplus Rmult Rinv IZR]; discriminate].
  assert (Hm : net_node_update_type model = "gru"%string
               /\ n_graphs = 2%nat
               /\ _graph_transform_sizes (_aggregator model)
                  = Some [128%nat]).
  { revert Hb. cbv -[Rplus Rmult Rinv IZR]. intros [= <- <-].
    repeat split. }
  destruct Hm as [Hty [Hn Hts]]. subst n_graphs.
  assert (Hin : In (net_node_update_type model)
                   ["mlp"; "residual"; "gru"]%string)
    by (rewrite Hty; simpl; auto).
  assert (Hsim : exists sim,
             get_pairwise_similarity
               (cfg_similarity (cfg_graph_matching_net config)) = Ok sim)
    by (eexists; reflexivity).
  assert (Hfrom : Forall (fun i => i < length node_features)%nat from_idx)
    by (repeat constructor).
  assert (Hto : Forall (fun i => i < length node_features)%nat to_idx)
    by (repeat constructor).
  assert (Hg : Forall (fun g => g < 2)%nat graph_idx)
    by (repeat constructor).
  exists model. split; [reflexivity|]. split; [exact Hin|].
  split; [exact Hsim|]. split; [reflexivity|]. split; [exact Hfrom|].
  split; [exact Hto|]. split; [reflexivity|]. split; [exact Hg|].
  destruct (training_batch_through_model sized_store config model 2
              node_features edge_features from_idx to_idx graph_idx Hb Hin
              (fun _ => Hsim) eq_refl Hfrom Hto eq_refl Hg)
    as [net [out [Hpass [Hlen [_ Hsplit]]]]].
  assert (Hwidth : Forall (fun r => length r = 128%nat) out).
  { destruct (forward_pass_result _ _ _ _ _ _ _ _ _ _ Hpass)
      as [node_states [layer_outputs [_ [_ ->]]]].
    apply (GraphAggregator_build_width sized_store (_aggregator model)
             node_states graph_idx 2 128 128 [] Hts).
    intros v. reflexivity. }
  destruct (Hsplit 128%nat (Nat.lt_0_succ 127) Hwidth)
    as [splits [Hs [Hl Hrows]]].
  exists net, out, splits.
  split; [exact Hpass|]. split; [exact Hlen|].
  split; [apply Nat.lt_0_succ|]. split; [exact Hwidth|].
  split; [exact Hs|]. split; [exact Hl | exact Hrows].
Defined.

(** *** Packing a batch of graphs *)

Lemma _pack_batch_loop_ok (gs : list nx_graph) :
  Forall (fun g => edges g <> []) gs ->
  forall (i : nat) (F T G : list (list nat)) (n e : nat),
    _pack_batch_loop gs i F T G n e
    = Ok (F ++ shifted_endpoints fst gs n, T ++ shifted_endpoints snd gs n,
          G ++ graph_ids gs i,
          (n + list_sum (map number_of_nodes gs))%nat,
          (e + list_sum (map number_of_edges gs))%nat).
Proof.
  induction 1 as [|g gs Hg _ IH]; intros i F T G n e.
  - simpl. now rewrite !app_nil_r, !Nat.add_0_r.
  - cbn [_pack_batch_loop]. destruct (edges g) as [|e0 es] eqn:E;
      [contradiction|].
    rewrite IH. cbn [shifted_endpoints graph_ids].
    change (list_sum (map number_of_nodes (g :: gs)))
      with (number_of_nodes g + list_sum (map number_of_nodes gs))%nat.
    change (list_sum (map number_of_edges (g :: gs)))
      with (number_of_edges g + list_sum (map number_of_edges gs))%nat.
    rewrite E, <- !app_assoc, !Nat.add_assoc. reflexivity.
Qed.

Lemma _pack_batch_loop_raises (gs : list nx_graph) :
  Exists (fun g => edges g = []) gs ->
  forall (i : nat) (F T G : list (list nat)) (n e : nat),
    _pack_batch_loop gs i F T G n e
    = Raise (IndexError "too many indices for array").
Proof.
  induction gs as [|g gs IH]; intros Hex i F T G n e.
  - inversion Hex.
  - cbn [_pack_batch_loop]. destruct (edges g) as [|e0 es] eqn:E;
      [reflexivity|].
    apply IH. inversion Hex as [? ? H0|? ? H0]; subst; [congruence|exact H0].
Qed.

Lemma shifted_endpoints_length (sel sel' : nat * nat -> nat)
    (gs : list nx_graph) (off : nat) :
  length (concat (shifted_endpoints sel gs off))
  = list_sum (map number_of_edges gs)
  /\ length (concat (shifted_endpoints sel gs off))
     = length (concat (shifted_endpoints sel' gs off)).
Proof.
  revert off; induction gs as [|g gs IH]; intros off; simpl; [auto|].
  rewrite !length_app, !length_map.
  destruct (IH (off + number_of_nodes g)%nat) as [-> <-]. auto.
Qed.

Lemma graph_ids_length (gs : list nx_graph) (i : nat) :
  length (concat (graph_ids gs i)) = list_sum (map number_of_nodes gs).
Proof.
  revert i; induction gs as [|g gs IH]; intros i; simpl; [reflexivity|].
  now rewrite length_app, repeat_length, IH.
Qed.

Lemma graph_ids_range (gs : list nx_graph) (i : nat) :
  Forall (fun k => i <= k < i + length gs)%nat (concat (graph_ids gs i)).
Proof.
  revert i; induction gs as [|g gs IH]; intros i; simpl; [constructor|].
  apply Forall_app. split.
  - rewrite Forall_forall. intros k Hk. apply repeat_spec in Hk. lia.
  - eapply Forall_impl; [|apply IH]. intros k Hk. simpl in Hk. lia.
Qed.

Lemma StronglySorted_app_le (l1 l2 : list nat) :
  StronglySorted le l1 -> StronglySorted le l2 ->
  (forall a b, In a l1 -> In b l2 -> a <= b)%nat ->
  StronglySorted le (l1 ++ l2).
Proof.
  induction 1 as [|a l1 Hs IH Ha]; intros H2 Hle; simpl; [exact H2|].
  constructor.
  - apply IH; [exact H2|]. intros x y Hx Hy. apply Hle; [now right|exact Hy].
  - apply Forall_app. split; [exact Ha|].
    rewrite Forall_forall. intros y Hy. apply Hle; [now left|exact Hy].
Qed.

Lemma StronglySorted_repeat (i n : nat) : StronglySorted le (repeat i n).
Proof.
  induction n as [|n IH]; simpl; constructor; [exact IH|].
  rewrite Forall_forall. intros k Hk. apply repeat_spec in Hk. lia.
Qed.

Lemma graph_ids_sorted (gs : list nx_graph) (i : nat) :
  StronglySorted le (concat (graph_ids gs i)).
Proof.
  revert i; induction gs as [|g gs IH]; intros i; simpl; [constructor|].
  apply StronglySorted_app_le; [apply StronglySorted_repeat | apply IH |].
  intros a b Ha Hb. apply repeat_spec in Ha. subst a.
  pose proof (graph_ids_range gs (S i)) as R. rewrite Forall_forall in R.
  specialize (R b Hb). lia.
Qed.

Lemma count_occ_repeat (i k n : nat) :
  count_occ Nat.eq_dec (repeat i n) k = if Nat.eq_dec i k then n else 0%nat.
Proof.
  induction n as [|n IH]; simpl.
  - now destruct (Nat.eq_dec i k).
  - destruct (Nat.eq_dec i k); rewrite IH; reflexivity.
Qed.

Lemma graph_ids_count (gs : list nx_graph) (i k : nat) (g0 : nx_graph) :
  (k < length gs)%nat ->
  count_occ Nat.eq_dec (concat (graph_ids gs i)) (i + k)%nat
  = number_of_nodes (nth k gs g0).
Proof.
  revert i k; induction gs as [|g gs IH]; intros i k Hk; simpl in Hk; [lia|].
  cbn [graph_ids concat]. rewrite count_occ_app, count_occ_repeat.
  destruct k as [|k].
  - rewrite Nat.add_0_r. destruct (Nat.eq_dec i i) as [_|N]; [|contradiction].
    rewrite (proj1 (count_occ_not_In Nat.eq_dec _ i)); [simpl; lia|].
    intros Hin. pose proof (graph_ids_range gs (S i)) as R.
    rewrite Forall_forall in R. specialize (R i Hin). lia.
  - destruct (Nat.eq_dec i (i + S k)) as [E|_]; [lia|].
    replace (i + S k)%nat with (S i + k)%nat by lia.
    rewrite IH by lia. reflexivity.
Qed.

Lemma shifted_endpoints_range (sel : nat * nat -> nat) (gs : list nx_graph)
    (off : nat) :
  Forall (fun g => Forall (fun e => sel e < number_of_nodes g)%nat (edges g))
         gs ->
  Forall (fun a => off <= a < off + list_sum (map number_of_nodes gs))%nat
         (concat (shifted_endpoints sel gs off)).
Proof.
  intros H. revert off; induction H as [|g gs Hg _ IH]; intros off; simpl;
    [constructor|].
  apply Forall_app. split.
  - rewrite Forall_forall. intros a Ha. apply in_map_iff in Ha.
    destruct Ha as [e [<- He]]. rewrite Forall_forall in Hg.
    specialize (Hg e He). lia.
  - eapply Forall_impl; [|apply IH]. intros a Ha. simpl in Ha. lia.
Qed.

Lemma Forall2_app_both {A B : Type} (P : A -> B -> Prop) (l1 l2 : list A)
    (m1 m2 : list B) :
  Forall2 P l1 m1 -> Forall2 P l2 m2 -> Forall2 P (l1 ++ l2) (m1 ++ m2).
Proof. induction 1; simpl; auto. Qed.

Lemma edges_inside_graphs (gs : list nx_graph) :
  Forall (fun g => Forall (fun e => fst e < number_of_nodes g
                                     /\ snd e < number_of_nodes g)%nat
                          (edges g)) gs ->
  forall (i : nat) (P : list nat),
    Forall2 (fun a b => nth a (P ++ concat (graph_ids gs i)) 0%nat
                        = nth b (P ++ concat (graph_ids gs i)) 0%nat)
            (concat (shifted_endpoints fst gs (length P)))
            (concat (shifted_endpoints snd gs (length P))).
Proof.
  induction 1 as [|g gs Hg _ IH]; intros i P; simpl; [constructor|].
  apply Forall2_app_both.
  - clear IH. induction Hg as [|e es [He1 He2] _ IHe]; simpl; constructor.
    + rewrite !(Nat.add_comm _ (length P)), !app_nth2_plus.
      rewrite !app_nth1 by now rewrite repeat_length.
      rewrite !(nth_indep _ 0%nat i) by now rewrite repeat_length.
      now rewrite !nth_repeat.
    + exact IHe.
  - specialize (IH (S i) (P ++ repeat i (number_of_nodes g))).
    rewrite length_app, repeat_length, <- app_assoc in IH. exact IH.
Qed.

Lemma np_concatenate_ones (n : nat) :
  map2 (@app R) (np_ones n 1) (np_ones n 1) = repeat [1; 1] n.
Proof.
  unfold np_ones. induction n as [|n IH]; [reflexivity|].
  cbn [repeat map2 app]. f_equal. exact IH.
Qed.

Lemma np_concatenate_nonempty {A : Type} (arrays : list (list A)) :
  arrays <> [] -> np_concatenate arrays = Ok (concat arrays).
Proof. destruct arrays; [contradiction | reflexivity]. Qed.

Lemma shifted_endpoints_nonempty (sel : nat * nat -> nat) (gs : list nx_graph)
    (off : nat) :
  gs <> [] -> shifted_endpoints sel gs off <> [].
Proof. destruct gs; [contradiction | discriminate]. Qed.

Lemma graph_ids_nonempty (gs : list nx_graph) (i : nat) :
  gs <> [] -> graph_ids gs i <> [].
Proof. destruct gs; [contradiction | discriminate]. Qed.

Lemma _pack_batch_packed (graphs : list (list nx_graph)) :
  concat graphs <> [] ->
  Forall (fun g => edges g <> []) (concat graphs) ->
  _pack_batch graphs
  = Ok {| from_idx := concat (shifted_endpoints fst (concat graphs) 0);
          to_idx := concat (shifted_endpoints snd (concat graphs) 0);
          node_features :=
            repeat [1; 1] (list_sum (map number_of_nodes (concat graphs)));
          edge_features :=
            repeat [1; 1] (list_sum (map number_of_edges (concat graphs)));
          graph_idx := concat (graph_ids (concat graphs) 0);
          n_graphs := length (concat graphs) |}.
Proof.
  intros Hne Hedges. unfold _pack_batch. cbv zeta.
  rewrite _pack_batch_loop_ok by exact Hedges.
  cbn [bind app Nat.add].
  rewrite !np_concatenate_nonempty
    by (apply shifted_endpoints_nonempty || apply graph_ids_nonempty;
        exact Hne).
  cbn [bind]. now rewrite !np_concatenate_ones.
Qed.

(** X13: a non-empty batch of graphs that all have an edge, with edge
    endpoints among the nodes, is packed into a well-formed [GraphData]:
    one pair of unit features per node and per edge, [n_graphs] counting
    the graphs of all tuples, [graph_idx] sorted with graph [k] owning as
    many entries as it has nodes, every shifted endpoint a node of the
    batch, and both endpoints of an edge in the same graph. *)
Theorem pack_batch_well_formed :
  forall (graphs : list (list nx_graph)) (g0 : nx_graph),
    concat graphs <> [] ->
    Forall (fun g => edges g <> []
                     /\ Forall (fun e => fst e < number_of_nodes g
                                         /\ snd e < number_of_nodes g)%nat
                               (edges g))
           (concat graphs) ->
    exists d : GraphData,
      _pack_batch graphs = Ok d
      /\ n_graphs d = length (concat graphs)
      /\ node_features d
         = repeat [1; 1] (list_sum (map number_of_nodes (concat graphs)))
      /\ edge_features d
         = repeat [1; 1] (list_sum (map number_of_edges (concat graphs)))
      /\ length (graph_idx d) = length (node_features d)
      /\ length (from_idx d) = length (edge_features d)
      /\ length (to_idx d) = length (edge_features d)
      /\ Sorted le (graph_idx d)
      /\ Forall (fun k => k < n_graphs d)%nat (graph_idx d)
      /\ (forall k : nat,
             (k < n_graphs d)%nat ->
             count_occ Nat.eq_dec (graph_idx d) k
             = number_of_nodes (nth k (concat graphs) g0))
      /\ Forall (fun a => a < length (node_features d))%nat (from_idx d)
      /\ Forall (fun a => a < length (node_features d))%nat (to_idx d)
      /\ Forall2 (fun a b => nth a (graph_idx d) 0%nat
                             = nth b (graph_idx d) 0%nat)
                 (from_idx d) (to_idx d).
Proof.
  intros graphs g0 Hne Hwf.
  set (gs := concat graphs) in *.
  assert (Hedges : Forall (fun g => edges g <> []) gs)
    by (eapply Forall_impl; [|exact Hwf]; intros g Hg; apply Hg).
  assert (Hfst : Forall (fun g => Forall (fun e => fst e < number_of_nodes g)%nat
                                         (edges g)) gs).
  { eapply Forall_impl; [|exact Hwf]. intros g [_ Hg].
    eapply Forall_impl; [|exact Hg]. intros e He. apply He. }
  assert (Hsnd : Forall (fun g => Forall (fun e => snd e < number_of_nodes g)%nat
                                         (edges g)) gs).
  { eapply Forall_impl; [|exact Hwf]. intros g [_ Hg].
    eapply Forall_impl; [|exact Hg]. intros e He. apply He. }
  assert (Hin : Forall (fun g => Forall (fun e => fst e < number_of_nodes g
                                                  /\ snd e < number_of_nodes g)%nat
                                        (edges g)) gs)
    by (eapply Forall_impl; [|exact Hwf]; intros g Hg; apply Hg).
  eexists. split; [apply _pack_batch_packed; assumption|].
  cbn [n_graphs node_features edge_features graph_idx from_idx to_idx].
  fold gs. rewrite !repeat_length.
  split; [reflexivity|]. split; [reflexivity|]. split; [reflexivity|].
  split; [apply graph_ids_length|].
  split; [apply (shifted_endpoints_length fst snd)|].
  split; [apply (shifted_endpoints_length snd fst)|].
  split; [apply StronglySorted_Sorted, graph_ids_sorted|].
  split.
  { eapply Forall_impl; [|apply graph_ids_range]. intros k Hk. simpl in Hk.
    lia. }
  split; [intros k Hk; apply (graph_ids_count gs 0 k g0 Hk)|].
  split.
  { eapply Forall_impl; [|apply shifted_endpoints_range; exact Hfst].
    intros a Ha. simpl in Ha. lia. }
  split.
  { eapply Forall_impl; [|apply shifted_endpoints_range; exact Hsnd].
    intros a Ha. simpl in Ha. lia. }
  exact (edges_inside_graphs gs Hin 0%nat []).
Qed.

Lemma pack_batch_witness :
  exists d : GraphData,
    _pack_batch [[mk_nx_graph 2 [(0, 1)%nat]; mk_nx_graph 3 [(0, 2); (1, 2)]%nat]]
    = Ok d
    /\ n_graphs d = 2%nat
    /\ graph_idx d = [0; 0; 1; 1; 1]%nat
    /\ from_idx d = [0; 2; 3]%nat
    /\ to_idx d = [1; 4; 4]%nat
    /\ Sorted le (graph_idx d)
    /\ Forall2 (fun a b => nth a (graph_idx d) 0%nat
                           = nth b (graph_idx d) 0%nat)
               (from_idx d) (to_idx d).
Proof.
  destruct (pack_batch_well_formed
              [[mk_nx_graph 2 [(0, 1)%nat];
                mk_nx_graph 3 [(0, 2); (1, 2)]%nat]]
              (mk_nx_graph 0 []))
    as [d [Hd [Hn [_ [_ [_ [_ [_ [Hs [_ [_ [_ [_ Hf]]]]]]]]]]]]].
  - discriminate.
  - repeat constructor; simpl; try lia; discriminate.
  - exists d. split; [exact Hd|]. split; [exact Hn|].
    assert (E : Ok d
                = Ok {| from_idx := [0; 2; 3]%nat;
                        to_idx := [1; 4; 4]%nat;
                        node_features := repeat [1; 1] 5;
                        edge_features := repeat [1; 1] 3;
                        graph_idx := [0; 0; 1; 1; 1]%nat;
                        n_graphs := 2 |}).
    { rewrite <- Hd. apply _pack_batch_packed.
      - discriminate.
      - repeat constructor; discriminate. }
    injection E as ->. cbn [graph_idx from_idx to_idx] in *.
    repeat split; assumption.
Defined.

(** X14: [_pack_batch] raises a [ValueError] on a batch without graphs and
    an [IndexError] on a batch that contains a graph without edges. *)
Theorem pack_batch_rejects :
  forall graphs : list (list nx_graph),
    (concat graphs = [] ->
     _pack_batch graphs
     = Raise (ValueError "need at least one array to concatenate"))
    /\ (Exists (fun g => edges g = []) (concat graphs) ->
        _pack_batch graphs = Raise (IndexError "too many indices for array")).
Proof.
  intros graphs. unfold _pack_batch. cbv zeta. split.
  - intros ->. reflexivity.
  - intros Hex. now rewrite _pack_batch_loop_raises.
Qed.

Lemma pack_batch_rejects_witness :
  (concat (@nil (list nx_graph)) = []
   /\ _pack_batch []
      = Raise (ValueError "need at least one array to concatenate"))
  /\ (Exists (fun g => edges g = [])
             (concat [[mk_nx_graph 2 [(0, 1)%nat]; mk_nx_graph 1 []]])
      /\ _pack_batch [[mk_nx_graph 2 [(0, 1)%nat]; mk_nx_graph 1 []]]
         = Raise (IndexError "too many indices for array")).
Proof.
  assert (H : Exists (fun g => edges g = [])
                     (concat [[mk_nx_graph 2 [(0, 1)%nat]; mk_nx_graph 1 []]]))
    by (simpl; apply Exists_cons_tl, Exists_cons_hd; reflexivity).
  split.
  - split; [reflexivity|]. exact (proj1 (pack_batch_rejects []) eq_refl).
  - split; [exact H|].
    exact (proj2 (pack_batch_rejects
                    [[mk_nx_graph 2 [(0, 1)%nat]; mk_nx_graph 1 []]]) H).
Defined.

(** *** The batches of a fixed dataset *)

Lemma slice_length {A : Type} (l : list A) (ptr b : nat) :
  (ptr + b <= length l)%nat -> length (slice l ptr (ptr + b)) = b.
Proof.
  intros H. unfold slice. rewrite length_firstn, length_skipn. lia.
Qed.

Lemma Forall_firstn {A : Type} (P : A -> Prop) (m : nat) (t : list A) :
  Forall P t -> Forall P (firstn m t).
Proof.
  revert t; induction m as [|m IH]; intros t F; [constructor|].
  destruct F; simpl; constructor; auto.
Qed.

Lemma slice_Forall {A : Type} (P : A -> Prop) (l : list A) (a b : nat) :
  Forall P l -> Forall P (slice l a b).
Proof.
  intros F. unfold slice. apply Forall_firstn, Forall_skipn, F.
Qed.

Lemma concat_pairs_length (ps : list (nx_graph * nx_graph)) :
  length (concat (map (fun p => [fst p; snd p]) ps)) = (2 * length ps)%nat.
Proof. induction ps as [|p ps IH]; simpl in *; lia. Qed.

Lemma concat_pairs_edges (ps : list (nx_graph * nx_graph)) :
  Forall (fun p => edges (fst p) <> [] /\ edges (snd p) <> []) ps ->
  Forall (fun g => edges g <> []) (concat (map (fun p => [fst p; snd p]) ps)).
Proof.
  induction 1 as [|p ps [H1 H2] _ IH]; simpl; repeat constructor; assumption.
Qed.

Lemma div_step (n b : nat) :
  (0 < b)%nat -> (b <= n)%nat -> (n / b = S ((n - b) / b))%nat.
Proof.
  intros Hb Hn. replace n with ((n - b) + 1 * b)%nat at 1 by lia.
  rewrite Nat.div_add by lia. lia.
Qed.

Lemma pairs_loop_batches (_pairs : list (nx_graph * nx_graph))
    (_labels : list Z) (batch_size : nat) :
  (0 < batch_size)%nat ->
  Forall (fun p => edges (fst p) <> [] /\ edges (snd p) <> []) _pairs ->
  forall (fuel ptr : nat),
    ((length _pairs - ptr) / batch_size < fuel)%nat ->
    exists batches : list (GraphData * list Z),
      pairs_loop fuel _pairs _labels batch_size ptr
      = fold_right Yield StopIteration batches
      /\ length batches = ((length _pairs - ptr) / batch_size)%nat
      /\ forall k : nat,
           (k < length batches)%nat ->
           exists d : GraphData,
             nth_error batches k
             = Some (d, slice _labels (ptr + k * batch_size)
                          (ptr + k * batch_size + batch_size))
             /\ _pack_batch
                  (map (fun p => [fst p; snd p])
                       (slice _pairs (ptr + k * batch_size)
                          (ptr + k * batch_size + batch_size))) = Ok d
             /\ n_graphs d = (2 * batch_size)%nat.
Proof.
  intros Hb Hedges. induction fuel as [|fuel IH]; intros ptr Hfuel; [lia|].
  cbn [pairs_loop].
  destruct (Nat.leb_spec (ptr + batch_size) (length _pairs)) as [Hle|Hgt].
  - set (batch := slice _pairs ptr (ptr + batch_size)).
    assert (Hlen : length batch = batch_size) by (apply slice_length, Hle).
    assert (Hne : concat (map (fun p => [fst p; snd p]) batch) <> []).
    { intros E. apply (f_equal (@length nx_graph)) in E.
      rewrite concat_pairs_length, Hlen in E. simpl in E. lia. }
    assert (He : Forall (fun g => edges g <> [])
                        (concat (map (fun p => [fst p; snd p]) batch)))
      by (apply concat_pairs_edges, slice_Forall, Hedges).
    pose proof (_pack_batch_packed _ Hne He) as Hpack.
    rewrite Hpack.
    rewrite (div_step (length _pairs - ptr) batch_size) in Hfuel |- * by lia.
    destruct (IH (ptr + batch_size)%nat) as [batches [Hrun [Hn Hk]]].
    { replace (length _pairs - (ptr + batch_size))%nat
        with (length _pairs - ptr - batch_size)%nat by lia. lia. }
    eexists (_ :: batches). split; [cbn [fold_right]; now rewrite Hrun|].
    split.
    { cbn [length]. rewrite Hn. f_equal. f_equal. lia. }
    intros [|k] Hlt.
    + eexists. cbn [nth_error]. rewrite Nat.mul_0_l, Nat.add_0_r.
      split; [reflexivity|]. split; [exact Hpack|].
      cbn [n_graphs]. now rewrite concat_pairs_length, Hlen.
    + cbn [length] in Hlt. destruct (Hk k) as [d [Hd [Hp Hg]]]; [lia|].
      exists d. cbn [nth_error].
      replace (ptr + S k * batch_size)%nat
        with (ptr + batch_size + k * batch_size)%nat by (simpl; lia).
      auto.
  - rewrite Nat.div_small by lia. exists []. split; [reflexivity|].
    split; [reflexivity|]. intros k Hk. simpl in Hk. lia.
Qed.

(** X15: for a positive batch size and graphs that all have an edge, the
    pairs of a fixed dataset are yielded in [len(pairs) // batch_size]
    batches and the iteration then ends: batch [k] packs the pairs
    [k * batch_size .. (k + 1) * batch_size - 1] into [2 * batch_size]
    graphs and comes with the labels of the same positions, and the
    pairs left over after the last full batch are never yielded. *)
Theorem fixed_dataset_pairs_batches :
  forall (fuel : nat) (_pairs : list (nx_graph * nx_graph)) (_labels : list Z)
         (batch_size : nat),
    (0 < batch_size)%nat ->
    (length _pairs / batch_size < fuel)%nat ->
    Forall (fun p => edges (fst p) <> [] /\ edges (snd p) <> []) _pairs ->
    exists batches : list (GraphData * list Z),
      FixedGraphEditDistanceDataset_pairs fuel _pairs _labels batch_size
      = fold_right Yield StopIteration batches
      /\ length batches = (length _pairs / batch_size)%nat
      /\ forall k : nat,
           (k < length batches)%nat ->
           exists d : GraphData,
             nth_error batches k
             = Some (d, slice _labels (k * batch_size)
                          (k * batch_size + batch_size))
             /\ _pack_batch
                  (map (fun p => [fst p; snd p])
                       (slice _pairs (k * batch_size)
                          (k * batch_size + batch_size))) = Ok d
             /\ n_graphs d = (2 * batch_size)%nat.
Proof.
  intros fuel _pairs _labels batch_size Hb Hfuel Hedges.
  destruct (pairs_loop_batches _pairs _labels batch_size Hb Hedges fuel 0%nat)
    as [batches [Hrun [Hn Hk]]].
  { now rewrite Nat.sub_0_r. }
  exists batches. split; [exact Hrun|].
  split; [now rewrite Hn, Nat.sub_0_r|]. exact Hk.
Qed.

(** X16: with a batch size of zero the first batch requested from a fixed
    dataset is empty, and packing it raises a [ValueError]; the loop does
    not spin on the spot. *)
Theorem fixed_dataset_pairs_zero_batch_size :
  forall (fuel : nat) (_pairs : list (nx_graph * nx_graph)) (_labels : list Z),
    FixedGraphEditDistanceDataset_pairs (S fuel) _pairs _labels 0
    = Raised (ValueError "need at least one array to concatenate").
Proof.
  intros fuel _pairs _labels.
  unfold FixedGraphEditDistanceDataset_pairs. cbn [pairs_loop Nat.add].
  destruct (Nat.leb_spec 0 (length _pairs)) as [_|H]; [|lia].
  unfold slice. rewrite Nat.sub_diag. reflexivity.
Qed.

Lemma fixed_dataset_pairs_witness :
  exists batches : list (GraphData * list Z),
    FixedGraphEditDistanceDataset_pairs 3
      [(mk_nx_graph 2 [(0, 1)%nat], mk_nx_graph 2 [(1, 0)%nat]);
       (mk_nx_graph 3 [(0, 1); (1, 2)]%nat, mk_nx_graph 3 [(0, 2)%nat]);
       (mk_nx_graph 2 [(0, 1)%nat], mk_nx_graph 2 [(0, 1)%nat])]
      [1; -1; 1]%Z 2
    = fold_right Yield StopIteration batches
    /\ length batches = 1%nat.
Proof.
  destruct (fixed_dataset_pairs_batches 3
              [(mk_nx_graph 2 [(0, 1)%nat], mk_nx_graph 2 [(1, 0)%nat]);
               (mk_nx_graph 3 [(0, 1); (1, 2)]%nat, mk_nx_graph 3 [(0, 2)%nat]);
               (mk_nx_graph 2 [(0, 1)%nat], mk_nx_graph 2 [(0, 1)%nat])]
              [1; -1; 1]%Z 2)
    as [batches [Hrun [Hn _]]].
  - lia.
  - vm_compute. lia.
  - repeat constructor; discriminate.
  - exists batches. split; [exact Hrun | exact Hn].
Defined.

(** *** The pairs of the test dataset *)

Section TestDataset.

Import TestKnoweldgeGraphEditDistanceDataset.

Variables kg G : Type.
Variable convert_to_nx : kg -> G.

Lemma _get_graph_step (graphs : list kg) (g0 : kg) (j : nat) :
  graphs <> [] ->
  _get_graph kg G convert_to_nx graphs (j mod length graphs)
  = Ok (convert_to_nx (nth (j mod length graphs) graphs g0),
        (S j mod length graphs)%nat).
Proof.
  intros Hne. assert (Hlen : (0 < length graphs)%nat)
    by (destruct graphs; [contradiction | simpl; lia]).
  assert (Hlt : (j mod length graphs < length graphs)%nat)
    by (apply Nat.mod_upper_bound; lia).
  unfold _get_graph. rewrite (nth_error_nth' graphs g0 Hlt). cbv zeta.
  f_equal. f_equal.
  rewrite <- (Nat.add_1_r j), <- (Nat.Div0.add_mod_idemp_l j 1).
  revert Hlt. generalize (j mod length graphs). intros m Hm.
  destruct (Nat.eqb_spec (m + 1) (length graphs)) as [E|N].
  - rewrite E. now rewrite Nat.Div0.mod_same.
  - rewrite Nat.mod_small by lia. reflexivity.
Qed.

Lemma generate_pairs_from (graphs : list kg) (g0 : kg) :
  graphs <> [] ->
  forall (n : nat) (positive : bool) (j : nat) (pairs : list (G * G))
         (labels : list Z),
    generate_pairs kg G convert_to_nx graphs n positive (j mod length graphs)
      pairs labels
    = Ok (pairs
          ++ map (fun i =>
                    (convert_to_nx
                       (nth ((j + 2 * i) mod length graphs) graphs g0),
                     convert_to_nx
                       (nth ((j + 2 * i + 1) mod length graphs) graphs g0)))
                 (seq 0 n),
          labels
          ++ map (fun i => if Bool.eqb positive (Nat.even i)
                           then 1%Z else (-1)%Z)
                 (seq 0 n),
          ((j + 2 * n) mod length graphs)%nat).
Proof.
  intros Hne. induction n as [|n IH]; intros positive j pairs labels.
  - cbn [generate_pairs seq map]. now rewrite !app_nil_r, Nat.add_0_r.
  - cbn [generate_pairs]. unfold _get_pair.
    rewrite (_get_graph_step graphs g0 j Hne). cbn [bind].
    rewrite (_get_graph_step graphs g0 (S j) Hne). cbn [bind].
    rewrite IH. rewrite <- !app_assoc. cbn [app].
    rewrite <- cons_seq, <- seq_shift, !map_cons, !map_map.
    f_equal. f_equal; [f_equal|].
    + f_equal. f_equal; [repeat (f_equal; try lia)|].
      apply map_ext. intros i. repeat (f_equal; try lia).
    + f_equal. f_equal; [now destruct positive|].
      apply map_ext. intros i. rewrite Nat.even_succ, <- Nat.negb_even.
      now destruct positive, (Nat.even i).
    + f_equal. lia.
Qed.

(** X17: the test dataset pairs up its graphs in storage order, wrapping
    around at the end of the list: pair [i] consists of the graphs at the
    positions [2 i] and [2 i + 1] modulo the number of graphs.  The labels
    alternate, [+1] for even [i] and [-1] for odd [i], whatever the graphs
    are, and the position ends at [2 * dataset_size] modulo the number of
    graphs. *)
Theorem test_dataset_pairs_in_storage_order :
  forall (graphs : list kg) (dataset_size : nat) (g0 : kg),
    graphs <> [] ->
    exists (pairs : list (G * G)) (labels : list Z),
      generate_pairs kg G convert_to_nx graphs dataset_size true 0 [] []
      = Ok (pairs, labels, ((2 * dataset_size) mod length graphs)%nat)
      /\ length pairs = dataset_size
      /\ length labels = dataset_size
      /\ forall i : nat,
           (i < dataset_size)%nat ->
           nth_error pairs i
           = Some (convert_to_nx
                     (nth ((2 * i) mod length graphs) graphs g0),
                   convert_to_nx
                     (nth ((2 * i + 1) mod length graphs) graphs g0))
           /\ nth_error labels i
              = Some (if Nat.even i then 1%Z else (-1)%Z).
Proof.
  intros graphs dataset_size g0 Hne.
  assert (Hlen : (0 < length graphs)%nat)
    by (destruct graphs; [contradiction | simpl; lia]).
  pose proof (generate_pairs_from graphs g0 Hne dataset_size true 0 [] [])
    as Hrun.
  rewrite Nat.Div0.mod_0_l in Hrun. cbn [app Nat.add] in Hrun.
  eexists. eexists. split; [exact Hrun|].
  split; [now rewrite length_map, length_seq|].
  split; [now rewrite length_map, length_seq|].
  intros i Hi. split.
  - rewrite nth_error_map, nth_error_seq.
    destruct (Nat.ltb_spec i dataset_size) as [_|H]; [|lia].
    reflexivity.
  - rewrite nth_error_map, nth_error_seq.
    destruct (Nat.ltb_spec i dataset_size) as [_|H]; [|lia].
    cbn [option_map Nat.add]. now destruct (Nat.even i).
Qed.

End TestDataset.

Lemma test_dataset_pairs_witness :
  [10; 20; 30]%nat <> []
  /\ exists (pairs : list (nat * nat)) (labels : list Z),
       TestKnoweldgeGraphEditDistanceDataset.generate_pairs nat nat
         (fun g => g) [10; 20; 30]%nat 2 true 0 [] []
       = Ok (pairs, labels, ((2 * 2) mod length [10; 20; 30]%nat)%nat)
       /\ length pairs = 2%nat
       /\ length labels = 2%nat
       /\ forall i : nat,
            (i < 2)%nat ->
            nth_error pairs i
            = Some (nth ((2 * i) mod length [10; 20; 30]%nat)
                        [10; 20; 30]%nat 0%nat,
                    nth ((2 * i + 1) mod length [10; 20; 30]%nat)
                        [10; 20; 30]%nat 0%nat)
            /\ nth_error labels i
               = Some (if Nat.even i then 1%Z else (-1)%Z).
Proof.
  assert (H : [10; 20; 30]%nat <> []) by discriminate.
  split; [exact H|].
  exact (test_dataset_pairs_in_storage_order nat nat (fun g => g)
           [10; 20; 30]%nat 2 0%nat H).
Defined.

(** *** The order of the edges *)

Section EdgeOrder.

Variable vs : variable_store.
Variable E : Type.
Variables src dst : E -> nat.

Lemma map2_map_both {A B C D : Type} (op : B -> C -> D) (f : A -> B)
    (g : A -> C) (l : list A) :
  map2 op (map f l) (map g l) = map (fun a => op (f a) (g a)) l.
Proof. induction l as [|a l IH]; simpl; [reflexivity | now rewrite IH]. Qed.

Lemma graph_prop_once_tagged (node_states : tensor) (a b : E -> nat)
    (f : option (E -> vec)) (net : vec -> vec) (d : nat) (es : list E) :
  exists input : E -> vec,
    forall es : list E,
      graph_prop_once node_states (map a es) (map b es) (map net)
        (tf.unsorted_segment_sum d) (features_of f es)
      = tf.unsorted_segment_sum d
          (map net (map fst (map (fun e => (input e, b e)) es)))
          (map snd (map (fun e => (input e, b e)) es))
          (length node_states).
Proof.
  destruct f as [f|].
  - exists (fun e => (nth (a e) node_states [] ++ nth (b e) node_states [])
                     ++ f e).
    intros es'. unfold graph_prop_once, features_of, tf.gather, tf.concat_last.
    cbn [option_map app fold_left]. rewrite !map_map.
    rewrite (map2_map_both (@app R)), (map2_map_both (@app R)).
    rewrite !map_map. cbn [fst snd]. reflexivity.
  - exists (fun e => nth (a e) node_states [] ++ nth (b e) node_states []).
    intros es'. unfold graph_prop_once, features_of, tf.gather, tf.concat_last.
    cbn [option_map app fold_left]. rewrite !map_map.
    rewrite (map2_map_both (@app R)). rewrite !map_map.
    cbn [fst snd]. reflexivity.
Qed.

Lemma graph_prop_once_edge_order (node_states : tensor) (a b : E -> nat)
    (f : option (E -> vec)) (net : vec -> vec) (d : nat) (es es' : list E) :
  Permutation es es' ->
  graph_prop_once node_states (map a es) (map b es) (map net)
    (tf.unsorted_segment_sum d) (features_of f es)
  = graph_prop_once node_states (map a es') (map b es') (map net)
      (tf.unsorted_segment_sum d) (features_of f es').
Proof.
  intros P.
  destruct (graph_prop_once_tagged node_states a b f net d es) as [input H].
  rewrite !H. apply segment_op_Permutation; [now left|].
  now apply Permutation_map.
Qed.

Lemma _compute_aggregated_messages_edge_order (self : GraphPropLayer)
    (node_states : tensor) (f : option (E -> vec)) (es es' : list E) :
  Permutation es es' ->
  _compute_aggregated_messages vs self node_states (map src es) (map dst es)
    (features_of f es)
  = _compute_aggregated_messages vs self node_states (map src es')
      (map dst es') (features_of f es').
Proof.
  intros P. unfold _compute_aggregated_messages. cbv zeta.
  rewrite (graph_prop_once_edge_order node_states src dst f _ _ es es' P).
  destruct (_use_reverse_direction self); [|reflexivity].
  now rewrite (graph_prop_once_edge_order node_states dst src f _ _ es es' P).
Qed.

Lemma apply_layers_edge_order (self : GraphEmbeddingNet)
    (layers : list GraphPropLayer) (graph_idx : list nat) (n_graphs : nat)
    (f : option (E -> vec)) (es es' : list E) :
  Permutation es es' ->
  forall (node_states : tensor) (layer_outputs : list tensor),
    apply_layers vs self layers node_states (map src es) (map dst es)
      graph_idx n_graphs (features_of f es) layer_outputs
    = apply_layers vs self layers node_states (map src es') (map dst es')
        graph_idx n_graphs (features_of f es') layer_outputs.
Proof.
  intros P. induction layers as [|layer layers IH];
    intros node_states layer_outputs; [reflexivity|].
  cbn [apply_layers].
  assert (Hl : _apply_layer vs self layer node_states (map src es)
                 (map dst es) graph_idx n_graphs (features_of f es)
               = _apply_layer vs self layer node_states (map src es')
                   (map dst es') graph_idx n_graphs (features_of f es')).
  { unfold _apply_layer, GraphPropLayer_build, GraphPropMatchingLayer_build.
    cbv zeta.
    now rewrite (_compute_aggregated_messages_edge_order layer node_states f
                   es es' P). }
  rewrite Hl. clear Hl.
  destruct (_apply_layer _ _ _ _ _ _ _ _ _) as [ns|e]; [|reflexivity].
  cbn [bind]. apply IH.
Qed.

Lemma GraphEncoder_build_edges (encoder : GraphEncoder)
    (node_features : tensor) (f : option (E -> vec)) :
  exists f' : option (E -> vec),
    forall es : list E,
      GraphEncoder_build vs encoder node_features (features_of f es)
      = (fst (GraphEncoder_build vs encoder node_features None),
         features_of f' es).
Proof.
  unfold GraphEncoder_build, features_of.
  destruct f as [f|]; cbn [option_map].
  - destruct (enc_edge_hidden_sizes encoder) as [sizes|].
    + exists (Some (fun e => edge_feature_mlp vs (f e))). intros es.
      cbn [option_map fst]. now rewrite map_map.
    + exists (Some f). intros es. reflexivity.
  - exists None. intros es. reflexivity.
Qed.

Lemma GraphEmbeddingNet_build_edge_order (self : GraphEmbeddingNet)
    (node_features : tensor) (graph_idx : list nat) (n_graphs : nat)
    (f : option (E -> vec)) (es es' : list E) :
  Permutation es es' ->
  GraphEmbeddingNet_build vs self node_features (features_of f es)
    (map src es) (map dst es) graph_idx n_graphs
  = GraphEmbeddingNet_build vs self node_features (features_of f es')
      (map src es') (map dst es') graph_idx n_graphs.
Proof.
  intros P. unfold GraphEmbeddingNet_build. cbv zeta.
  destruct (GraphEncoder_build_edges (_encoder self) node_features f)
    as [f' Henc].
  rewrite !Henc.
  now rewrite (apply_layers_edge_order self _ graph_idx n_graphs f' es es' P).
Qed.

End EdgeOrder.

(** X18: a forward pass does not depend on the order in which the edges of
    the batch are listed: when the edges (source, target and, if given,
    feature row of each) are permuted, the embedding net and the matching
    net return the same graph vectors, the same layer outputs and the same
    error if they raise. *)
Theorem forward_pass_edge_order :
  forall (vs : variable_store) (self : GraphEmbeddingNet)
         (node_features : tensor) (graph_idx : list nat) (n_graphs : nat)
         (with_features : bool) (es es' : list (nat * nat * vec)),
    Permutation es es' ->
    let from_idx (es : list (nat * nat * vec)) :=
      map (fun e => fst (fst e)) es in
    let to_idx (es : list (nat * nat * vec)) :=
      map (fun e => snd (fst e)) es in
    let edge_features (es : list (nat * nat * vec)) :=
      if with_features then Some (map snd es) else None in
    GraphEmbeddingNet_build vs self node_features (edge_features es)
      (from_idx es) (to_idx es) graph_idx n_graphs
    = GraphEmbeddingNet_build vs self node_features (edge_features es')
        (from_idx es') (to_idx es') graph_idx n_graphs.
Proof.
  intros vs self node_features graph_idx n_graphs with_features es es' P.
  cbv zeta.
  pose proof (GraphEmbeddingNet_build_edge_order vs (nat * nat * vec)
                (fun e => fst (fst e)) (fun e => snd (fst e)) self
                node_features graph_idx n_graphs
                (if with_features then Some snd else None) es es' P) as H.
  destruct with_features; exact H.
Qed.

Lemma forward_pass_edge_order_witness :
  Permutation [((0%nat, 1%nat), [1; 1]); ((1%nat, 2%nat), [2; 0])]
              [((1%nat, 2%nat), [2; 0]); ((0%nat, 1%nat), [1; 1])]
  /\ GraphEmbeddingNet_build identity_store five_layer_net [[1]; [2]; [3]]
       (Some [[1; 1]; [2; 0]]) [0; 1]%nat [1; 2]%nat [0; 0; 0]%nat 1
     = GraphEmbeddingNet_build identity_store five_layer_net [[1]; [2]; [3]]
         (Some [[2; 0]; [1; 1]]) [1; 0]%nat [2; 1]%nat [0; 0; 0]%nat 1.
Proof.
  assert (P : Permutation
                [((0%nat, 1%nat), [1; 1]); ((1%nat, 2%nat), [2; 0])]
                [((1%nat, 2%nat), [2; 0]); ((0%nat, 1%nat), [1; 1])])
    by apply perm_swap.
  split; [exact P|].
  exact (forward_pass_edge_order identity_store five_layer_net
           [[1]; [2]; [3]] [0; 0; 0]%nat 1 true _ _ P).
Defined.

(** *** The datasets of a training run *)



(** X20: the datasets that [train] builds do not depend on its arguments
    [iterations], [min_changes] and [max_changes]: [build_datasets] always
    gives the training and the validation set 1 substitution for a positive
    and 2 for a negative pair, with permutation in the training set only,
    and reads neither the change counts that [train] stores in the
    configuration nor those of [dataset_params]. *)
Theorem train_datasets_ignore_change_counts :
  forall (kg : Type) (graphs test_graph_pairs : list kg),
    exists (training_set : KnowledgeGraphEditDistanceDataset.t kg)
           (validation_set : FixedKnoweldgeGraphEditDistanceDataset.t kg)
           (test_set : TestKnoweldgeGraphEditDistanceDataset.t kg),
      (forall iterations min_changes max_changes : nat,
          train_datasets graphs test_graph_pairs iterations min_changes
            max_changes = Ok (training_set, validation_set, test_set))
      /\ KnowledgeGraphEditDistanceDataset._k_pos training_set = 1%nat
      /\ KnowledgeGraphEditDistanceDataset._k_neg training_set = 2%nat
      /\ KnowledgeGraphEditDistanceDataset._permute training_set = true
      /\ FixedKnoweldgeGraphEditDistanceDataset._k_pos validation_set = 1%nat
      /\ FixedKnoweldgeGraphEditDistanceDataset._k_neg validation_set = 2%nat
      /\ FixedKnoweldgeGraphEditDistanceDataset._permute validation_set
         = false
      /\ FixedKnoweldgeGraphEditDistanceDataset._dataset_size validation_set
         = 1000%nat.
Proof.
  intros kg graphs test_graph_pairs.
  exists (KnowledgeGraphEditDistanceDataset.__init__ graphs 1 2 true),
         (FixedKnoweldgeGraphEditDistanceDataset.__init__ graphs 1 2 1000
            false 1234),
         (TestKnoweldgeGraphEditDistanceDataset.__init__ kg test_graph_pairs
            (length test_graph_pairs / 2) false 1234).
  split; [intros; reflexivity|]. repeat split.
Qed.
